(** * love-pods: the gauge-driven synchronisation and mixing engine

    A shallow embedding of [src/App.tsx] (the React component that owns the
    gauge, the clock-loop release, the deferred mix start, the stem mixer and
    the stop/fade-out path) and, in [Module Legacy], of the earlier variant of
    the same component that the repository also carries.

    Numbers.  JavaScript numbers are modelled as exact rationals in canonical
    form ([Qc]), so that equal numbers are equal terms; what depends on
    rounding (the accumulated steps of the gauge, the loop-release instant)
    is computed a second time on IEEE-754 binary64 values ([Module Binary64]),
    and the theorems on exact numbers state only what holds there too.

    Effects.  The Web Audio API is an external collaborator: every call the
    component makes on it is appended, in program order, to the [calls] trace
    of the host, with audio nodes and contexts named by fresh numbers.  What the
    component reads back from the engine ([ctx.currentTime], [g.gain.value]) is
    an input.  [setTimeout] callbacks are kept in an explicit list of pending
    timers; nothing in the component ever removes one before it fires. *)

From Stdlib Require Import QArith Qround Qcanon Lqa Lia ZArith String List Floats.
From stdpp Require Import base option list gmap strings.

Open Scope Qc_scope.

(** ** JavaScript numbers *)

(** A numeric literal. *)
Definition num (q : Q) : Qc := Q2Qc q.
Arguments num q%_Q.

(** [x <= y] and [x < y]. *)
Definition Qleb (x y : Qc) : bool := Qle_bool x y.
Definition Qltb (x y : Qc) : bool := negb (Qle_bool y x).

(** [Math.floor] and [Math.max]. *)
Definition Math_floor (x : Qc) : Qc := num (inject_Z (Qfloor x)).
Definition Math_max (x y : Qc) : Qc := if Qleb x y then y else x.

(** ** Configuration *)

Module CONFIG.
Definition loopEndTime : Qc := num 7.0.
Definition vocalStartTime : Qc := num 17.0.
Definition gaugeSpeed : Qc := num 0.15.
Definition vocalGaugeSpeed : Qc := num 0.15.
Definition decayRate : Qc := num 0.5.
Definition fadeOutTime : Qc := num 10.0.
Definition inputKeys : list string := [" "; "Enter"]%string.
End CONFIG.

(** ** Data model *)

(** A decoded audio buffer: only its identity and sample rate are observed. *)
Record AudioBuffer := mkAudioBuffer { bufId : nat; sampleRate : Qc }.

(** One entry of [musicBuffersRef.current]: the four stems of a song, each
    possibly missing. *)
Record MusicBuffers := mkMusicBuffers {
  other : option AudioBuffer;
  bass : option AudioBuffer;
  drums : option AudioBuffer;
  vocals : option AudioBuffer
}.

(** The React state [stage : 0 | 1 | 2]. *)
Inductive Stage :=
| Idle        (* 0: no audio graph *)
| Syncing     (* 1: clock looping, or released and waiting for the mix *)
| MixActive.  (* 2: stems playing under gauge control *)

Inductive Destination :=
| ToContext (c : nat)   (* ctx.destination *)
| ToNode (g : nat).     (* a gain node *)

(** The calls made on the Web Audio API. *)
Inductive AudioCall :=
| NewAudioContext (c : nat)
| CtxClose (c : nat)
| CreateGain (c g : nat)
| CreateBufferSource (c n : nat)
| SetGainValue (g : nat) (v : Qc)                       (* g.gain.value = v *)
| Connect (n : nat) (d : Destination)
| SetBuffer (n : nat) (b : AudioBuffer)
| SetLoop (n : nat) (b : bool)
| SetLoopStart (n : nat) (t : Qc)
| SetLoopEnd (n : nat) (t : Qc)
| Start (n : nat) (when : Qc)
| Stop (n : nat)
| CancelScheduledValues (g : nat) (t : Qc)
| SetValueAtTime (g : nat) (v t : Qc)
| LinearRampToValueAtTime (g : nat) (v t : Qc)
| SetTargetAtTime (g : nat) (target t timeConstant : Qc).

(** [audioRef.current]: references to the live context and nodes. *)
Record AudioRef := mkAudioRef {
  ctx : option nat;
  clockSrc : option nat;
  otherSrc : option nat;
  bassSrc : option nat;
  drumsSrc : option nat;
  vocalsSrc : option nat;
  gainClock : option nat;
  gainOther : option nat;
  gainBass : option nat;
  gainDrums : option nat;
  gainVocals : option nat;
  startTime : Qc
}.

(** [stateRef.current]. *)
Record StateRef := mkStateRef {
  gauge : Qc;
  visualGauge : Qc;
  isLooping : bool;
  vocalActive : bool;
  isLeaning : bool
}.

(** The React state the engine writes. *)
Record Ui := mkUi {
  isReady : bool;
  isLoading : bool;
  statusText : string;
  stage : Stage;
  errorMessage : string;
  isPaused : bool;
  selectedMusic : string
}.

(** The callbacks handed to [setTimeout]. *)
Inductive TimerAction :=
| ActivateMix            (* the callback of scheduleMusicAt17s *)
| StopReset (c : nat).   (* the callback of handleStop, which captured [ctx] *)

(** A pending timer; [due] is on the wall clock, in milliseconds. *)
Record Timer := mkTimer { due : Qc; action : TimerAction }.

(** The host: wall clock (ms), the live context's [currentTime] (s), the
    pending timers, the trace of audio calls, the next fresh node number and
    whether a [requestAnimationFrame(gameLoop)] is outstanding. *)
Record Host := mkHost {
  wall : Qc;
  currentTime : Qc;
  timers : list Timer;
  calls : list AudioCall;
  nextId : nat;
  rafActive : bool
}.

Record App := mkApp {
  ui : Ui;
  audioRef : AudioRef;
  buffersRef : option AudioBuffer;                 (* buffersRef.current.clock *)
  musicBuffersRef : gmap string MusicBuffers;
  selectedMusicRef : string;
  stateRef : StateRef;
  host : Host
}.

(** ** Field updates *)

Definition upd_ui (f : Ui -> Ui) (w : App) : App :=
  mkApp (f (ui w)) (audioRef w) (buffersRef w) (musicBuffersRef w)
        (selectedMusicRef w) (stateRef w) (host w).
Definition upd_audioRef (f : AudioRef -> AudioRef) (w : App) : App :=
  mkApp (ui w) (f (audioRef w)) (buffersRef w) (musicBuffersRef w)
        (selectedMusicRef w) (stateRef w) (host w).
Definition upd_stateRef (f : StateRef -> StateRef) (w : App) : App :=
  mkApp (ui w) (audioRef w) (buffersRef w) (musicBuffersRef w)
        (selectedMusicRef w) (f (stateRef w)) (host w).
Definition upd_host (f : Host -> Host) (w : App) : App :=
  mkApp (ui w) (audioRef w) (buffersRef w) (musicBuffersRef w)
        (selectedMusicRef w) (stateRef w) (f (host w)).
Definition set_buffersRef (b : option AudioBuffer) (w : App) : App :=
  mkApp (ui w) (audioRef w) b (musicBuffersRef w)
        (selectedMusicRef w) (stateRef w) (host w).
Definition set_musicBuffersRef (m : gmap string MusicBuffers) (w : App) : App :=
  mkApp (ui w) (audioRef w) (buffersRef w) m
        (selectedMusicRef w) (stateRef w) (host w).

Definition set_gauge (g : Qc) (s : StateRef) : StateRef :=
  mkStateRef g (visualGauge s) (isLooping s) (vocalActive s) (isLeaning s).
Definition set_visualGauge (v : Qc) (s : StateRef) : StateRef :=
  mkStateRef (gauge s) v (isLooping s) (vocalActive s) (isLeaning s).
Definition set_isLooping (b : bool) (s : StateRef) : StateRef :=
  mkStateRef (gauge s) (visualGauge s) b (vocalActive s) (isLeaning s).
Definition set_vocalActive (b : bool) (s : StateRef) : StateRef :=
  mkStateRef (gauge s) (visualGauge s) (isLooping s) b (isLeaning s).
Definition set_isLeaning (b : bool) (s : StateRef) : StateRef :=
  mkStateRef (gauge s) (visualGauge s) (isLooping s) (vocalActive s) b.

Definition set_isReady (b : bool) (u : Ui) : Ui :=
  mkUi b (isLoading u) (statusText u) (stage u) (errorMessage u) (isPaused u) (selectedMusic u).
Definition set_isLoading (b : bool) (u : Ui) : Ui :=
  mkUi (isReady u) b (statusText u) (stage u) (errorMessage u) (isPaused u) (selectedMusic u).
Definition set_statusText (t : string) (u : Ui) : Ui :=
  mkUi (isReady u) (isLoading u) t (stage u) (errorMessage u) (isPaused u) (selectedMusic u).
Definition set_stage (s : Stage) (u : Ui) : Ui :=
  mkUi (isReady u) (isLoading u) (statusText u) s (errorMessage u) (isPaused u) (selectedMusic u).
Definition set_errorMessage (t : string) (u : Ui) : Ui :=
  mkUi (isReady u) (isLoading u) (statusText u) (stage u) t (isPaused u) (selectedMusic u).
Definition set_isPaused (b : bool) (u : Ui) : Ui :=
  mkUi (isReady u) (isLoading u) (statusText u) (stage u) (errorMessage u) b (selectedMusic u).

Definition set_clockSrc (n : option nat) (a : AudioRef) : AudioRef :=
  mkAudioRef (ctx a) n (otherSrc a) (bassSrc a) (drumsSrc a) (vocalsSrc a)
             (gainClock a) (gainOther a) (gainBass a) (gainDrums a) (gainVocals a) (startTime a).
Definition set_otherSrc (n : option nat) (a : AudioRef) : AudioRef :=
  mkAudioRef (ctx a) (clockSrc a) n (bassSrc a) (drumsSrc a) (vocalsSrc a)
             (gainClock a) (gainOther a) (gainBass a) (gainDrums a) (gainVocals a) (startTime a).
Definition set_bassSrc (n : option nat) (a : AudioRef) : AudioRef :=
  mkAudioRef (ctx a) (clockSrc a) (otherSrc a) n (drumsSrc a) (vocalsSrc a)
             (gainClock a) (gainOther a) (gainBass a) (gainDrums a) (gainVocals a) (startTime a).
Definition set_drumsSrc (n : option nat) (a : AudioRef) : AudioRef :=
  mkAudioRef (ctx a) (clockSrc a) (otherSrc a) (bassSrc a) n (vocalsSrc a)
             (gainClock a) (gainOther a) (gainBass a) (gainDrums a) (gainVocals a) (startTime a).
Definition set_vocalsSrc (n : option nat) (a : AudioRef) : AudioRef :=
  mkAudioRef (ctx a) (clockSrc a) (otherSrc a) (bassSrc a) (drumsSrc a) n
             (gainClock a) (gainOther a) (gainBass a) (gainDrums a) (gainVocals a) (startTime a).
Definition set_startTime (t : Qc) (a : AudioRef) : AudioRef :=
  mkAudioRef (ctx a) (clockSrc a) (otherSrc a) (bassSrc a) (drumsSrc a) (vocalsSrc a)
             (gainClock a) (gainOther a) (gainBass a) (gainDrums a) (gainVocals a) t.

(** ** Host primitives *)

(** Record one Web Audio call. *)
Definition emit (c : AudioCall) (w : App) : App :=
  upd_host (fun h => mkHost (wall h) (currentTime h) (timers h) (calls h ++ [c])
                            (nextId h) (rafActive h)) w.

Definition emits (cs : list AudioCall) (w : App) : App :=
  upd_host (fun h => mkHost (wall h) (currentTime h) (timers h) (calls h ++ cs)
                            (nextId h) (rafActive h)) w.

(** A fresh node or context number. *)
Definition fresh (w : App) : nat * App :=
  (nextId (host w),
   upd_host (fun h => mkHost (wall h) (currentTime h) (timers h) (calls h)
                             (S (nextId h)) (rafActive h)) w).

(** [setTimeout(cb, ms)]. *)
Definition setTimeout (cb : TimerAction) (ms : Qc) (w : App) : App :=
  upd_host (fun h => mkHost (wall h) (currentTime h)
                            (timers h ++ [mkTimer (wall h + ms) cb])
                            (calls h) (nextId h) (rafActive h)) w.

(** [requestRef.current = requestAnimationFrame(gameLoop)]. *)
Definition requestAnimationFrame (w : App) : App :=
  upd_host (fun h => mkHost (wall h) (currentTime h) (timers h) (calls h)
                            (nextId h) true) w.

Definition setStatusText (t : string) : App -> App := upd_ui (set_statusText t).
Definition setStage (s : Stage) : App -> App := upd_ui (set_stage s).
Definition setErrorMessage (t : string) : App -> App := upd_ui (set_errorMessage t).
Definition setIsReady (b : bool) : App -> App := upd_ui (set_isReady b).
Definition setIsPaused (b : bool) : App -> App := upd_ui (set_isPaused b).
Definition setIsLoading (b : bool) : App -> App := upd_ui (set_isLoading b).

Definition set_currentTime (t : Qc) (w : App) : App :=
  upd_host (fun h => mkHost (wall h) t (timers h) (calls h) (nextId h) (rafActive h)) w.

(** ** The gauge engine ([gameLoop], "Input Logic") *)

(** The new value of [stateRef.current.gauge] after the input block of one
    [gameLoop] call. *)
Definition gaugeInput (s : StateRef) : Qc :=
  let currentGaugeSpeed :=
    if vocalActive s then CONFIG.vocalGaugeSpeed else CONFIG.gaugeSpeed in
  let g := if isLeaning s then gauge s + currentGaugeSpeed
           else gauge s - CONFIG.decayRate in
  let g := if Qltb g 0 then 0 else g in
  let g := if Qltb (num 100) g then num 100 else g in
  g.

(** ** The mixer bands ([gameLoop], music-control branch) *)

(** [(bassVol, drumVol, vocalVol)] for a gauge value. *)
Definition stemVolumes (gauge : Qc) : Qc * Qc * Qc :=
  if Qleb gauge (num 20) then (gauge / num 20, 0, 0)
  else if Qleb gauge (num 40) then (num 1.0, (gauge - num 20) / num 20, 0)
  else (num 1.0, num 1.0, (gauge - num 40) / num 60).

Definition bassVol (gauge : Qc) : Qc := fst (fst (stemVolumes gauge)).
Definition drumVol (gauge : Qc) : Qc := snd (fst (stemVolumes gauge)).
Definition vocalVol (gauge : Qc) : Qc := snd (stemVolumes gauge).

(** ** The timeline scheduler *)

(** [createSrc] of scheduleMusicAt17s: a missing buffer gives [null]; otherwise
    a fresh source is bound to its gain and started at [musicStartAt]. *)
Definition createSrc (c : nat) (musicStartAt : Qc) (buf : option AudioBuffer)
    (gain : nat) (w : App) : option nat * App :=
  match buf with
  | None => (None, w)
  | Some b =>
      let '(src, w) := fresh w in
      (Some src,
       emits [CreateBufferSource c src; SetBuffer src b;
              Connect src (ToNode gain); Start src musicStartAt] w)
  end.

(** [selectedMusicRef.current || selectedMusic]. *)
Definition currentSelected (w : App) : string :=
  if String.eqb (selectedMusicRef w) "" then selectedMusic (ui w)
  else selectedMusicRef w.

(** The callback that scheduleMusicAt17s hands to [setTimeout]. *)
Definition activateMix (w : App) : App :=
  let w := upd_stateRef (set_vocalActive true) w in
  let w := setStage MixActive w in
  let w := setStatusText "MUSIC ACTIVE" w in
  upd_stateRef (set_gauge 0) w.

Definition scheduleMusicAt17s (c : nat) (musicStartAt : Qc) (w : App) : App :=
  match gainOther (audioRef w), gainBass (audioRef w),
        gainDrums (audioRef w), gainVocals (audioRef w) with
  | Some gO, Some gB, Some gD, Some gV =>
      let sel := currentSelected w in
      let notLoaded := setErrorMessage ("Failed to load music: " +:+ sel) w in
      match musicBuffersRef w !! sel with
      | None => notLoaded
      | Some currentMusic =>
          match other currentMusic with
          | None => notLoaded
          | Some _ =>
              let '(o, w) := createSrc c musicStartAt (other currentMusic) gO w in
              let w := upd_audioRef (set_otherSrc o) w in
              let '(b, w) := createSrc c musicStartAt (bass currentMusic) gB w in
              let w := upd_audioRef (set_bassSrc b) w in
              let '(d, w) := createSrc c musicStartAt (drums currentMusic) gD w in
              let w := upd_audioRef (set_drumsSrc d) w in
              let '(v, w) := createSrc c musicStartAt (vocals currentMusic) gV w in
              let w := upd_audioRef (set_vocalsSrc v) w in
              let w := emit (SetValueAtTime gO (num 1.0) musicStartAt) w in
              let delay := Math_max 0 (musicStartAt - currentTime (host w)) in
              setTimeout ActivateMix (delay * num 1000) w
          end
      end
  | _, _, _, _ => w
  end.

(** The end of the loop iteration that is playing at [now]
    ([currentLoopEnd] in releaseLoop). *)
Definition currentLoopEnd (startTime now : Qc) : Qc :=
  let elapsed := now - startTime in
  startTime
  + (Math_floor (elapsed / CONFIG.loopEndTime) + 1) * CONFIG.loopEndTime.

Definition releaseLoop (w : App) : App :=
  match ctx (audioRef w), clockSrc (audioRef w) with
  | Some c, Some clk =>
      let startTime := startTime (audioRef w) in
      let w := emit (SetLoop clk false) w in
      let w := upd_stateRef (set_isLooping false) w in
      let w := setStatusText "SYNC COMPLETE..." w in
      let now := currentTime (host w) in
      let loopEndTime := currentLoopEnd startTime now in
      let musicStartTime := loopEndTime + CONFIG.vocalStartTime in
      scheduleMusicAt17s c musicStartTime w
  | _, _ => w
  end.

(** ** Session start *)

Definition stopSource (src : option nat) : list AudioCall :=
  match src with
  | Some n => [Stop n]
  | None => []
  end.

Definition startMusic (c : nat) (clockBuf : AudioBuffer) (w : App) : App :=
  match gainClock (audioRef w) with
  | None => w
  | Some gc =>
      let w := emits (stopSource (clockSrc (audioRef w))) w in
      let sampleRate := sampleRate clockBuf in
      let loopStartSample := 0 in
      let loopEndSample := Math_floor (CONFIG.loopEndTime * sampleRate) in
      let '(src, w) := fresh w in
      let now := currentTime (host w) in
      let w := emits [CreateBufferSource c src; SetBuffer src clockBuf;
                      SetLoop src true;
                      SetLoopStart src (loopStartSample / sampleRate);
                      SetLoopEnd src (loopEndSample / sampleRate);
                      Connect src (ToNode gc); Start src now] w in
      let w := upd_audioRef (set_clockSrc (Some src)) w in
      let w := upd_audioRef (set_startTime now) w in
      let w := setIsReady true w in
      let w := setStage Syncing w in
      let w := setStatusText "SYNC TIME (HOLD SPACE)" w in
      requestAnimationFrame w
  end.

(** [initAudio] with its awaits collapsed: the asset loader is external, so the
    decoded clock buffer, the stems of the selected song and the reading [t0]
    of the new context's clock when loading completes are inputs.  The path on
    which the clock asset fails to load is not modelled. *)
Definition initAudio (clockBuf : AudioBuffer) (selectedBuffers : MusicBuffers)
    (t0 : Qc) (w : App) : App :=
  if isLoading (ui w) then w
  else
    let sel := currentSelected w in
    if String.eqb sel "" then setErrorMessage "No music selected" w
    else
      let w := setIsLoading true w in
      let w := setStatusText "LOADING..." w in
      let w := match ctx (audioRef w) with
               | Some old => emit (CtxClose old) w
               | None => w
               end in
      let '(c, w) := fresh w in
      let w := set_currentTime t0 (emit (NewAudioContext c) w) in
      let w := setStatusText "LOADING CLOCK..." w in
      let w := set_buffersRef (Some clockBuf) w in
      let w := setStatusText ("LOADING " +:+ sel +:+ "...") w in
      let w := set_musicBuffersRef (<[sel := selectedBuffers]> (musicBuffersRef w)) w in
      let '(gClock, w) := fresh w in
      let '(gOther, w) := fresh w in
      let '(gBass, w) := fresh w in
      let '(gDrums, w) := fresh w in
      let '(gVocals, w) := fresh w in
      let gains := [gClock; gOther; gBass; gDrums; gVocals] in
      let w := emits (map (CreateGain c) gains) w in
      let w := emits (map (fun g => SetGainValue g 0) gains) w in
      let w := emits (map (fun g => Connect g (ToContext c)) gains) w in
      let w := upd_audioRef (fun _ =>
                 mkAudioRef (Some c) None None None None None
                            (Some gClock) (Some gOther) (Some gBass)
                            (Some gDrums) (Some gVocals) 0) w in
      let w := startMusic c clockBuf w in
      setIsLoading false w.

(** ** Stop *)

(** The three automation calls of the fade-out on one gain; [value g] is what
    [g.gain.value] reads at the call. *)
Definition fadeOutGain (value : nat -> Qc) (now fade : Qc) (g : option nat)
    : list AudioCall :=
  match g with
  | Some n => [CancelScheduledValues n now;
               SetValueAtTime n (value n) now;
               LinearRampToValueAtTime n 0 (now + fade)]
  | None => []
  end.

Definition nullAudioRef : AudioRef :=
  mkAudioRef None None None None None None None None None None None 0.

(** The callback that handleStop hands to [setTimeout]; [c] is the context it
    captured. *)
Definition stopReset (c : nat) (w : App) : App :=
  let a := audioRef w in
  let w := emits (flat_map stopSource
                    [clockSrc a; otherSrc a; bassSrc a; drumsSrc a; vocalsSrc a]) w in
  let w := emit (CtxClose c) w in
  let w := upd_stateRef (set_isLooping true) w in
  let w := upd_stateRef (set_vocalActive false) w in
  let w := upd_stateRef (set_gauge 0) w in
  let w := upd_stateRef (set_visualGauge 0) w in
  let w := setIsReady false w in
  let w := setStage Idle w in
  let w := setStatusText "DISCONNECTED" w in
  let w := setIsPaused false w in
  let w := setIsLoading false w in
  upd_audioRef (fun _ => nullAudioRef) w.

Definition handleStop (value : nat -> Qc) (w : App) : App :=
  let a := audioRef w in
  match ctx a, gainClock a with
  | Some c, Some _ =>
      let now := currentTime (host w) in
      let fade := CONFIG.fadeOutTime in
      let w := emits (flat_map (fadeOutGain value now fade)
                        [gainClock a; gainOther a; gainBass a; gainDrums a; gainVocals a]) w in
      setTimeout (StopReset c) (fade * num 1000) w
  | _, _ => w
  end.

(** ** The per-frame tick *)

Definition setTarget (g : option nat) (target now : Qc) : list AudioCall :=
  match g with
  | Some n => [SetTargetAtTime n target now (num 0.05)]
  | None => []
  end.

(** [gameLoop], without the painting of the wave paths and bubbles (the
    renderer is external).  Returns the state after the call; the calls it
    makes on the gains are appended to the trace. *)
Definition gameLoop (w : App) : App :=
  let a := audioRef w in
  (* Input Logic *)
  let w := upd_stateRef (set_gauge (gaugeInput (stateRef w))) w in
  let gauge := gauge (stateRef w) in
  let '(visualLevel, w) :=
    match ctx a, gainClock a with
    | Some c, Some gc =>
        if isLooping (stateRef w) then
          let w := if Qleb (num 100) gauge then releaseLoop w else w in
          let w := emits (setTarget (Some gc) (gauge / num 100) (currentTime (host w))) w in
          (gauge / num 100, w)
        else if negb (vocalActive (stateRef w)) then
          let w := emits (setTarget (Some gc) (num 1.0) (currentTime (host w))) w in
          (num 1.0, w)
        else
          let now := currentTime (host w) in
          let w := emits (setTarget (Some gc) (num 1.0) now) w in
          let '(bassVol, drumVol, vocalVol) := stemVolumes gauge in
          let w := emits (setTarget (gainBass a) bassVol now) w in
          let w := emits (setTarget (gainDrums a) drumVol now) w in
          let w := emits (setTarget (gainVocals a) vocalVol now) w in
          (gauge / num 100, w)
    | _, _ => (0, w)
    end in
  let w := upd_stateRef (fun s =>
             set_visualGauge (visualGauge s + (visualLevel - visualGauge s) * num 0.1) s) w in
  requestAnimationFrame w.

(** The key listeners. *)
Definition isInputKey (key : string) : bool :=
  existsb (String.eqb key) CONFIG.inputKeys.

Definition handleDown (key : string) (w : App) : App :=
  if isInputKey key then upd_stateRef (set_isLeaning true) w else w.

Definition handleUp (key : string) (w : App) : App :=
  if isInputKey key then upd_stateRef (set_isLeaning false) w else w.

(** ** The event loop *)

(** What the host can make happen.  Every event runs to completion before
    the next one starts (one JavaScript thread). *)
Inductive Event :=
| EvTick                                   (* an animation frame: gameLoop *)
| EvKeyDown (key : string)
| EvKeyUp (key : string)
| EvElapse (dWallMs dAudio : Qc)            (* time passes on both clocks *)
| EvTimer (i : nat)                        (* the i-th pending timer fires *)
| EvConnect (clockBuf : AudioBuffer) (selectedBuffers : MusicBuffers) (t0 : Qc)
| EvStop (value : nat -> Qc)
| EvLoaded (folder : string) (buffers : MusicBuffers).
                                           (* a background load completes *)

Definition runTimer (t : TimerAction) (w : App) : App :=
  match t with
  | ActivateMix => activateMix w
  | StopReset c => stopReset c w
  end.

Definition removeTimer (i : nat) (w : App) : App :=
  upd_host (fun h => mkHost (wall h) (currentTime h) (delete i (timers h))
                            (calls h) (nextId h) (rafActive h)) w.

(** A timer fires no earlier than its due time, once. *)
Definition fireTimer (i : nat) (w : App) : App :=
  match timers (host w) !! i with
  | Some t =>
      if Qleb (due t) (wall (host w)) then runTimer (action t) (removeTimer i w)
      else w
  | None => w
  end.

Definition elapse (dWallMs dAudio : Qc) (w : App) : App :=
  if Qleb 0 dWallMs && Qleb 0 dAudio then
    upd_host (fun h => mkHost (wall h + dWallMs) (currentTime h + dAudio)
                              (timers h) (calls h) (nextId h) (rafActive h)) w
  else w.

Definition step (e : Event) (w : App) : App :=
  match e with
  | EvTick => if rafActive (host w) then gameLoop w else w
  | EvKeyDown k => handleDown k w
  | EvKeyUp k => handleUp k w
  | EvElapse dw da => elapse dw da w
  | EvTimer i => fireTimer i w
  | EvConnect clockBuf selectedBuffers t0 =>
      if Qleb 0 t0 then initAudio clockBuf selectedBuffers t0 w else w
  | EvStop value => handleStop value w
  | EvLoaded folder buffers =>
      set_musicBuffersRef (<[folder := buffers]> (musicBuffersRef w)) w
  end.

Definition run (es : list Event) (w : App) : App :=
  fold_left (fun w e => step e w) es w.

(** The component as mounted, with the song [sel] selected from the music
    list. *)
Definition mounted (sel : string) : App :=
  mkApp (mkUi false false "DISCONNECTED" Idle "" false sel)
        nullAudioRef None ∅ sel
        (mkStateRef 0 0 true false false)
        (mkHost 0 0 [] [] 0%nat false).

(** ** The earlier variant of the component

    The repository carries a second, earlier version of the same component.
    Its gauge update is the same code; its mixer bands, its release timing and
    the gains it drives in the music-control branch differ and are embedded
    here. *)

Module Legacy.

(** [gameLoop], "Input Logic". *)
Definition gaugeInput (s : StateRef) : Qc :=
  let currentGaugeSpeed :=
    if vocalActive s then CONFIG.vocalGaugeSpeed else CONFIG.gaugeSpeed in
  let g := if isLeaning s then gauge s + currentGaugeSpeed
           else gauge s - CONFIG.decayRate in
  let g := if Qltb g 0 then 0 else g in
  let g := if Qltb (num 100) g then num 100 else g in
  g.

(** [gameLoop], "[Stage 2] Music Control Mode": the three bands. *)
Definition bassVol (gauge : Qc) : Qc :=
  if Qltb 0 gauge && Qleb gauge (num 20) then gauge / num 20
  else if Qltb (num 20) gauge then num 1.0
  else 0.

Definition drumsVol (gauge : Qc) : Qc :=
  if Qltb (num 20) gauge && Qleb gauge (num 40) then (gauge - num 20) / num 20
  else if Qltb (num 40) gauge then num 1.0
  else 0.

Definition vocalsVol (gauge : Qc) : Qc :=
  if Qltb (num 40) gauge && Qleb gauge (num 100) then (gauge - num 40) / num 60
  else 0.

(** The calls of the music-control branch of [gameLoop] on the gains that
    exist, at context time [now]. *)
Definition musicControl (a : AudioRef) (gauge now : Qc) : list AudioCall :=
  setTarget (gainClock a) (num 1.0) now
  ++ setTarget (gainOther a) (num 1.0) now
  ++ setTarget (gainBass a) (bassVol gauge) now
  ++ setTarget (gainDrums a) (drumsVol gauge) now
  ++ setTarget (gainVocals a) (vocalsVol gauge) now.

(** The instant [releaseLoop] passes to scheduleMusicAt17s: seventeen seconds
    after the clock started, or now when that has passed. *)
Definition musicStartAt (startTime now : Qc) : Qc :=
  let elapsed := now - startTime in
  let timeUntil17s := CONFIG.vocalStartTime - elapsed in
  if Qltb 0 timeUntil17s then now + timeUntil17s else now.

End Legacy.

(** ** The gauge on binary64 numbers

    The input block of [gameLoop] once more, on IEEE-754 double precision
    values, which is what the JavaScript engine computes with. *)

Module Binary64.

#[local] Set Warnings "-inexact-float".

Definition gaugeSpeed : float := 0.15%float.
Definition vocalGaugeSpeed : float := 0.15%float.
Definition decayRate : float := 0.5%float.

Definition gaugeInput (vocalActive isLeaning : bool) (gauge : float) : float :=
  let currentGaugeSpeed := if vocalActive then vocalGaugeSpeed else gaugeSpeed in
  let g := if isLeaning then (gauge + currentGaugeSpeed)%float
           else (gauge - decayRate)%float in
  let g := if PrimFloat.ltb g 0 then 0%float else g in
  let g := if PrimFloat.ltb 100 g then 100%float else g in
  g.

(** The gauge after [n] frames with the input held, outside the mix stage. *)
Fixpoint held (n : nat) (gauge : float) : float :=
  match n with
  | O => gauge
  | S k => held k (gaugeInput false true gauge)
  end.

(** [Math.floor] on a finite double: the value [m * 2^e] of the number is
    floored as an integer and converted back (exactly, below 2^53);
    infinities and NaN are returned as they are. *)
Definition floorZ (x : float) : option Z :=
  match Prim2SF x with
  | S754_zero _ => Some 0%Z
  | S754_finite s m e =>
      let v := if s then Z.neg m else Z.pos m in
      Some (if (0 <=? e)%Z then v * 2 ^ e else v / 2 ^ (- e))%Z
  | _ => None
  end.

Definition of_Z (z : Z) : float :=
  if (z <? 0)%Z then (- PrimFloat.of_uint63 (Stdlib.Numbers.Cyclic.Int63.Uint63.of_Z (- z)))%float
  else PrimFloat.of_uint63 (Stdlib.Numbers.Cyclic.Int63.Uint63.of_Z z).

Definition Math_floor (x : float) : float :=
  match floorZ x with Some z => of_Z z | None => x end.

(** [currentLoopEnd] of releaseLoop, as the engine computes it. *)
Definition currentLoopEnd (startTime now : float) : float :=
  let elapsed := (now - startTime)%float in
  (startTime + (Math_floor (elapsed / 7.0) + 1) * 7.0)%float.

(** The delay that scheduleMusicAt17s hands to [setTimeout], in seconds, for
    a release at [now]. *)
Definition mixDelay (startTime now : float) : float :=
  let musicStartAt := (currentLoopEnd startTime now + 17.0)%float in
  let d := (musicStartAt - now)%float in
  if PrimFloat.ltb 0 d then d else 0%float.

(** The specification's release instant, with [ceil], on the same numbers. *)
Definition Math_ceil (x : float) : float := (- Math_floor (- x))%float.



End Binary64.

(** ** The specification's formulas

    Written from the words of the specification, to be compared with the
    code above. *)

Module Spec.

Definition Math_min (x y : Qc) : Qc := if Qleb x y then x else y.

(** [clamp(x, lo, hi)]. *)
Definition clamp (x lo hi : Qc) : Qc := Math_max lo (Math_min x hi).

(** [ceil]. *)
Definition Math_ceil (x : Qc) : Qc := num (inject_Z (Qceiling x)).

(** "gauge += inputActive ? chargeRate : -decayRate, then clamp to [0,100]",
    with "chargeRate = vocalGaugeSpeed when stage==MixActive, else gaugeSpeed". *)
Definition tick (inputActive mixActive : bool) (gauge : Qc) : Qc :=
  let chargeRate := if mixActive then CONFIG.vocalGaugeSpeed else CONFIG.gaugeSpeed in
  clamp (gauge + (if inputActive then chargeRate else - CONFIG.decayRate)) 0 (num 100).


(** "Bass: clamp(gauge/20, 0, 1); Drums: clamp((gauge-20)/20, 0, 1);
     Vocals: clamp((gauge-40)/60, 0, 1)". *)
Definition bass (gauge : Qc) : Qc := clamp (gauge / num 20) 0 1.
Definition drums (gauge : Qc) : Qc := clamp ((gauge - num 20) / num 20) 0 1.
Definition vocals (gauge : Qc) : Qc := clamp ((gauge - num 40) / num 60) 0 1.

End Spec.

(** ** States used in the proofs *)

(** A session that charged while looping: [w] with the gauge at [g], the
    visual gauge at [v], the input held, and the calls [cs] made since. *)
Definition charged (w : App) (g v : Qc) (cs : list AudioCall) : App :=
  mkApp (ui w) (audioRef w) (buffersRef w) (musicBuffersRef w) (selectedMusicRef w)
        (mkStateRef g v true (vocalActive (stateRef w)) true)
        (mkHost (wall (host w)) (currentTime (host w)) (timers (host w))
                (calls (host w) ++ cs) (nextId (host w)) true).

(** A decoded clock and two songs for the worked examples: one with every
    stem, one whose accompaniment ("other") failed to load. *)
Definition clock48k : AudioBuffer := mkAudioBuffer 0 (num 48000).
Definition fullSong : MusicBuffers :=
  mkMusicBuffers (Some (mkAudioBuffer 1 (num 44100))) (Some (mkAudioBuffer 2 (num 44100)))
                 (Some (mkAudioBuffer 3 (num 44100))) (Some (mkAudioBuffer 4 (num 44100))).
Definition noOtherSong : MusicBuffers :=
  mkMusicBuffers None (Some (mkAudioBuffer 2 (num 44100)))
                 (Some (mkAudioBuffer 3 (num 44100))) (Some (mkAudioBuffer 4 (num 44100))).

(** A number of frames as a JavaScript number. *)
Definition frames (n : nat) : Qc := num (inject_Z (Z.of_nat n)).

(** The calls of the first [n] frames of a hold from an empty gauge, in a
    looping session whose clock gain is [gc], at context time [now]. *)
Definition heldCalls (gc : nat) (now : Qc) (n : nat) : list AudioCall :=
  map (fun k => SetTargetAtTime gc (frames k * num 0.15 / num 100) now (num 0.05))
      (seq 1 n).

(** The instants at which sources were started, in call order. *)
Definition startTimes (cs : list AudioCall) : list (nat * Q) :=
  flat_map (fun c => match c with Start n t => [(n, this t)] | _ => [] end) cs.

(** The pending timers: due time (ms) and callback. *)
Definition pendingTimers (w : App) : list (Q * TimerAction) :=
  map (fun t => (this (due t), action t)) (timers (host w)).

(** A mix-activation callback is waiting to fire. *)
Definition isMixTimer (t : Timer) : bool :=
  match action t with ActivateMix => true | _ => false end.

Definition pendingMix (w : App) : bool := existsb isMixTimer (timers (host w)).

(** The frame [e] releases the loop in [w]: a tick of a live, looping session
    whose gauge reaches 100. *)
Definition saturates (e : Event) (w : App) : bool :=
  match e, ctx (audioRef w), gainClock (audioRef w) with
  | EvTick, Some _, Some _ =>
      rafActive (host w) && isLooping (stateRef w)
      && Qleb (num 100) (gaugeInput (stateRef w))
  | _, _, _ => false
  end.

(** No event of the run [es] from [w] releases the loop. *)
Fixpoint neverSaturates (es : list Event) (w : App) : bool :=
  match es with
  | [] => true
  | e :: es => negb (saturates e w) && neverSaturates es (step e w)
  end.

(** The source [src] of a stem is bound and started as the calls [cs] say:
    a loaded buffer has a source that was given the buffer and started at
    [m]; a missing buffer has none. *)
Definition stemStarted (src : option nat) (buf : option AudioBuffer) (m : Qc)
    (cs : list AudioCall) : Prop :=
  match buf, src with
  | Some b, Some n => In (SetBuffer n b) cs /\ In (Start n m) cs
  | None, None => True
  | _, _ => False
  end.

(** The selected song has its accompaniment buffered. *)
Definition songLoaded (w : App) : bool :=
  match musicBuffersRef w !! currentSelected w with
  | Some currentMusic =>
      match other currentMusic with Some _ => true | None => false end
  | None => false
  end.

(** [now] is a whole number of loop lengths after [startTime]. *)
Definition onLoopBoundary (startTime now : Qc) : Prop :=
  exists k : Z, now - startTime = num (inject_Z k) * CONFIG.loopEndTime.

(** A freshly connected session (context 0, clock gain 1) whose loop is
    running, with the input held and the gauge empty. *)
Definition ready (w : App) : Prop :=
  ctx (audioRef w) = Some 0%nat /\ gainClock (audioRef w) = Some 1%nat
  /\ rafActive (host w) = true /\ isLooping (stateRef w) = true
  /\ isLeaning (stateRef w) = true /\ gauge (stateRef w) = 0.

(** Frames, key events, the passing of time and completed loads: the events
    of a session that is neither stopped nor reconnected and in which no timer
    fires. *)
Definition quiet (e : Event) : bool :=
  match e with
  | EvTick | EvKeyDown _ | EvKeyUp _ | EvElapse _ _ | EvLoaded _ _ => true
  | EvTimer _ | EvConnect _ _ _ | EvStop _ => false
  end.

(** However long the session goes on quietly from [w], no timer is set, no
    source is started and the mix does not become active. *)
Definition mixNeverStarts (w : App) : Prop :=
  forall es, forallb quiet es = true ->
    let w' := run es w in
    timers (host w') = timers (host w)
    /\ startTimes (calls (host w')) = startTimes (calls (host w))
    /\ vocalActive (stateRef w') = vocalActive (stateRef w)
    /\ stage (ui w') = stage (ui w).

(** ** Worked sessions

    The song "Misty" is selected; the listener connects (the loads complete
    with the new context's clock at 0), holds the space bar, and [secs]
    seconds later the frames of the hold are run.  Frame 667 saturates the
    gauge and releases the loop.  With [secs = 11] the loop iteration playing
    at the release ends at 14, so the mix is due at 31 on the context's clock,
    twenty seconds ahead. *)

Definition connectAndHold (song : MusicBuffers) (secs : Q) : list Event :=
  [EvConnect clock48k song 0; EvKeyDown " ";
   EvElapse (num (secs * 1000)) (num secs)].

Definition holdUntilRelease (song : MusicBuffers) (secs : Q) : list Event :=
  connectAndHold song secs ++ repeat EvTick 667.

(** ... and the twenty seconds pass and the timer fires. *)
Definition untilMix : list Event :=
  holdUntilRelease fullSong 11 ++ [EvElapse (num 20000) (num 20); EvTimer 0].

(** ... or the listener stops right after the release; the stop's timer fires
    ten seconds later, and the release's timer ten seconds after that. *)
Definition stopAfterRelease : list Event :=
  holdUntilRelease fullSong 11
  ++ [EvKeyUp " "; EvStop (fun _ => 1);
      EvElapse (num 10000) (num 10); EvTimer 1].

Definition stopThenStaleTimer : list Event :=
  stopAfterRelease ++ [EvElapse (num 10000) (num 10); EvTimer 0].

(** ... with the stems of "Misty" missing the accompaniment when the loop is
    released, and arriving complete afterwards. *)
Definition releaseThenLoaded : list Event :=
  holdUntilRelease noOtherSong 11 ++ [EvLoaded "Misty" fullSong].

(** ** Shapes of the audio references *)

(** The context, the clock source and the five gains are all there. *)
Definition connected (a : AudioRef) : Prop :=
  is_Some (ctx a) /\ is_Some (clockSrc a) /\ is_Some (gainClock a)
  /\ is_Some (gainOther a) /\ is_Some (gainBass a) /\ is_Some (gainDrums a)
  /\ is_Some (gainVocals a).

(** The number of mix-activation callbacks waiting to fire. *)
Definition mixTimers (w : App) : nat :=
  length (List.filter isMixTimer (timers (host w))).

(** ** The asset loader *)

Section Loader.

(** The outcome of [loadFile(ctx, url)]: the decoded buffer, or nothing when
    the fetch or the decoding fails and the promise rejects. *)
Variable loadFile : string -> option AudioBuffer.

Definition extensions : list string := [".wav"; ".flac"; ".mp3"]%string.

Definition assetUrl (folderName filename ext : string) : string :=
  "/" +:+ folderName +:+ "/" +:+ filename +:+ ext.

(** [tryLoad]: every extension is tried, a rejected load counts as null, and
    the first non-null result, in the order of [extensions], is returned. *)
Definition tryLoad (folderName filename : string) : option AudioBuffer :=
  let results := map (fun ext => loadFile (assetUrl folderName filename ext))
                     extensions in
  match List.find (fun r => match r with Some _ => true | None => false end) results with
  | Some r => r
  | None => None
  end.

Definition loadMusicFolder (folderName : string) : MusicBuffers :=
  mkMusicBuffers (tryLoad folderName "other") (tryLoad folderName "bass")
                 (tryLoad folderName "drums") (tryLoad folderName "vocals").

End Loader.

(** ** Pause and resume *)

(** What [ctx.state] reads. *)
Inductive ContextState := Running | Suspended | Closed.

(** [handlePause], given the state of the context at the click; returns the
    state the context is left in once [suspend()] or [resume()] has
    settled. *)
Definition handlePause (state : ContextState) (w : App) : ContextState * App :=
  match ctx (audioRef w) with
  | None => (state, w)
  | Some _ =>
      match state with
      | Running =>
          let w := setIsPaused true w in
          (Suspended, setStatusText "PAUSED" w)
      | Suspended =>
          let w := setIsPaused false w in
          (Running,
           if vocalActive (stateRef w) then setStatusText "MUSIC ACTIVE" w
           else if negb (isLooping (stateRef w)) then setStatusText "SYNC COMPLETE..." w
           else setStatusText "SYNC TIME (HOLD SPACE)" w)
      | Closed => (Closed, w)
      end
  end.

(** ** Switching track

    The click handler of an entry of the track list, with its await
    collapsed: the stems that loadMusicFolder returns for the new song are an
    input.  The timer it sets is returned with the state. *)

(** The callbacks of the handler; each captured the context at the click
    and, in the mix stage, the four stem gains and the selection shown. *)
Inductive SwitchAction :=
| RestartStems (c gO gB gD gV : nat) (shown : string)
| RestartClock (c : nat).

Record SwitchTimer := mkSwitchTimer { switchDue : Qc; switchAction : SwitchAction }.

(** [setSelectedMusic(newMusic); selectedMusicRef.current = newMusic]. *)
Definition selectMusic (newMusic : string) (w : App) : App :=
  mkApp (mkUi (isReady (ui w)) (isLoading (ui w)) (statusText (ui w)) (stage (ui w))
              (errorMessage (ui w)) (isPaused (ui w)) newMusic)
        (audioRef w) (buffersRef w) (musicBuffersRef w) newMusic (stateRef w) (host w).

Definition switchTrack (loaded : MusicBuffers) (value : nat -> Qc)
    (newMusic : string) (w : App) : App * option SwitchTimer :=
  if isLoading (ui w) then (w, None)
  else if String.eqb newMusic (selectedMusic (ui w)) then (w, None)
  else
    let stage := stage (ui w) in
    let shown := selectedMusic (ui w) in
    let buffered :=
      match musicBuffersRef w !! newMusic with
      | Some m => match other m with Some _ => true | None => false end
      | None => false
      end in
    let w :=
      if buffered then w
      else match ctx (audioRef w) with
           | Some _ =>
               let w := setIsLoading true w in
               let w := setStatusText ("LOADING " +:+ newMusic +:+ "...") w in
               let w := set_musicBuffersRef
                          (<[newMusic := loaded]> (musicBuffersRef w)) w in
               setIsLoading false w
           | None => w
           end in
    let w := selectMusic newMusic w in
    let a := audioRef w in
    match stage with
    | MixActive =>
        match ctx a, gainOther a, gainBass a, gainDrums a, gainVocals a with
        | Some c, Some gO, Some gB, Some gD, Some gV =>
            let now := currentTime (host w) in
            let fade := num 1.0 in
            let w := emits (flat_map (fadeOutGain value now fade)
                              [Some gO; Some gB; Some gD; Some gV]) w in
            (w, Some (mkSwitchTimer (wall (host w) + fade * num 1000)
                                    (RestartStems c gO gB gD gV shown)))
        | _, _, _, _, _ => (w, None)
        end
    | _ =>
        match ctx a, gainClock a with
        | Some c, Some _ =>
            let now := currentTime (host w) in
            let fade := CONFIG.fadeOutTime in
            let w := emits (flat_map (fadeOutGain value now fade)
                              [gainClock a; gainOther a; gainBass a; gainDrums a;
                               gainVocals a]) w in
            (w, Some (mkSwitchTimer (wall (host w) + fade * num 1000)
                                    (RestartClock c)))
        | _, _ => (w, None)
        end
    end.

(** The callback of a switch in the mix stage. *)
Definition restartStems (c gO gB gD gV : nat) (shown : string) (w : App) : App :=
  let a := audioRef w in
  let w := emits (flat_map stopSource
                    [otherSrc a; bassSrc a; drumsSrc a; vocalsSrc a]) w in
  let currentSelected :=
    if String.eqb (selectedMusicRef w) "" then shown else selectedMusicRef w in
  match musicBuffersRef w !! currentSelected with
  | None => w
  | Some currentMusic =>
      match other currentMusic with
      | None => w
      | Some _ =>
          let now := currentTime (host w) in
          let '(o, w) := createSrc c now (other currentMusic) gO w in
          let w := upd_audioRef (set_otherSrc o) w in
          let '(b, w) := createSrc c now (bass currentMusic) gB w in
          let w := upd_audioRef (set_bassSrc b) w in
          let '(d, w) := createSrc c now (drums currentMusic) gD w in
          let w := upd_audioRef (set_drumsSrc d) w in
          let '(v, w) := createSrc c now (vocals currentMusic) gV w in
          let w := upd_audioRef (set_vocalsSrc v) w in
          emit (SetValueAtTime gO (num 1.0) now) w
      end
  end.

(** The callback of a switch before the mix stage.  It runs startMusic with
    the context [c] it captured at the click and the clock gain held now.
    The gains held are those of the context held, so when that is no longer
    [c] (the session was reset and connected again since the click), the new
    source belongs to another context than the gain:
    [clockSrc.connect(gainClock)] throws, and the rest of startMusic does not
    run. *)
Definition startMusicAcross (c : nat) (clockBuf : AudioBuffer) (w : App) : App :=
  match gainClock (audioRef w) with
  | None => w
  | Some gc =>
      let w := emits (stopSource (clockSrc (audioRef w))) w in
      let sampleRate := sampleRate clockBuf in
      let loopStartSample := 0 in
      let loopEndSample := Math_floor (CONFIG.loopEndTime * sampleRate) in
      let '(src, w) := fresh w in
      emits [CreateBufferSource c src; SetBuffer src clockBuf;
             SetLoop src true;
             SetLoopStart src (loopStartSample / sampleRate);
             SetLoopEnd src (loopEndSample / sampleRate);
             Connect src (ToNode gc)] w
  end.

Definition sameContext (c : nat) (a : AudioRef) : bool :=
  match ctx a with
  | Some k => Nat.eqb k c
  | None => false
  end.

Definition restartClock (c : nat) (w : App) : App :=
  let a := audioRef w in
  let w := emits (flat_map stopSource
                    [clockSrc a; otherSrc a; bassSrc a; drumsSrc a; vocalsSrc a]) w in
  match buffersRef w with
  | Some clock =>
      if sameContext c (audioRef w) then startMusic c clock w
      else startMusicAcross c clock w
  | None => w
  end.

Definition runSwitch (t : SwitchAction) (w : App) : App :=
  match t with
  | RestartStems c gO gB gD gV shown => restartStems c gO gB gD gV shown w
  | RestartClock c => restartClock c w
  end.

(** ** Sessions with the track list and the pause button

    The component with every control it renders: the events of [step], a
    click on an entry of the track list, a timer of such a click coming due,
    and a click on the pause button.  The timers of the track list are kept
    beside the state; like the others they fire no earlier than due, once,
    and nothing removes them before. *)

Record Session := mkSession { component : App; switchTimers : list SwitchTimer }.

Inductive Action :=
| Plain (e : Event)
| SelectTrack (loaded : MusicBuffers) (value : nat -> Qc) (newMusic : string)
| FireSwitch (i : nat)
| TogglePause (state : ContextState).

Definition act (a : Action) (s : Session) : Session :=
  match a with
  | Plain e => mkSession (step e (component s)) (switchTimers s)
  | SelectTrack loaded value newMusic =>
      let '(w, t) := switchTrack loaded value newMusic (component s) in
      mkSession w (switchTimers s ++ match t with Some t => [t] | None => [] end)
  | FireSwitch i =>
      match switchTimers s !! i with
      | Some t =>
          if Qleb (switchDue t) (wall (host (component s)))
          then mkSession (runSwitch (switchAction t) (component s))
                         (delete i (switchTimers s))
          else s
      | None => s
      end
  | TogglePause state => mkSession (snd (handlePause state (component s))) (switchTimers s)
  end.

Definition session (acts : list Action) (s : Session) : Session :=
  fold_left (fun s a => act a s) acts s.

Definition opened (sel : string) : Session := mkSession (mounted sel) [].

(** Neither the context, the clock source nor any gain is held. *)
Definition disconnected (a : AudioRef) : Prop :=
  ctx a = None /\ clockSrc a = None /\ gainClock a = None
  /\ gainOther a = None /\ gainBass a = None /\ gainDrums a = None
  /\ gainVocals a = None.

(** ** Predicates of the further properties *)

(** The key state after the events [es], from [held]: the last input-key
    event decides. *)
Fixpoint lastInputKey (es : list Event) (held : bool) : bool :=
  match es with
  | [] => held
  | EvKeyDown key :: es => lastInputKey es (if isInputKey key then true else held)
  | EvKeyUp key :: es => lastInputKey es (if isInputKey key then false else held)
  | _ :: es => lastInputKey es held
  end.

(** A level the component asks of a gain: smoothing targets lie in [0,1] with
    time constant 0.05, initial values and ramp ends are 0. *)
Definition levelInRange (c : AudioCall) : Prop :=
  match c with
  | SetTargetAtTime _ target _ tc => 0 <= target /\ target <= 1 /\ tc = num 0.05
  | SetGainValue _ v => v = 0
  | LinearRampToValueAtTime _ v _ => v = 0
  | _ => True
  end.

Definition isConnect (e : Event) : bool :=
  match e with EvConnect _ _ _ => true | _ => false end.

(** Frames, key events and the passing of time. *)
Definition frameOrInput (e : Event) : bool :=
  match e with
  | EvTick | EvKeyDown _ | EvKeyUp _ | EvElapse _ _ => true
  | _ => false
  end.

(** * Proofs *)

(** ** Arithmetic on JavaScript numbers *)

Lemma Qc_eq_Qeq (x y : Qc) : x = y <-> (this x == this y)%Q.
Proof. split; [intros ->; reflexivity | apply Qc_is_canon]. Qed.

Lemma Qleb_le (x y : Qc) : Qleb x y = true <-> x <= y.
Proof. unfold Qleb, Qcle. apply Qle_bool_iff. Qed.

Lemma Qleb_gt (x y : Qc) : Qleb x y = false <-> y < x.
Proof.
  unfold Qleb, Qclt. split.
  - intros H. apply Qnot_le_lt. intros L. apply Qle_bool_iff in L. congruence.
  - intros H. destruct (Qle_bool x y) eqn:E; [|reflexivity].
    apply Qle_bool_iff in E. exfalso. exact (Qlt_not_le _ _ H E).
Qed.

Lemma Qltb_lt (x y : Qc) : Qltb x y = true <-> x < y.
Proof. unfold Qltb. rewrite negb_true_iff. apply Qleb_gt. Qed.

Lemma Qltb_ge (x y : Qc) : Qltb x y = false <-> y <= x.
Proof. unfold Qltb. rewrite negb_false_iff. apply Qleb_le. Qed.

(** Goals on [Qc] are sent to [Q], where [lra] decides them. *)
Ltac qc2q :=
  unfold CONFIG.loopEndTime, CONFIG.vocalStartTime, CONFIG.gaugeSpeed,
    CONFIG.vocalGaugeSpeed, CONFIG.decayRate, CONFIG.fadeOutTime, frames, num in *;
  repeat match goal with
  | H : @eq Qc _ _ |- _ => apply Qc_eq_Qeq in H
  | |- @eq Qc _ _ => apply Qc_is_canon
  | H : ~ @eq Qc _ _ |- _ => rewrite Qc_eq_Qeq in H
  | |- ~ @eq Qc _ _ => rewrite Qc_eq_Qeq
  end;
  unfold Qcle, Qclt, Qcdiv, Qcminus, Qcinv, Qcopp, Qcplus, Qcmult, Q2Qc in *;
  cbn [this] in *;
  repeat match goal with
  | |- context [Qred ?q] => setoid_rewrite (Qred_correct q)
  | H : context [Qred ?q] |- _ => setoid_rewrite (Qred_correct q) in H
  end;
  repeat match goal with
  | |- context [Qinv (?a # ?b)] =>
      let v := eval compute in (Qinv (a # b)) in change (Qinv (a # b)) with v
  | H : context [Qinv (?a # ?b)] |- _ =>
      let v := eval compute in (Qinv (a # b)) in change (Qinv (a # b)) with v in H
  end.

Ltac qlra := qc2q; lra.

(** Case analysis on every comparison of the goal, innermost first. *)
Ltac no_cmp t :=
  lazymatch t with
  | context [Qleb _ _] => fail
  | context [Qltb _ _] => fail
  | _ => idtac
  end.

Ltac case_cmp :=
  repeat match goal with
  | |- context [Qleb ?x ?y] =>
      no_cmp x; no_cmp y;
      let E := fresh "E" in destruct (Qleb x y) eqn:E;
      [apply Qleb_le in E | apply Qleb_gt in E]
  | |- context [Qltb ?x ?y] =>
      no_cmp x; no_cmp y;
      let E := fresh "E" in destruct (Qltb x y) eqn:E;
      [apply Qltb_lt in E | apply Qltb_ge in E]
  end.

(** ** The gauge engine *)

Lemma gaugeInput_bounds (s : StateRef) :
  0 <= gaugeInput s /\ gaugeInput s <= num 100.
Proof.
  unfold gaugeInput.
  destruct (vocalActive s), (isLeaning s); cbn zeta; case_cmp; split; qlra.
Qed.

Lemma gaugeInput_spec (s : StateRef) :
  gaugeInput s = Spec.tick (isLeaning s) (vocalActive s) (gauge s).
Proof.
  unfold gaugeInput, Spec.tick, Spec.clamp, Spec.Math_min, Math_max.
  destruct (vocalActive s), (isLeaning s); cbn zeta; case_cmp;
    try reflexivity; try (exfalso; qlra); qlra.
Qed.

Lemma gaugeInput_legacy (s : StateRef) : Legacy.gaugeInput s = gaugeInput s.
Proof. reflexivity. Qed.

Lemma gaugeInput_charge (s : StateRef) :
  isLeaning s = true -> 0 <= gauge s -> gauge s + num 0.15 <= num 100 ->
  gaugeInput s = gauge s + num 0.15.
Proof.
  intros L H0 H1. unfold gaugeInput. rewrite L.
  change CONFIG.vocalGaugeSpeed with (num 0.15).
  change CONFIG.gaugeSpeed with (num 0.15).
  destruct (vocalActive s); cbn zeta; case_cmp; try reflexivity; exfalso; qlra.
Qed.

(** ** Projections of the operations *)

(** Evaluate the component's own functions and the record projections,
    leaving arithmetic, strings, maps and lists as they are. *)
Ltac red_app :=
  cbv beta iota zeta delta
    [gameLoop releaseLoop scheduleMusicAt17s createSrc activateMix startMusic
     initAudio stopReset handleStop fireTimer runTimer removeTimer elapse step
     handleDown handleUp emit emits fresh setTimeout requestAnimationFrame
     setStatusText setStage setErrorMessage setIsReady setIsPaused setIsLoading
     set_currentTime upd_ui upd_audioRef upd_stateRef upd_host set_buffersRef
     set_musicBuffersRef set_gauge set_visualGauge set_isLooping set_vocalActive
     set_isLeaning set_isReady set_isLoading set_statusText set_stage
     set_errorMessage set_isPaused set_clockSrc set_otherSrc set_bassSrc
     set_drumsSrc set_vocalsSrc set_startTime setTarget stopSource nullAudioRef
     currentSelected charged pendingMix isMixTimer saturates
     ui audioRef buffersRef musicBuffersRef selectedMusicRef stateRef host
     isReady isLoading statusText stage errorMessage isPaused selectedMusic
     ctx clockSrc otherSrc bassSrc drumsSrc vocalsSrc gainClock gainOther
     gainBass gainDrums gainVocals startTime
     gauge visualGauge isLooping vocalActive isLeaning
     wall currentTime timers calls nextId rafActive
     other bass drums vocals due action fst snd negb andb orb] in *.

(** Split the state into its fields. *)
Ltac split_app w :=
  destruct w as [[? ? ? ? ? ? ?] [? ? ? ? ? ? ? ? ? ? ? ?] ? ? ? [? ? ? ? ?]
                 [? ? ? ? ? ?]].

(** Decide every branch of the goal, innermost first. *)
Ltac branches :=
  repeat (red_app;
          match goal with
          | |- context [match ?x with _ => _ end] =>
              lazymatch x with
              | context [match _ with _ => _ end] => fail
              | _ => destruct x eqn:?
              end
          end);
  red_app.

Lemma scheduleMusicAt17s_stateRef c m w :
  stateRef (scheduleMusicAt17s c m w) = stateRef w.
Proof. split_app w. branches; reflexivity. Qed.

Lemma releaseLoop_gauge w : gauge (stateRef (releaseLoop w)) = gauge (stateRef w).
Proof. split_app w. branches; reflexivity. Qed.

Lemma gameLoop_gauge w : gauge (stateRef (gameLoop w)) = gaugeInput (stateRef w).
Proof. split_app w. branches; reflexivity. Qed.

Lemma startMusic_stateRef c b w : stateRef (startMusic c b w) = stateRef w.
Proof. split_app w. branches; reflexivity. Qed.

Lemma initAudio_stateRef b sb t0 w : stateRef (initAudio b sb t0 w) = stateRef w.
Proof. split_app w. branches; reflexivity. Qed.

Lemma handleStop_stateRef value w : stateRef (handleStop value w) = stateRef w.
Proof. split_app w. branches; reflexivity. Qed.
(** What one event can do to the gauge: leave it, zero it, or run the input
    block of a frame on it. *)
Lemma step_gauge e w :
  gauge (stateRef (step e w)) = gauge (stateRef w)
  \/ gauge (stateRef (step e w)) = 0
  \/ gauge (stateRef (step e w)) = gaugeInput (stateRef w).
Proof.
  destruct e; cbn [step].
  - destruct (rafActive (host w)); [right; right; apply gameLoop_gauge | now left].
  - left. unfold handleDown. now destruct (isInputKey key).
  - left. unfold handleUp. now destruct (isInputKey key).
  - left. unfold elapse. now destruct (_ && _).
  - unfold fireTimer. destruct (timers (host w) !! i) as [[d []]|];
      [destruct (Qleb _ _) .. |]; auto.
  - left. destruct (Qleb 0 t0); [now rewrite initAudio_stateRef | reflexivity].
  - left. now rewrite handleStop_stateRef.
  - now left.
Qed.

(** A property that the mounted component has and every event keeps holds
    after every run. *)
Lemma run_invariant (P : App -> Prop) :
  (forall e w, P w -> P (step e w)) ->
  forall es w, P w -> P (run es w).
Proof.
  intros Hstep es. induction es as [|e es IH]; intros w Hw; [exact Hw|].
  cbn. apply IH, Hstep, Hw.
Qed.

Lemma run_app es1 es2 w : run (es1 ++ es2) w = run es2 (run es1 w).
Proof. unfold run. apply fold_left_app. Qed.

Lemma run_gauge_bounds es w :
  0 <= gauge (stateRef w) /\ gauge (stateRef w) <= num 100 ->
  0 <= gauge (stateRef (run es w)) /\ gauge (stateRef (run es w)) <= num 100.
Proof.
  apply (run_invariant
           (fun w => 0 <= gauge (stateRef w) /\ gauge (stateRef w) <= num 100)).
  clear. intros e w H.
  destruct (step_gauge e w) as [-> | [-> | ->]];
    [exact H | split; qlra | apply gaugeInput_bounds].
Qed.

(** The gauge under the specification's tick, for a sequence of
    (input active, mix active) pairs. *)
Lemma spec_ticks_bounds (inputs : list (bool * bool)) (g : Qc) :
  0 <= g /\ g <= num 100 ->
  let g' := fold_left (fun g i => Spec.tick (fst i) (snd i) g) inputs g in
  0 <= g' /\ g' <= num 100.
Proof.
  revert g. induction inputs as [|[a m] inputs IH]; intros g H; [exact H|].
  cbn. apply IH.
  pose proof (gaugeInput_bounds (mkStateRef g 0 true m a)) as B.
  rewrite gaugeInput_spec in B. exact B.
Qed.

(** C3.  Every frame updates the gauge unconditionally, by the charge rate of
    the stage when the input is active and by minus the decay rate otherwise,
    then clamps it to [0,100]; so from gauge 0 it stays in [0,100], under the
    specification's tick for every sequence of inputs and stages, and in the
    component after every run of events (both variants share the update). *)
Theorem gauge_stays_in_range :
  (forall w, gauge (stateRef (gameLoop w))
             = Spec.tick (isLeaning (stateRef w)) (vocalActive (stateRef w))
                         (gauge (stateRef w)))
  /\ (forall s, Legacy.gaugeInput s
                = Spec.tick (isLeaning s) (vocalActive s) (gauge s))
  /\ (forall inputs : list (bool * bool),
        let g := fold_left (fun g i => Spec.tick (fst i) (snd i) g) inputs 0 in
        0 <= g /\ g <= num 100)
  /\ (forall es sel,
        let w := run es (mounted sel) in
        0 <= gauge (stateRef w) /\ gauge (stateRef w) <= num 100).
Proof.
  split; [|split; [|split]].
  - intros w. rewrite gameLoop_gauge. apply gaugeInput_spec.
  - intros s. rewrite gaugeInput_legacy. apply gaugeInput_spec.
  - intros inputs. apply spec_ticks_bounds. split; qlra.
  - intros es sel. apply run_gauge_bounds. cbn. split; qlra.
Qed.

(** ** Holding the input from an empty gauge *)

Lemma run_snoc es e w : run (es ++ [e]) w = step e (run es w).
Proof. rewrite run_app. reflexivity. Qed.

Lemma repeat_snoc {A} (a : A) n : repeat a (S n) = repeat a n ++ [a].
Proof. cbn [repeat]. apply repeat_cons. Qed.

Lemma gameLoop_isLeaning w : isLeaning (stateRef (gameLoop w)) = isLeaning (stateRef w).
Proof. split_app w. branches; reflexivity. Qed.

Lemma gameLoop_rafActive w : rafActive (host (gameLoop w)) = true.
Proof. split_app w. branches; reflexivity. Qed.

Lemma frames_S n : frames (S n) = frames n + 1.
Proof.
  unfold frames. rewrite Nat2Z.inj_succ. unfold Z.succ.
  qc2q. rewrite inject_Z_plus. reflexivity.
Qed.

Lemma frames_bounds n m :
  (n <= m)%nat -> 0 <= frames n /\ frames n <= frames m.
Proof.
  intros H. unfold frames, num, Qcle, Q2Qc. cbn [this].
  rewrite !Qred_correct. change 0%Q with (inject_Z 0).
  rewrite <- !Zle_Qle. lia.
Qed.

Lemma gaugeInput_saturate (s : StateRef) :
  isLeaning s = true -> gauge s = num 99.9 -> gaugeInput s = num 100.
Proof.
  intros L G. unfold gaugeInput. rewrite L, G.
  destruct (vocalActive s); vm_compute; reflexivity.
Qed.

(** While the input is held, frame [n <= 666] leaves the gauge at [0.15 n]. *)
Lemma held_gauge n : forall w,
  rafActive (host w) = true -> isLeaning (stateRef w) = true ->
  gauge (stateRef w) = 0 -> (n <= 666)%nat ->
  let w' := run (repeat EvTick n) w in
  rafActive (host w') = true /\ isLeaning (stateRef w') = true
  /\ gauge (stateRef w') = frames n * num 0.15.
Proof.
  induction n as [|n IH]; intros w R L G Hn; cbn zeta.
  - cbn. repeat split; try assumption. rewrite G. qc2q. reflexivity.
  - rewrite repeat_snoc, run_snoc.
    destruct (IH w R L G ltac:(lia)) as (R' & L' & G').
    cbn [step]. rewrite R'. split; [apply gameLoop_rafActive|].
    split; [now rewrite gameLoop_isLeaning|].
    rewrite gameLoop_gauge, gaugeInput_charge, G', frames_S; trivial.
    + qc2q. ring.
    + rewrite G'. destruct (frames_bounds n 666 ltac:(lia)). qlra.
    + rewrite G'. destruct (frames_bounds n 665 ltac:(lia)) as [_ B].
      change (frames 665) with (num 665) in B. qlra.
Qed.

(** C9.  From an empty gauge with the input held on every frame (charge rate
    0.15, no decay), the gauge is below 100 after each of the first 666 frames
    (99.9 after frame 666) and is 100 after frame 667 = ceil(100/0.15) -- in
    exact arithmetic, and also in the binary64 arithmetic of the engine. *)
Theorem gauge_saturates_at_667 (w : App) :
  rafActive (host w) = true -> isLeaning (stateRef w) = true ->
  gauge (stateRef w) = 0 ->
  (forall n, (n < 667)%nat -> gauge (stateRef (run (repeat EvTick n) w)) < num 100)
  /\ gauge (stateRef (run (repeat EvTick 666) w)) = num 99.9
  /\ gauge (stateRef (run (repeat EvTick 667) w)) = num 100
  /\ Spec.Math_ceil (num 100 / CONFIG.gaugeSpeed) = frames 667
  /\ forallb (fun n => PrimFloat.ltb (Binary64.held n 0) 100) (seq 0 667) = true
  /\ Binary64.held 667 0 = 100%float.
Proof.
  intros R L G.
  assert (H666 : gauge (stateRef (run (repeat EvTick 666) w)) = num 99.9).
  { destruct (held_gauge 666 w R L G ltac:(lia)) as (_ & _ & ->).
    apply Qc_is_canon. vm_compute. reflexivity. }
  split; [|split; [exact H666|split; [|split; [|split]]]].
  - intros n Hn.
    destruct (held_gauge n w R L G ltac:(lia)) as (_ & _ & ->).
    destruct (frames_bounds n 666 ltac:(lia)) as [_ B].
    change (frames 666) with (num 666) in B. qlra.
  - rewrite repeat_snoc, run_snoc.
    destruct (held_gauge 666 w R L G ltac:(lia)) as (R' & L' & _).
    cbn [step]. rewrite R', gameLoop_gauge.
    now apply gaugeInput_saturate.
  - apply Qc_is_canon. vm_compute. reflexivity.
  - vm_compute. reflexivity.
  - vm_compute. reflexivity.
Qed.

Lemma gauge_saturates_at_667_witness :
  let w := run (connectAndHold fullSong 11) (mounted "Misty") in
  (rafActive (host w) = true /\ isLeaning (stateRef w) = true
   /\ gauge (stateRef w) = 0)
  /\ gauge (stateRef (run (repeat EvTick 666) w)) = num 99.9
  /\ gauge (stateRef (run (repeat EvTick 667) w)) = num 100.
Proof.
  cbv zeta.
  set (w := run (connectAndHold fullSong 11) (mounted "Misty")).
  assert (H : rafActive (host w) = true /\ isLeaning (stateRef w) = true
              /\ gauge (stateRef w) = 0)
    by (vm_compute; auto).
  split; [exact H|].
  destruct H as (R & L & G).
  destruct (gauge_saturates_at_667 _ R L G) as (_ & H666 & H667 & _).
  split; assumption.
Defined.

(** ** The mixer bands *)

Ltac bands :=
  unfold bassVol, drumVol, vocalVol, stemVolumes, Legacy.bassVol, Legacy.drumsVol,
    Legacy.vocalsVol, Spec.bass, Spec.drums, Spec.vocals, Spec.clamp,
    Spec.Math_min, Math_max in *;
  case_cmp; cbn [fst snd andb]; try (exfalso; qlra).

Lemma stemVolumes_spec (g : Qc) :
  0 <= g -> g <= num 100 ->
  stemVolumes g = (Spec.bass g, Spec.drums g, Spec.vocals g).
Proof.
  intros H0 H1.
  replace (stemVolumes g) with (bassVol g, drumVol g, vocalVol g)
    by (unfold bassVol, drumVol, vocalVol; now destruct (stemVolumes g) as [[? ?] ?]).
  repeat f_equal; bands; qlra.
Qed.

Lemma legacy_bands_spec (g : Qc) :
  0 <= g -> g <= num 100 ->
  (Legacy.bassVol g, Legacy.drumsVol g, Legacy.vocalsVol g)
  = (Spec.bass g, Spec.drums g, Spec.vocals g).
Proof. intros H0 H1. repeat f_equal; bands; qlra. Qed.

Lemma legacy_bands_agree (g : Qc) :
  0 <= g -> g <= num 100 ->
  (Legacy.bassVol g, Legacy.drumsVol g, Legacy.vocalsVol g) = stemVolumes g.
Proof. intros. now rewrite legacy_bands_spec, stemVolumes_spec. Qed.

Lemma bands_range (g : Qc) :
  0 <= g -> g <= num 100 ->
  (0 <= bassVol g /\ bassVol g <= 1)
  /\ (0 <= drumVol g /\ drumVol g <= 1)
  /\ (0 <= vocalVol g /\ vocalVol g <= 1).
Proof. intros H0 H1. repeat split; bands; qlra. Qed.

Lemma bands_layered (g : Qc) :
  0 <= g -> g <= num 100 ->
  vocalVol g <= drumVol g /\ drumVol g <= bassVol g.
Proof. intros H0 H1. split; bands; qlra. Qed.

Lemma bands_monotone (g1 g2 : Qc) :
  0 <= g1 -> g1 <= g2 -> g2 <= num 100 ->
  bassVol g1 <= bassVol g2 /\ drumVol g1 <= drumVol g2 /\ vocalVol g1 <= vocalVol g2.
Proof. intros H0 H1 H2. repeat split; bands; qlra. Qed.

(** [stemVolumes] as the triple of its components. *)
Lemma stemVolumes_eta g : stemVolumes g = (bassVol g, drumVol g, vocalVol g).
Proof. unfold bassVol, drumVol, vocalVol. now destruct (stemVolumes g) as [[? ?] ?]. Qed.

(** C10.  For a gauge in [0,100] the three stem targets lie in [0,1], do not
    decrease when the gauge grows, and are layered: vocals <= drums <= bass.
    The earlier variant computes the same targets. *)
Theorem stem_targets_bounded_monotone_layered (g1 g2 : Qc) :
  0 <= g1 -> g1 <= g2 -> g2 <= num 100 ->
  ((0 <= bassVol g1 /\ bassVol g1 <= 1)
   /\ (0 <= drumVol g1 /\ drumVol g1 <= 1)
   /\ (0 <= vocalVol g1 /\ vocalVol g1 <= 1))
  /\ (bassVol g1 <= bassVol g2 /\ drumVol g1 <= drumVol g2
      /\ vocalVol g1 <= vocalVol g2)
  /\ (vocalVol g1 <= drumVol g1 /\ drumVol g1 <= bassVol g1)
  /\ (Legacy.bassVol g1, Legacy.drumsVol g1, Legacy.vocalsVol g1) = stemVolumes g1.
Proof.
  intros H0 H1 H2.
  assert (g1 <= num 100) by qlra.
  split; [now apply bands_range|].
  split; [now apply bands_monotone|].
  split; [now apply bands_layered|].
  now apply legacy_bands_agree.
Qed.

Lemma stem_targets_bounded_monotone_layered_witness :
  (0 <= num 30 /\ num 30 <= num 70 /\ num 70 <= num 100)
  /\ (bassVol (num 30) <= bassVol (num 70) /\ drumVol (num 30) <= drumVol (num 70)
      /\ vocalVol (num 30) <= vocalVol (num 70))
  /\ (vocalVol (num 30) <= drumVol (num 30) /\ drumVol (num 30) <= bassVol (num 30)).
Proof.
  assert (H : 0 <= num 30 /\ num 30 <= num 70 /\ num 70 <= num 100)
    by (repeat split; qlra).
  split; [exact H|].
  destruct H as (H0 & H1 & H2).
  destruct (stem_targets_bounded_monotone_layered _ _ H0 H1 H2) as (_ & M & L & _).
  split; assumption.
Defined.

(** ** Charging while the clock loops *)

Lemma charged_charged w g v cs g' v' cs' :
  charged (charged w g v cs) g' v' cs' = charged w g' v' (cs ++ cs').
Proof. unfold charged. cbn. now rewrite app_assoc. Qed.

Lemma charged_start w :
  rafActive (host w) = true -> isLooping (stateRef w) = true ->
  isLeaning (stateRef w) = true ->
  w = charged w (gauge (stateRef w)) (visualGauge (stateRef w)) [].
Proof.
  intros R Lp Ln. split_app w. red_app. subst. now rewrite app_nil_r.
Qed.

(** One frame of a live, looping session with the input held and the gauge
    staying below 100: the gauge grows by 0.15 and nothing else happens but
    the smoothing of the clock gain (and of the visual gauge). *)
Lemma charging_tick w c gc g v cs :
  ctx (audioRef w) = Some c -> gainClock (audioRef w) = Some gc ->
  0 <= g -> g + num 0.15 < num 100 ->
  exists v',
    gameLoop (charged w g v cs)
    = charged w (g + num 0.15) v'
        (cs ++ [SetTargetAtTime gc ((g + num 0.15) / num 100)
                  (currentTime (host w)) (num 0.05)]).
Proof.
  intros C G H0 H1. split_app w. red_app. subst.
  assert (E : forall va, gaugeInput (mkStateRef g v true va true) = g + num 0.15).
  { intros va. apply gaugeInput_charge; cbn; trivial. qlra. }
  rewrite E.
  assert (F : Qleb (num 100) (g + num 0.15) = false) by now apply Qleb_gt.
  rewrite F. red_app.
  eexists. rewrite <- app_assoc. reflexivity.
Qed.

Lemma heldCalls_S gc now n :
  heldCalls gc now (S n)
  = heldCalls gc now n
    ++ [SetTargetAtTime gc ((frames n * num 0.15 + num 0.15) / num 100) now (num 0.05)].
Proof.
  unfold heldCalls. rewrite seq_S, map_app. cbn [map Nat.add]. do 3 f_equal.
  rewrite frames_S. qc2q. ring.
Qed.

Lemma charging_run n : forall w c gc,
  ctx (audioRef w) = Some c -> gainClock (audioRef w) = Some gc ->
  rafActive (host w) = true -> isLooping (stateRef w) = true ->
  isLeaning (stateRef w) = true -> gauge (stateRef w) = 0 ->
  (n <= 666)%nat ->
  exists v,
    run (repeat EvTick n) w
    = charged w (frames n * num 0.15) v (heldCalls gc (currentTime (host w)) n).
Proof.
  induction n as [|n IH]; intros w c gc C G R Lp Ln G0 Hn.
  - exists (visualGauge (stateRef w)). cbn [repeat run fold_left].
    replace (frames 0 * num 0.15) with (gauge (stateRef w))
      by (rewrite G0; apply Qc_is_canon; reflexivity).
    now apply charged_start.
  - rewrite repeat_snoc, run_snoc.
    destruct (IH w c gc C G R Lp Ln G0 ltac:(lia)) as (v & ->).
    cbn [step]. change (rafActive (host (charged w _ v _))) with true. cbv iota.
    destruct (frames_bounds n 665 ltac:(lia)) as [B0 B1].
    change (frames 665) with (num 665) in B1.
    destruct (charging_tick w c gc (frames n * num 0.15) v
                (heldCalls gc (currentTime (host w)) n) C G) as (v' & ->);
      [qlra | qlra |].
    exists v'. rewrite heldCalls_S. f_equal. rewrite frames_S. qc2q. ring.
Qed.

(** Holding for 666 and 667 frames from a fresh looping session: 666
    charging frames to 99.9, known up to the visual gauge, and one more
    frame. *)
Lemma hold_666 w :
  ready w ->
  exists v,
    run (repeat EvTick 666) w
    = charged w (num 99.9) v (heldCalls 1 (currentTime (host w)) 666).
Proof.
  intros (C & G & R & Lp & Ln & G0).
  destruct (charging_run 666 w _ _ C G R Lp Ln G0 ltac:(lia)) as (v & ->).
  exists v.
  replace (frames 666 * num 0.15) with (num 99.9)
    by (apply Qc_is_canon; vm_compute; reflexivity).
  reflexivity.
Qed.

Lemma hold_667 w (post : list Event) :
  ready w ->
  exists v,
    run (repeat EvTick 667 ++ post) w
    = run post (gameLoop (charged w (num 99.9) v
                                  (heldCalls 1 (currentTime (host w)) 666))).
Proof.
  intros Rd. rewrite repeat_snoc, !run_app.
  destruct (hold_666 w Rd) as (v & ->).
  exists v. cbn [run fold_left step].
  change (rafActive (host (charged _ _ v _))) with true. reflexivity.
Qed.

(** ** The music-control frame *)

(** The calls of one frame of the music-control branch: the clock gain is
    steered to 1 and each stem gain that exists to its band value. *)
Lemma gameLoop_mix_calls w c gc :
  ctx (audioRef w) = Some c -> gainClock (audioRef w) = Some gc ->
  isLooping (stateRef w) = false -> vocalActive (stateRef w) = true ->
  let g := gaugeInput (stateRef w) in
  let now := currentTime (host w) in
  calls (host (gameLoop w))
  = calls (host w)
    ++ [SetTargetAtTime gc (num 1.0) now (num 0.05)]
    ++ setTarget (gainBass (audioRef w)) (bassVol g) now
    ++ setTarget (gainDrums (audioRef w)) (drumVol g) now
    ++ setTarget (gainVocals (audioRef w)) (vocalVol g) now.
Proof.
  intros C G L V. split_app w. red_app. subst.
  rewrite stemVolumes_eta. red_app.
  now rewrite <- !app_assoc.
Qed.

(** C4.  In a music-control frame (loop released, mix active) the gauge [g]
    of the frame is in [0,100] and the targets sent to the bass, drums and
    vocals gains are clamp(g/20,0,1), clamp((g-20)/20,0,1) and
    clamp((g-40)/60,0,1); the earlier variant computes the same values on
    [0,100]; at 20 bass is 1 and drums 0, at 40 drums is 1 and vocals 0, at 100
    vocals is 1. *)
Theorem mix_targets_are_the_bands w c gc gB gD gV :
  ctx (audioRef w) = Some c -> gainClock (audioRef w) = Some gc ->
  gainBass (audioRef w) = Some gB -> gainDrums (audioRef w) = Some gD ->
  gainVocals (audioRef w) = Some gV ->
  isLooping (stateRef w) = false -> vocalActive (stateRef w) = true ->
  let g := gauge (stateRef (gameLoop w)) in
  let now := currentTime (host w) in
  (0 <= g /\ g <= num 100)
  /\ calls (host (gameLoop w))
     = calls (host w)
       ++ [SetTargetAtTime gc (num 1.0) now (num 0.05);
           SetTargetAtTime gB (Spec.bass g) now (num 0.05);
           SetTargetAtTime gD (Spec.drums g) now (num 0.05);
           SetTargetAtTime gV (Spec.vocals g) now (num 0.05)]
  /\ (forall x, 0 <= x -> x <= num 100 ->
        stemVolumes x = (Spec.bass x, Spec.drums x, Spec.vocals x)
        /\ (Legacy.bassVol x, Legacy.drumsVol x, Legacy.vocalsVol x)
           = (Spec.bass x, Spec.drums x, Spec.vocals x))
  /\ (bassVol (num 20) = 1 /\ drumVol (num 20) = 0
      /\ drumVol (num 40) = 1 /\ vocalVol (num 40) = 0
      /\ vocalVol (num 100) = 1).
Proof.
  intros C G B D V L A. cbv zeta. rewrite gameLoop_gauge.
  pose proof (gaugeInput_bounds (stateRef w)) as [H0 H1].
  split; [now split|]. split; [|split].
  - rewrite (gameLoop_mix_calls w c gc C G L A). cbv zeta. rewrite B, D, V.
    pose proof (stemVolumes_spec _ H0 H1) as E. rewrite stemVolumes_eta in E.
    injection E as -> -> ->. reflexivity.
  - intros x X0 X1. split; [now apply stemVolumes_spec | now apply legacy_bands_spec].
  - repeat split; apply Qc_is_canon; vm_compute; reflexivity.
Qed.

(** ** The worked sessions *)

Lemma ready_fullSong_11 : ready (run (connectAndHold fullSong 11) (mounted "Misty")).
Proof. repeat split; vm_compute; reflexivity. Qed.


Lemma ready_noOtherSong_11 :
  ready (run (connectAndHold noOtherSong 11) (mounted "Misty")).
Proof. repeat split; vm_compute; reflexivity. Qed.

(** Rewrite a run that goes through the 667 held frames into the frames
    after them, from a state known up to the visual gauge [v]. *)
Ltac through_hold Rd post v :=
  unfold untilMix, stopThenStaleTimer, stopAfterRelease, releaseThenLoaded,
    holdUntilRelease;
  rewrite <- ?app_assoc;
  rewrite (run_app (connectAndHold _ _));
  destruct (hold_667 _ post Rd) as (v & ->).

(** The same for the 666 frames before the release. *)
Ltac before_release Rd v :=
  rewrite (run_app (connectAndHold _ _));
  destruct (hold_666 _ Rd) as (v & ->).

Lemma mix_targets_are_the_bands_witness :
  let w := run untilMix (mounted "Misty") in
  let g := gauge (stateRef (gameLoop w)) in
  (ctx (audioRef w) = Some 0%nat /\ gainClock (audioRef w) = Some 1%nat
   /\ gainBass (audioRef w) = Some 3%nat /\ gainDrums (audioRef w) = Some 4%nat
   /\ gainVocals (audioRef w) = Some 5%nat
   /\ isLooping (stateRef w) = false /\ vocalActive (stateRef w) = true)
  /\ calls (host (gameLoop w))
     = calls (host w)
       ++ [SetTargetAtTime 1 (num 1.0) (num 31) (num 0.05);
           SetTargetAtTime 3 (Spec.bass g) (num 31) (num 0.05);
           SetTargetAtTime 4 (Spec.drums g) (num 31) (num 0.05);
           SetTargetAtTime 5 (Spec.vocals g) (num 31) (num 0.05)].
Proof.
  cbv zeta.
  through_hold ready_fullSong_11 [EvElapse (num 20000) (num 20); EvTimer 0] v.
  match goal with |- context [gameLoop (run ?p ?x)] => set (w := run p x) end.
  assert (H : ctx (audioRef w) = Some 0%nat /\ gainClock (audioRef w) = Some 1%nat
              /\ gainBass (audioRef w) = Some 3%nat /\ gainDrums (audioRef w) = Some 4%nat
              /\ gainVocals (audioRef w) = Some 5%nat
              /\ isLooping (stateRef w) = false /\ vocalActive (stateRef w) = true)
    by (vm_compute; auto 10).
  split; [exact H|].
  destruct H as (C & G & B & D & V & L & A).
  destruct (mix_targets_are_the_bands w _ _ _ _ _ C G B D V L A) as (_ & E & _).
  rewrite E. repeat f_equal; try (apply Qc_is_canon; vm_compute; reflexivity).
Defined.

(** ** The scheduler *)

Lemma releaseLoop_unfold w c clk :
  ctx (audioRef w) = Some c -> clockSrc (audioRef w) = Some clk ->
  releaseLoop w
  = scheduleMusicAt17s c
      (currentLoopEnd (startTime (audioRef w)) (currentTime (host w))
       + CONFIG.vocalStartTime)
      (setStatusText "SYNC COMPLETE..."
         (upd_stateRef (set_isLooping false) (emit (SetLoop clk false) w))).
Proof. intros C K. unfold releaseLoop. rewrite C, K. reflexivity. Qed.

(** With the selected song buffered, scheduleMusicAt17s starts every stem that
    has a buffer at [m], sets the accompaniment gain to 1 at [m], and leaves
    one timer for the stage change; it touches neither the gauge, the stage
    nor the anchor. *)
Lemma scheduleMusicAt17s_loaded c m w gO gB gD gV currentMusic :
  gainOther (audioRef w) = Some gO -> gainBass (audioRef w) = Some gB ->
  gainDrums (audioRef w) = Some gD -> gainVocals (audioRef w) = Some gV ->
  musicBuffersRef w !! currentSelected w = Some currentMusic ->
  is_Some (other currentMusic) ->
  let w' := scheduleMusicAt17s c m w in
  exists added,
    calls (host w') = calls (host w) ++ added
    /\ stemStarted (otherSrc (audioRef w')) (other currentMusic) m added
    /\ stemStarted (bassSrc (audioRef w')) (bass currentMusic) m added
    /\ stemStarted (drumsSrc (audioRef w')) (drums currentMusic) m added
    /\ stemStarted (vocalsSrc (audioRef w')) (vocals currentMusic) m added
    /\ (forall n t, In (Start n t) added -> t = m)
    /\ In (SetValueAtTime gO (num 1.0) m) added
    /\ (forall g target t tc, ~ In (SetTargetAtTime g target t tc) added)
    /\ timers (host w')
       = timers (host w)
         ++ [mkTimer (wall (host w)
                      + Math_max 0 (m - currentTime (host w)) * num 1000)
                     ActivateMix]
    /\ stateRef w' = stateRef w /\ ui w' = ui w
    /\ startTime (audioRef w') = startTime (audioRef w)
    /\ clockSrc (audioRef w') = clockSrc (audioRef w)
    /\ ctx (audioRef w') = ctx (audioRef w).
Proof.
  intros GO GB GD GV M [ob O]. cbv zeta. unfold scheduleMusicAt17s.
  rewrite GO, GB, GD, GV, M, O.
  destruct currentMusic as [o b d v]. cbn [other bass drums vocals] in *. subst o.
  split_app w. destruct b, d, v; red_app;
    (eexists; split; [rewrite <- !app_assoc; reflexivity|]);
    cbn [app In stemStarted];
    repeat split; auto 20;
    try (intros; intuition congruence).
Qed.

(** Without it, scheduleMusicAt17s only sets the error message. *)
Lemma scheduleMusicAt17s_not_loaded c m w gO gB gD gV :
  gainOther (audioRef w) = Some gO -> gainBass (audioRef w) = Some gB ->
  gainDrums (audioRef w) = Some gD -> gainVocals (audioRef w) = Some gV ->
  songLoaded w = false ->
  scheduleMusicAt17s c m w
  = setErrorMessage ("Failed to load music: " +:+ currentSelected w) w.
Proof.
  intros GO GB GD GV N. unfold scheduleMusicAt17s, songLoaded in *.
  rewrite GO, GB, GD, GV.
  destruct (musicBuffersRef w !! currentSelected w) as [cm|]; [|reflexivity].
  destruct (other cm); [discriminate|reflexivity].
Qed.

(** ** The loop-release instant *)

Lemma this_num_inject_Z (k : Z) : this (num (inject_Z k)) = inject_Z k.
Proof. unfold num, Q2Qc. cbn [this]. unfold Qred, inject_Z. cbn [Qnum Qden].
  destruct (Z.ggcd k 1) as [g [a b]] eqn:E.
  pose proof (Z.ggcd_correct_divisors k 1) as D. rewrite E in D. destruct D as [D1 D2].
  pose proof (Z.ggcd_gcd k 1) as G. rewrite E in G. cbn [fst] in G.
  rewrite Z.gcd_1_r in G. subst g. rewrite !Z.mul_1_l in *. subst.
  reflexivity.
Qed.

Section LoopEnd.

Variables startTime now : Qc.
Hypothesis started : startTime <= now.

(** The number of whole loop iterations played at [now]. *)
Let x : Q := this ((now - startTime) / CONFIG.loopEndTime).

Lemma elapsed_loops : (x == (this now - this startTime) * (1 # 7))%Q.
Proof. subst x. qc2q. reflexivity. Qed.

Lemma currentLoopEnd_value :
  (this (currentLoopEnd startTime now)
   == this startTime + (inject_Z (Qfloor x) + 1) * 7)%Q.
Proof.
  unfold currentLoopEnd, Math_floor. fold x. 
  unfold CONFIG.loopEndTime, num, Qcplus, Qcmult, Q2Qc. cbn [this].
  rewrite !Qred_correct. change (this (Q2Qc 1)) with 1%Q.
  change 7.0%Q with (70 # 10)%Q. lra.
Qed.


Lemma elapsed_nonneg : (0 <= x)%Q.
Proof.
  pose proof elapsed_loops as X. unfold Qcle in started. clearbody x. lra.
Qed.

Lemma floor_nonneg : (0 <= Qfloor x)%Z.
Proof. change 0%Z with (Qfloor 0). apply Qfloor_resp_le, elapsed_nonneg. Qed.

(** The release instant of the code is a positive whole number of loop
    lengths after the anchor; on exact numbers it is strictly after [now]
    and at most one loop length after it (on doubles neither bound survives
    rounding, see [Binary64.currentLoopEnd]). *)
Lemma currentLoopEnd_aligned :
  exists k : Z, (1 <= k)%Z
    /\ currentLoopEnd startTime now
       = startTime + num (inject_Z k) * CONFIG.loopEndTime.
Proof.
  exists (Qfloor x + 1)%Z. split; [pose proof floor_nonneg; lia|].
  apply Qc_is_canon. rewrite currentLoopEnd_value.
  unfold CONFIG.loopEndTime, Qcplus, Qcmult, Q2Qc. cbn [this].
  rewrite !Qred_correct, this_num_inject_Z, inject_Z_plus.
  unfold num, Q2Qc. cbn [this]. rewrite Qred_correct.
  change 7.0%Q with (70 # 10)%Q. change (inject_Z 1) with 1%Q. lra.
Qed.

Lemma currentLoopEnd_after :
  now < currentLoopEnd startTime now
  /\ currentLoopEnd startTime now <= now + CONFIG.loopEndTime.
Proof.
  pose proof (Qfloor_le x) as F1. pose proof (Qlt_floor x) as F2.
  rewrite inject_Z_plus in F2. change (inject_Z 1) with 1%Q in F2.
  pose proof elapsed_loops as X.
  unfold Qclt, Qcle. rewrite currentLoopEnd_value.
  unfold CONFIG.loopEndTime, num, Qcplus, Q2Qc. cbn [this]. rewrite !Qred_correct.
  change 7.0%Q with (70 # 10)%Q. clearbody x. split; lra.
Qed.

(** The release instant is not before [now]. *)
Lemma currentLoopEnd_not_before : now <= currentLoopEnd startTime now.
Proof. apply Qclt_le_weak. apply currentLoopEnd_after. Qed.




End LoopEnd.

(** ** The frame that releases the loop *)

(** Evaluate a frame without opening releaseLoop. *)
Ltac red_frame :=
  cbv beta iota zeta delta
    [gameLoop emit emits requestAnimationFrame setStatusText
     upd_ui upd_audioRef upd_stateRef upd_host set_gauge set_visualGauge
     set_isLooping set_statusText setTarget
     ui audioRef buffersRef musicBuffersRef selectedMusicRef stateRef host
     ctx clockSrc gainClock gainOther gainBass gainDrums gainVocals startTime
     gauge visualGauge isLooping vocalActive isLeaning
     wall currentTime timers calls nextId rafActive fst snd] in *.

Lemma releaseLoop_currentTime w : currentTime (host (releaseLoop w)) = currentTime (host w).
Proof. split_app w. branches; reflexivity. Qed.

(** A frame of a live, looping session whose gauge reaches 100 calls
    releaseLoop, then steers the clock gain as every looping frame does. *)
Lemma gameLoop_saturating w c gc :
  ctx (audioRef w) = Some c -> gainClock (audioRef w) = Some gc ->
  isLooping (stateRef w) = true -> num 100 <= gaugeInput (stateRef w) ->
  let g := gaugeInput (stateRef w) in
  let r := releaseLoop (upd_stateRef (set_gauge g) w) in
  gameLoop w
  = requestAnimationFrame
      (upd_stateRef
         (fun s => set_visualGauge
                     (visualGauge s + (g / num 100 - visualGauge s) * num 0.1) s)
         (emits [SetTargetAtTime gc (g / num 100) (currentTime (host w)) (num 0.05)] r)).
Proof.
  intros C G L S. apply Qleb_le in S. cbv zeta.
  unfold gameLoop. cbv zeta. rewrite C, G.
  cbn [isLooping gauge stateRef upd_stateRef set_gauge].
  rewrite L, S, releaseLoop_currentTime. reflexivity.
Qed.


(** The rest of the frame after releaseLoop returned [r]. *)
Lemma frame_tail_projections f cs r :
  let w' := requestAnimationFrame (upd_stateRef f (emits cs r)) in
  stateRef w' = f (stateRef r) /\ calls (host w') = calls (host r) ++ cs
  /\ timers (host w') = timers (host r) /\ audioRef w' = audioRef r.
Proof. split_app r. cbv zeta. repeat split. Qed.

Lemma delay_positive (m now : Qc) : now <= m -> Math_max 0 (m - now) = m - now.
Proof. intros H. unfold Math_max. case_cmp; [reflexivity|exfalso; qlra]. Qed.

Lemma legacy_musicStartAt_max (s now : Qc) :
  Legacy.musicStartAt s now = Math_max now (s + CONFIG.vocalStartTime).
Proof.
  unfold Legacy.musicStartAt, Math_max. case_cmp; try (exfalso; qlra); qlra.
Qed.


#[local] Set Warnings "-inexact-float".




(** ** The deferred mix start *)

(** The callback touches neither the audio graph nor its references. *)
Lemma activateMix_effect w :
  let w' := activateMix w in
  gauge (stateRef w') = 0 /\ vocalActive (stateRef w') = true
  /\ stage (ui w') = MixActive /\ statusText (ui w') = "MUSIC ACTIVE"%string
  /\ host w' = host w /\ audioRef w' = audioRef w
  /\ isLooping (stateRef w') = isLooping (stateRef w).
Proof. split_app w. cbv zeta. repeat split. Qed.

(** A timer that is not due does not fire. *)
Lemma timer_not_due w i t :
  timers (host w) !! i = Some t -> wall (host w) < due t ->
  step (EvTimer i) w = w.
Proof.
  intros T D. cbn [step]. unfold fireTimer. rewrite T.
  apply Qleb_gt in D. now rewrite D.
Qed.

(** A due timer fires: it leaves the list and its callback runs. *)
Lemma timer_due w i t :
  timers (host w) !! i = Some t -> due t <= wall (host w) ->
  step (EvTimer i) w = runTimer (action t) (removeTimer i w).
Proof.
  intros T D. cbn [step]. unfold fireTimer. rewrite T.
  apply Qleb_le in D. now rewrite D.
Qed.

Lemma removeTimer_projections i w :
  let w' := removeTimer i w in
  ui w' = ui w /\ audioRef w' = audioRef w /\ stateRef w' = stateRef w
  /\ calls (host w') = calls (host w) /\ wall (host w') = wall (host w)
  /\ currentTime (host w') = currentTime (host w)
  /\ timers (host w') = delete i (timers (host w))
  /\ musicBuffersRef w' = musicBuffersRef w.
Proof. split_app w. cbv zeta. repeat split. Qed.

(** C5.  scheduleMusicAt17s binds every stem that has a buffer to a source
    started at the instant [m] it was given, sets the accompaniment gain to 1
    at [m], and defers the stage change by [max(0, m - now)] seconds.  The
    deferred callback cannot run before that delay has passed; whenever it
    runs, it sets the gauge to 0 and the stage to MixActive and makes no call
    on the audio graph: the stems stay started at [m], not at the firing
    time. *)
Theorem mix_starts_at_scheduled_instant c m w gO gB gD gV currentMusic :
  gainOther (audioRef w) = Some gO -> gainBass (audioRef w) = Some gB ->
  gainDrums (audioRef w) = Some gD -> gainVocals (audioRef w) = Some gV ->
  musicBuffersRef w !! currentSelected w = Some currentMusic ->
  is_Some (other currentMusic) ->
  let w1 := scheduleMusicAt17s c m w in
  let now := currentTime (host w) in
  (exists added,
     calls (host w1) = calls (host w) ++ added
     /\ stemStarted (otherSrc (audioRef w1)) (other currentMusic) m added
     /\ stemStarted (bassSrc (audioRef w1)) (bass currentMusic) m added
     /\ stemStarted (drumsSrc (audioRef w1)) (drums currentMusic) m added
     /\ stemStarted (vocalsSrc (audioRef w1)) (vocals currentMusic) m added
     /\ (forall n t, In (Start n t) added -> t = m)
     /\ In (SetValueAtTime gO (num 1.0) m) added)
  /\ timers (host w1)
     = timers (host w)
       ++ [mkTimer (wall (host w) + Math_max 0 (m - now) * num 1000) ActivateMix]
  /\ (gauge (stateRef w1) = gauge (stateRef w) /\ stage (ui w1) = stage (ui w))
  /\ (forall w2 i t,
        timers (host w2) !! i = Some t -> wall (host w2) < due t ->
        step (EvTimer i) w2 = w2)
  /\ (forall w2 i t,
        timers (host w2) !! i = Some t -> action t = ActivateMix ->
        due t <= wall (host w2) ->
        let w3 := step (EvTimer i) w2 in
        gauge (stateRef w3) = 0 /\ stage (ui w3) = MixActive
        /\ vocalActive (stateRef w3) = true
        /\ calls (host w3) = calls (host w2)
        /\ audioRef w3 = audioRef w2).
Proof.
  intros GO GB GD GV M O. cbv zeta.
  destruct (scheduleMusicAt17s_loaded c m w gO gB gD gV currentMusic GO GB GD GV M O)
    as (added & Ca & So & Sb & Sd & Sv & St & Sa & _ & Ti & Sr & Su & _).
  split; [exists added; repeat split; assumption|].
  split; [exact Ti|]. split; [now rewrite Sr, Su|].
  split; [exact timer_not_due|].
  intros w2 i t T A D. cbv zeta. rewrite (timer_due w2 i t T D), A. cbn [runTimer].
  destruct (activateMix_effect (removeTimer i w2)) as (E1 & E2 & E3 & _ & E5 & E6 & _).
  destruct (removeTimer_projections i w2) as (_ & R2 & _ & R4 & _).
  cbv zeta in *. rewrite E1, E2, E3, E5, E6, R2, R4. repeat split.
Qed.

Lemma mix_starts_at_scheduled_instant_witness :
  let w := run (connectAndHold fullSong 11) (mounted "Misty") in
  let w1 := scheduleMusicAt17s 0 (num 31) w in
  (gainOther (audioRef w) = Some 2%nat /\ gainBass (audioRef w) = Some 3%nat
   /\ gainDrums (audioRef w) = Some 4%nat /\ gainVocals (audioRef w) = Some 5%nat
   /\ musicBuffersRef w !! currentSelected w = Some fullSong
   /\ is_Some (other fullSong))
  /\ pendingTimers w1 = [(31000%Q, ActivateMix)]
  /\ startTimes (calls (host w1))
     = [(6%nat, 0); (7%nat, 31); (8%nat, 31); (9%nat, 31); (10%nat, 31)]%Q.
Proof.
  cbv zeta. set (w := run (connectAndHold fullSong 11) (mounted "Misty")).
  assert (H : gainOther (audioRef w) = Some 2%nat /\ gainBass (audioRef w) = Some 3%nat
   /\ gainDrums (audioRef w) = Some 4%nat /\ gainVocals (audioRef w) = Some 5%nat
   /\ musicBuffersRef w !! currentSelected w = Some fullSong
   /\ is_Some (other fullSong))
    by (repeat split; try (vm_compute; reflexivity); eexists; reflexivity).
  split; [exact H|].
  destruct H as (GO & GB & GD & GV & M & O).
  destruct (mix_starts_at_scheduled_instant 0 (num 31) w _ _ _ _ _ GO GB GD GV M O)
    as (_ & Ti & _).
  split; [unfold pendingTimers; rewrite Ti|]; vm_compute; reflexivity.
Defined.

(** ** Stop *)

Lemma fadeOutGain_calls value now fade gains g :
  In (Some g) gains ->
  let added := flat_map (fadeOutGain value now fade) gains in
  In (CancelScheduledValues g now) added
  /\ In (SetValueAtTime g (value g) now) added
  /\ In (LinearRampToValueAtTime g 0 (now + fade)) added.
Proof.
  intros I. cbv zeta. rewrite !in_flat_map.
  repeat split; exists (Some g); (split; [exact I|]); cbn; auto.
Qed.

Lemma fadeOutGain_only value now fade gains call :
  In call (flat_map (fadeOutGain value now fade) gains) ->
  exists g, In (Some g) gains
    /\ (call = CancelScheduledValues g now
        \/ call = SetValueAtTime g (value g) now
        \/ call = LinearRampToValueAtTime g 0 (now + fade)).
Proof.
  rewrite in_flat_map. intros ([g|] & I & H); [|destruct H].
  exists g. split; [exact I|]. cbn in H. intuition auto.
Qed.

Lemma handleStop_effect value w c gc :
  ctx (audioRef w) = Some c -> gainClock (audioRef w) = Some gc ->
  let a := audioRef w in
  let w1 := handleStop value w in
  calls (host w1)
  = calls (host w)
    ++ flat_map (fadeOutGain value (currentTime (host w)) CONFIG.fadeOutTime)
         [gainClock a; gainOther a; gainBass a; gainDrums a; gainVocals a]
  /\ timers (host w1)
     = timers (host w)
       ++ [mkTimer (wall (host w) + CONFIG.fadeOutTime * num 1000) (StopReset c)]
  /\ stateRef w1 = stateRef w /\ ui w1 = ui w /\ audioRef w1 = audioRef w.
Proof.
  intros C G. cbv zeta. unfold handleStop. rewrite C, G.
  split_app w. repeat split.
Qed.

Lemma stopReset_effect c w :
  let a := audioRef w in
  let w' := stopReset c w in
  calls (host w')
  = calls (host w)
    ++ flat_map stopSource
         [clockSrc a; otherSrc a; bassSrc a; drumsSrc a; vocalsSrc a]
    ++ [CtxClose c]
  /\ audioRef w' = nullAudioRef
  /\ stateRef w' = mkStateRef 0 0 true false (isLeaning (stateRef w))
  /\ ui w' = mkUi false false "DISCONNECTED" Idle (errorMessage (ui w)) false
                  (selectedMusic (ui w))
  /\ timers (host w') = timers (host w).
Proof.
  split_app w. cbv zeta. red_app. rewrite <- !app_assoc. repeat split.
Qed.



(** ** Which gains a music-control frame drives *)

Lemma legacy_musicControl a gauge now gc gO :
  gainClock a = Some gc -> gainOther a = Some gO ->
  exists stems,
    Legacy.musicControl a gauge now
    = SetTargetAtTime gc (num 1.0) now (num 0.05)
      :: SetTargetAtTime gO (num 1.0) now (num 0.05) :: stems.
Proof.
  intros G O. unfold Legacy.musicControl. rewrite G, O. cbn [setTarget app].
  eexists. reflexivity.
Qed.

(** C8 (amended).  In a music-control frame the clock gain is steered to 1.0
    by setTargetAtTime with time constant 0.05 s; the only other calls of the
    frame steer the bass, drums and vocals gains the same way.  The
    accompaniment gain is not touched by the frame: it was set to 1.0 at the
    mix start by setValueAtTime, when the mix was scheduled.  (The earlier
    variant does steer both the clock and the accompaniment gain to 1.0 in
    every such frame.) *)
Theorem mix_frame_steers_clock_gain w c gc :
  ctx (audioRef w) = Some c -> gainClock (audioRef w) = Some gc ->
  isLooping (stateRef w) = false -> vocalActive (stateRef w) = true ->
  let a := audioRef w in
  let now := currentTime (host w) in
  (exists stems,
     calls (host (gameLoop w))
     = calls (host w) ++ SetTargetAtTime gc (num 1.0) now (num 0.05) :: stems
     /\ (forall call, In call stems ->
           exists g target,
             call = SetTargetAtTime g target now (num 0.05)
             /\ In (Some g) [gainBass a; gainDrums a; gainVocals a]))
  /\ (forall k m w0 gO gB gD gV currentMusic,
        gainOther (audioRef w0) = Some gO -> gainBass (audioRef w0) = Some gB ->
        gainDrums (audioRef w0) = Some gD -> gainVocals (audioRef w0) = Some gV ->
        musicBuffersRef w0 !! currentSelected w0 = Some currentMusic ->
        is_Some (other currentMusic) ->
        exists added,
          calls (host (scheduleMusicAt17s k m w0)) = calls (host w0) ++ added
          /\ In (SetValueAtTime gO (num 1.0) m) added
          /\ (forall g target t tc, ~ In (SetTargetAtTime g target t tc) added))
  /\ (forall a0 g t0 gc0 gO0,
        gainClock a0 = Some gc0 -> gainOther a0 = Some gO0 ->
        exists stems,
          Legacy.musicControl a0 g t0
          = SetTargetAtTime gc0 (num 1.0) t0 (num 0.05)
            :: SetTargetAtTime gO0 (num 1.0) t0 (num 0.05) :: stems).
Proof.
  intros C G L V. cbv zeta. split; [|split].
  - rewrite (gameLoop_mix_calls w c gc C G L V). cbv zeta. eexists.
    split; [reflexivity|].
    intros call I. cbn [app] in I.
    destruct (gainBass (audioRef w)) as [gB|], (gainDrums (audioRef w)) as [gD|],
             (gainVocals (audioRef w)) as [gV|]; cbn [setTarget app In] in *;
      intuition (subst; eauto 8).
  - intros k m w0 gO gB gD gV cm GO GB GD GV M O.
    destruct (scheduleMusicAt17s_loaded k m w0 gO gB gD gV cm GO GB GD GV M O)
      as (added & Ca & _ & _ & _ & _ & _ & Sa & Sn & _).
    exists added. repeat split; assumption.
  - exact legacy_musicControl.
Qed.

Lemma mix_frame_steers_clock_gain_witness :
  let w := run untilMix (mounted "Misty") in
  (ctx (audioRef w) = Some 0%nat /\ gainClock (audioRef w) = Some 1%nat
   /\ isLooping (stateRef w) = false /\ vocalActive (stateRef w) = true)
  /\ exists stems,
       calls (host (gameLoop w))
       = calls (host w)
         ++ SetTargetAtTime 1 (num 1.0) (currentTime (host w)) (num 0.05) :: stems.
Proof.
  cbv zeta.
  through_hold ready_fullSong_11 [EvElapse (num 20000) (num 20); EvTimer 0] v.
  match goal with |- context [gameLoop (run ?p ?x)] => set (w := run p x) end.
  assert (H : ctx (audioRef w) = Some 0%nat /\ gainClock (audioRef w) = Some 1%nat
              /\ isLooping (stateRef w) = false /\ vocalActive (stateRef w) = true)
    by (vm_compute; auto).
  split; [exact H|]. destruct H as (C & G & L & V).
  destruct (mix_frame_steers_clock_gain w _ _ C G L V) as ((stems & E & _) & _).
  exists stems. exact E.
Defined.

(** C8, counterexample.  In the worked session the mix is active and the
    accompaniment gain is node 2.  The next frame makes four calls: on the
    clock gain (1) and on the bass, drums and vocals gains (3, 4, 5).  None is
    on the accompaniment gain. *)
Lemma accompaniment_gain_not_steered_counterexample :
  let w := run untilMix (mounted "Misty") in
  stage (ui w) = MixActive /\ vocalActive (stateRef w) = true
  /\ gainOther (audioRef w) = Some 2%nat
  /\ exists added,
       calls (host (gameLoop w)) = calls (host w) ++ added
       /\ map (fun c => match c with
                        | SetTargetAtTime g target _ _ => Some (g, this target)
                        | _ => None
                        end) added
          = [Some (1%nat, 1%Q); Some (3%nat, (3 # 400)%Q);
             Some (4%nat, 0%Q); Some (5%nat, 0%Q)]
       /\ ~ (exists target t tc, In (SetTargetAtTime 2 target t tc) added).
Proof.
  cbv zeta.
  through_hold ready_fullSong_11 [EvElapse (num 20000) (num 20); EvTimer 0] v.
  match goal with |- context [gameLoop (run ?p ?x)] => set (w := run p x) end.
  assert (H : ctx (audioRef w) = Some 0%nat /\ gainClock (audioRef w) = Some 1%nat
              /\ gainBass (audioRef w) = Some 3%nat /\ gainDrums (audioRef w) = Some 4%nat
              /\ gainVocals (audioRef w) = Some 5%nat
              /\ isLooping (stateRef w) = false /\ vocalActive (stateRef w) = true)
    by (vm_compute; auto 10).
  destruct H as (C & G & B & D & V & L & A).
  split; [vm_compute; reflexivity|]. split; [exact A|].
  split; [vm_compute; reflexivity|].
  rewrite (gameLoop_mix_calls w _ _ C G L A). cbv zeta. rewrite B, D, V.
  eexists. split; [reflexivity|]. split.
  - cbn [setTarget app map]. repeat f_equal; vm_compute; reflexivity.
  - intros (target & t & tc & I). cbn [setTarget app In] in I.
    intuition discriminate.
Qed.

(** ** After the release *)

Lemma startTimes_app cs1 cs2 : startTimes (cs1 ++ cs2) = startTimes cs1 ++ startTimes cs2.
Proof. unfold startTimes. apply flat_map_app. Qed.

Lemma startTimes_setTarget cs g target now :
  startTimes (cs ++ setTarget g target now) = startTimes cs.
Proof. rewrite startTimes_app. destruct g; cbn; now rewrite app_nil_r. Qed.

(** Once the loop is released, a quiet event sets no timer, starts no source
    and changes neither the stage nor the flags. *)
Lemma quiet_step_released e w :
  quiet e = true -> isLooping (stateRef w) = false ->
  let w' := step e w in
  isLooping (stateRef w') = false
  /\ timers (host w') = timers (host w)
  /\ startTimes (calls (host w')) = startTimes (calls (host w))
  /\ vocalActive (stateRef w') = vocalActive (stateRef w)
  /\ stage (ui w') = stage (ui w).
Proof.
  intros Q L. cbv zeta. destruct e; try discriminate Q; cbn [step].
  - destruct (rafActive (host w)) eqn:R; [|now repeat split].
    split_app w. red_app. subst.
    branches; repeat split; try reflexivity;
      rewrite ?startTimes_app; cbn [startTimes flat_map app];
      now rewrite ?app_nil_r.
  - unfold handleDown. destruct (isInputKey key); [|now repeat split].
    split_app w. now repeat split.
  - unfold handleUp. destruct (isInputKey key); [|now repeat split].
    split_app w. now repeat split.
  - unfold elapse. destruct (_ && _); [|now repeat split].
    split_app w. now repeat split.
  - split_app w. now repeat split.
Qed.

Lemma quiet_run_released es : forall w,
  forallb quiet es = true -> isLooping (stateRef w) = false ->
  let w' := run es w in
  isLooping (stateRef w') = false
  /\ timers (host w') = timers (host w)
  /\ startTimes (calls (host w')) = startTimes (calls (host w))
  /\ vocalActive (stateRef w') = vocalActive (stateRef w)
  /\ stage (ui w') = stage (ui w).
Proof.
  induction es as [|e es IH]; intros w Q L; cbv zeta; [now repeat split|].
  cbn [forallb] in Q. apply andb_prop in Q as [Qe Qs].
  destruct (quiet_step_released e w Qe L) as (L1 & T1 & S1 & V1 & G1).
  destruct (IH (step e w) Qs L1) as (L2 & T2 & S2 & V2 & G2).
  cbv zeta in *. cbn [run fold_left]. fold (run es (step e w)).
  repeat split; congruence.
Qed.

Lemma released_mixNeverStarts w :
  isLooping (stateRef w) = false -> mixNeverStarts w.
Proof.
  intros L es Q. destruct (quiet_run_released es w Q L) as (_ & T & S & V & G).
  cbv zeta in *. now repeat split.
Qed.

(** ** Releasing the loop while the song is not buffered *)

(** C6 (amended).  When the gauge saturates and the selected song has no
    accompaniment buffer, the frame clears the clock's loop flag, releases the
    loop latch and reports "Failed to load music: <song>"; it starts no
    source, sets no timer and leaves the stage, the anchor and the node
    references as they were, the gauge being the frame's own value.  Nothing
    is retried: with the latch released, however many frames, key events and
    loads follow, no timer is set, no source is started and the mix does not
    become active. *)
Theorem unloaded_song_fails_without_retry w c clk gc gO gB gD gV :
  ctx (audioRef w) = Some c -> clockSrc (audioRef w) = Some clk ->
  gainClock (audioRef w) = Some gc ->
  gainOther (audioRef w) = Some gO -> gainBass (audioRef w) = Some gB ->
  gainDrums (audioRef w) = Some gD -> gainVocals (audioRef w) = Some gV ->
  songLoaded w = false ->
  isLooping (stateRef w) = true -> num 100 <= gaugeInput (stateRef w) ->
  let g := gaugeInput (stateRef w) in
  let w' := gameLoop w in
  errorMessage (ui w') = ("Failed to load music: " +:+ currentSelected w)%string
  /\ stage (ui w') = stage (ui w)
  /\ gauge (stateRef w') = g
  /\ vocalActive (stateRef w') = vocalActive (stateRef w)
  /\ audioRef w' = audioRef w
  /\ timers (host w') = timers (host w)
  /\ calls (host w')
     = calls (host w)
       ++ [SetLoop clk false;
           SetTargetAtTime gc (g / num 100) (currentTime (host w)) (num 0.05)]
  /\ isLooping (stateRef w') = false
  /\ mixNeverStarts w'.
Proof.
  intros C K G GO GB GD GV N Lp S. cbv zeta.
  assert (E : gameLoop w
              = requestAnimationFrame
                  (upd_stateRef
                     (fun s => set_visualGauge
                                 (visualGauge s
                                  + (gaugeInput (stateRef w) / num 100 - visualGauge s)
                                    * num 0.1) s)
                     (emits [SetTargetAtTime gc (gaugeInput (stateRef w) / num 100)
                               (currentTime (host w)) (num 0.05)]
                        (setErrorMessage
                           ("Failed to load music: " +:+ currentSelected w)
                           (setStatusText "SYNC COMPLETE..."
                              (upd_stateRef (set_isLooping false)
                                 (emit (SetLoop clk false)
                                    (upd_stateRef (set_gauge (gaugeInput (stateRef w)))
                                                  w)))))))).
  { rewrite (gameLoop_saturating w c gc C G Lp S). cbv zeta.
    rewrite (releaseLoop_unfold _ c clk) by (split_app w; exact C || exact K).
    rewrite (scheduleMusicAt17s_not_loaded _ _ _ gO gB gD gV);
      try (split_app w; assumption).
    reflexivity. }
  assert (P : isLooping (stateRef (gameLoop w)) = false)
    by (rewrite E; split_app w; reflexivity).
  split; [|split; [|split; [|split; [|split; [|split; [|split; [|split]]]]]]];
    try exact P; try (now apply released_mixNeverStarts);
    rewrite E; split_app w; try reflexivity.
  red_app. now rewrite <- app_assoc.
Qed.

Lemma unloaded_song_fails_without_retry_witness :
  let w := run (connectAndHold noOtherSong 11 ++ repeat EvTick 666) (mounted "Misty") in
  (ctx (audioRef w) = Some 0%nat /\ clockSrc (audioRef w) = Some 6%nat
   /\ gainClock (audioRef w) = Some 1%nat /\ gainOther (audioRef w) = Some 2%nat
   /\ gainBass (audioRef w) = Some 3%nat /\ gainDrums (audioRef w) = Some 4%nat
   /\ gainVocals (audioRef w) = Some 5%nat /\ songLoaded w = false
   /\ isLooping (stateRef w) = true /\ num 100 <= gaugeInput (stateRef w))
  /\ errorMessage (ui (gameLoop w)) = "Failed to load music: Misty"%string
  /\ timers (host (gameLoop w)) = []
  /\ mixNeverStarts (gameLoop w).
Proof.
  cbv zeta. before_release ready_noOtherSong_11 v.
  match goal with |- context [gameLoop ?x] => set (w := x) end.
  assert (H : ctx (audioRef w) = Some 0%nat /\ clockSrc (audioRef w) = Some 6%nat
   /\ gainClock (audioRef w) = Some 1%nat /\ gainOther (audioRef w) = Some 2%nat
   /\ gainBass (audioRef w) = Some 3%nat /\ gainDrums (audioRef w) = Some 4%nat
   /\ gainVocals (audioRef w) = Some 5%nat /\ songLoaded w = false
   /\ isLooping (stateRef w) = true /\ num 100 <= gaugeInput (stateRef w)).
  { repeat split; try (vm_compute; reflexivity); vm_compute; discriminate. }
  split; [exact H|].
  destruct H as (C & K & G & GO & GB & GD & GV & N & Lp & S).
  destruct (unloaded_song_fails_without_retry w _ _ _ _ _ _ _ C K G GO GB GD GV N Lp S)
    as (He & _ & _ & _ & _ & Ht & _ & _ & Hn).
  split; [rewrite He; vm_compute; reflexivity|].
  split; [rewrite Ht; vm_compute; reflexivity|exact Hn].
Defined.

(** C6, counterexample.  The loop is released while "Misty" has no
    accompaniment buffer; afterwards the complete stems arrive.  The error was
    reported, the song is now buffered, and yet there is no timer, the only
    source ever started is the clock (node 6), and nothing that follows in the
    session starts the mix: there is no retry. *)
Lemma no_retry_after_load_counterexample :
  let w := run releaseThenLoaded (mounted "Misty") in
  errorMessage (ui w) = "Failed to load music: Misty"%string
  /\ songLoaded w = true
  /\ isLooping (stateRef w) = false /\ vocalActive (stateRef w) = false
  /\ stage (ui w) = Syncing
  /\ timers (host w) = []
  /\ startTimes (calls (host w)) = [(6%nat, 0%Q)]
  /\ mixNeverStarts w.
Proof.
  cbv zeta. unfold releaseThenLoaded.
  through_hold ready_noOtherSong_11 [EvLoaded "Misty" fullSong] v.
  match goal with |- context [run ?p ?x] => set (w := run p x) end.
  assert (L : isLooping (stateRef w) = false) by (vm_compute; reflexivity).
  pose proof (released_mixNeverStarts w L) as N.
  split; [vm_compute; reflexivity|]. split; [vm_compute; reflexivity|].
  split; [exact L|]. split; [vm_compute; reflexivity|].
  split; [vm_compute; reflexivity|]. split; [vm_compute; reflexivity|].
  split; [vm_compute; reflexivity|exact N].
Qed.

(** ** Stop and the pending mix timer *)

Lemma pendingMix_existsb w : pendingMix w = existsb isMixTimer (timers (host w)).
Proof. reflexivity. Qed.

Lemma existsb_delete {A} (f : A -> bool) i (l : list A) :
  existsb f l = false -> existsb f (delete i l) = false.
Proof.
  revert i. induction l as [|x l IH]; intros i H; [now destruct i|].
  cbn in H. apply orb_false_iff in H as [Hx Hl].
  destruct i; cbn; [exact Hl|]. rewrite Hx. now apply IH.
Qed.

Lemma existsb_lookup {A} (f : A -> bool) i (l : list A) x :
  existsb f l = false -> l !! i = Some x -> f x = false.
Proof.
  revert i. induction l as [|y l IH]; intros i H E; [now destruct i|].
  cbn in H. apply orb_false_iff in H as [Hy Hl].
  destruct i; cbn in E; [now injection E as <-|]. now apply (IH i).
Qed.

(** A frame that does not release the loop sets no timer and changes
    neither the stage nor the mix flag. *)
Lemma gameLoop_no_release w :
  saturates EvTick w = false -> rafActive (host w) = true ->
  timers (host (gameLoop w)) = timers (host w)
  /\ stage (ui (gameLoop w)) = stage (ui w)
  /\ vocalActive (stateRef (gameLoop w)) = vocalActive (stateRef w).
Proof.
  intros S R. split_app w. red_app. subst.
  destruct ctx0, gainClock0; red_app; try now repeat split.
  destruct isLooping0; red_app.
  - rewrite S. red_app. now repeat split.
  - destruct vocalActive0; red_app; [destruct (stemVolumes _) as [[? ?] ?]|];
      red_app; now repeat split.
Qed.

Lemma initAudio_keeps b sb t0 w :
  timers (host (initAudio b sb t0 w)) = timers (host w)
  /\ vocalActive (stateRef (initAudio b sb t0 w)) = vocalActive (stateRef w)
  /\ (stage (ui (initAudio b sb t0 w)) = stage (ui w)
      \/ stage (ui (initAudio b sb t0 w)) = Syncing).
Proof. split_app w. branches; repeat split; auto. Qed.

Lemma handleStop_timers value w :
  timers (host (handleStop value w)) = timers (host w)
  \/ exists c d, timers (host (handleStop value w))
                 = timers (host w) ++ [mkTimer d (StopReset c)].
Proof. split_app w. branches; eauto. Qed.

(** With no mix timer pending and the mix inactive, an event that does not
    release the loop keeps it so. *)
Lemma step_keeps_mix_inactive e w :
  saturates e w = false ->
  pendingMix w = false -> vocalActive (stateRef w) = false ->
  stage (ui w) <> MixActive ->
  pendingMix (step e w) = false /\ vocalActive (stateRef (step e w)) = false
  /\ stage (ui (step e w)) <> MixActive.
Proof.
  intros S P V G. destruct e; cbn [step].
  - destruct (rafActive (host w)) eqn:R; [|now repeat split].
    destruct (gameLoop_no_release w S R) as (T1 & T2 & T3).
    rewrite pendingMix_existsb in *. rewrite T1, T2, T3. now repeat split.
  - unfold handleDown. destruct (isInputKey key); [split_app w|]; now repeat split.
  - unfold handleUp. destruct (isInputKey key); [split_app w|]; now repeat split.
  - unfold elapse. destruct (_ && _); [split_app w|]; now repeat split.
  - unfold fireTimer. destruct (timers (host w) !! i) as [t|] eqn:T; [|now repeat split].
    destruct (Qleb (due t) (wall (host w))); [|now repeat split].
    rewrite pendingMix_existsb in P.
    pose proof (existsb_lookup _ _ _ _ P T) as A. unfold isMixTimer in A.
    destruct (action t) as [|c]; [discriminate|]. cbn [runTimer].
    destruct (stopReset_effect c (removeTimer i w)) as (_ & _ & E3 & E4 & E5).
    destruct (removeTimer_projections i w) as (_ & _ & _ & _ & _ & _ & R7 & _).
    cbv zeta in *. rewrite pendingMix_existsb, E3, E4, E5, R7.
    split; [now apply existsb_delete|]. now split.
  - destruct (Qleb 0 t0); [|now repeat split].
    destruct (initAudio_keeps clockBuf selectedBuffers t0 w) as (T1 & T2 & T3).
    rewrite pendingMix_existsb in *. rewrite T1, T2.
    repeat split; trivial. destruct T3 as [-> | ->]; [exact G|discriminate].
  - rewrite handleStop_stateRef. rewrite pendingMix_existsb in *.
    split; [|split; [exact V|]].
    + destruct (handleStop_timers value w) as [-> | (c & d & ->)]; [exact P|].
      rewrite existsb_app, P. reflexivity.
    + destruct (ctx (audioRef w)) as [c|] eqn:C, (gainClock (audioRef w)) as [gc|] eqn:Gc;
        unfold handleStop; rewrite C, ?Gc; exact G.
  - split_app w. now repeat split.
Qed.

Lemma run_keeps_mix_inactive es : forall w,
  neverSaturates es w = true ->
  pendingMix w = false -> vocalActive (stateRef w) = false ->
  stage (ui w) <> MixActive ->
  pendingMix (run es w) = false /\ vocalActive (stateRef (run es w)) = false
  /\ stage (ui (run es w)) <> MixActive.
Proof.
  induction es as [|e es IH]; intros w N P V G; [now repeat split|].
  cbn [neverSaturates] in N. apply andb_prop in N as [Ne Ns].
  apply negb_true_iff in Ne.
  destruct (step_keeps_mix_inactive e w Ne P V G) as (P1 & V1 & G1).
  cbn [run fold_left]. fold (run es (step e w)). now apply IH.
Qed.

(** Neither handleStop nor its reset callback removes a pending timer.  When
    no mix-activation timer happens to be pending at the reset, the stage
    does not become MixActive and the mix flag stays off for as long as no
    frame of a connected, looping session saturates the gauge again. *)
Lemma stop_keeps_timers_and_stays_idle_without_them c w es :
  pendingMix w = false -> neverSaturates es (stopReset c w) = true ->
  (forall value w0 t, In t (timers (host w0)) ->
                      In t (timers (host (handleStop value w0))))
  /\ (forall k w0, timers (host (stopReset k w0)) = timers (host w0))
  /\ (stage (ui (stopReset c w)) = Idle
      /\ vocalActive (stateRef (stopReset c w)) = false
      /\ gauge (stateRef (stopReset c w)) = 0)
  /\ (let w' := run es (stopReset c w) in
      stage (ui w') <> MixActive /\ vocalActive (stateRef w') = false
      /\ pendingMix w' = false).
Proof.
  intros P N.
  destruct (stopReset_effect c w) as (_ & _ & E3 & E4 & E5). cbv zeta in *.
  split; [|split; [|split]].
  - intros value w0 t I.
    destruct (handleStop_timers value w0) as [-> | (k & d & ->)];
      [exact I | apply in_or_app; now left].
  - intros k w0. now destruct (stopReset_effect k w0) as (_ & _ & _ & _ & E).
  - rewrite E3, E4. now repeat split.
  - destruct (run_keeps_mix_inactive es (stopReset c w) N) as (P1 & V1 & G1).
    + now rewrite pendingMix_existsb, E5.
    + now rewrite E3.
    + now rewrite E4.
    + now repeat split.
Qed.

Lemma stop_keeps_timers_and_stays_idle_without_them_witness :
  let w := run (connectAndHold fullSong 11
                ++ [EvStop (fun _ => 1); EvElapse (num 10000) (num 10)])
               (mounted "Misty") in
  let es := [EvTick; EvKeyUp " "; EvTick;
             EvConnect clock48k fullSong 0; EvKeyDown " "; EvTick; EvTick] in
  (pendingMix (removeTimer 0 w) = false
   /\ neverSaturates es (stopReset 0 (removeTimer 0 w)) = true)
  /\ stage (ui (run es (stopReset 0 (removeTimer 0 w)))) <> MixActive.
Proof.
  cbv zeta.
  set (w := removeTimer 0 (run (connectAndHold fullSong 11
                ++ [EvStop (fun _ => 1); EvElapse (num 10000) (num 10)])
               (mounted "Misty"))).
  set (es := [EvTick; EvKeyUp " "; EvTick;
             EvConnect clock48k fullSong 0; EvKeyDown " "; EvTick; EvTick]).
  assert (H : pendingMix w = false /\ neverSaturates es (stopReset 0 w) = true)
    by (split; vm_compute; reflexivity).
  split; [exact H|]. destruct H as (P & N).
  destruct (stop_keeps_timers_and_stays_idle_without_them 0%nat w es P N)
    as (_ & _ & _ & G & _).
  exact G.
Defined.

(** C2 (code bug).  The claim fails on this session: the listener connects,
    holds the space bar from 11 s until the gauge saturates and the loop is
    released (the mix timer is set, due at 31 s), lets go and presses stop.
    Ten seconds later the reset callback runs, under its comment "Reset all
    state to initial stage": stage Idle, mix flag off, gauge 0, references
    cleared, "DISCONNECTED" -- and the release's timer is still pending,
    because handleStop cancelled nothing.  Ten seconds after that the stale
    timer fires: with no new session and no saturation since, the stage is
    MixActive again, the mix flag is on and the status line reads
    "MUSIC ACTIVE", in a component that holds no audio context and shows the
    connect button. *)
Lemma stale_mix_timer_undoes_reset :
  let w1 := run stopAfterRelease (mounted "Misty") in
  let w2 := run stopThenStaleTimer (mounted "Misty") in
  (stage (ui w1) = Idle /\ vocalActive (stateRef w1) = false
   /\ this (gauge (stateRef w1)) = 0%Q
   /\ statusText (ui w1) = "DISCONNECTED"%string
   /\ ctx (audioRef w1) = None /\ pendingTimers w1 = [(31000%Q, ActivateMix)])
  /\ (stage (ui w2) = MixActive /\ vocalActive (stateRef w2) = true
      /\ this (gauge (stateRef w2)) = 0%Q
      /\ statusText (ui w2) = "MUSIC ACTIVE"%string
      /\ ctx (audioRef w2) = None /\ isReady (ui w2) = false
      /\ pendingTimers w2 = []).
Proof.
  cbv zeta. split.
  - through_hold ready_fullSong_11
      [EvKeyUp " "; EvStop (fun _ => 1); EvElapse (num 10000) (num 10); EvTimer 1] v.
    repeat split; vm_compute; reflexivity.
  - through_hold ready_fullSong_11
      ([EvKeyUp " "; EvStop (fun _ => 1); EvElapse (num 10000) (num 10); EvTimer 1]
       ++ [EvElapse (num 10000) (num 10); EvTimer 0]) v.
    repeat split; vm_compute; reflexivity.
Qed.

(** * Further properties of the component *)

(** ** The gauge in closed form *)





(** ** The visual gauge *)

(** A frame moves the visual gauge a tenth of the way to a level in [0,1]. *)
Lemma gameLoop_visualGauge w :
  exists level,
    (0 <= level /\ level <= 1)
    /\ visualGauge (stateRef (gameLoop w))
       = visualGauge (stateRef w) + (level - visualGauge (stateRef w)) * num 0.1.
Proof.
  split_app w.
  pose proof (gaugeInput_bounds
                (mkStateRef gauge0 visualGauge0 isLooping0 vocalActive0 isLeaning0))
    as [B0 B1].
  branches; (eexists; split; cycle 1; [reflexivity|]); clear - B0 B1; split; qlra.
Qed.

Lemma step_visualGauge e w :
  visualGauge (stateRef (step e w)) = visualGauge (stateRef w)
  \/ visualGauge (stateRef (step e w)) = 0
  \/ exists level,
       (0 <= level /\ level <= 1)
       /\ visualGauge (stateRef (step e w))
          = visualGauge (stateRef w) + (level - visualGauge (stateRef w)) * num 0.1.
Proof.
  destruct e; cbn [step].
  - destruct (rafActive (host w)); [right; right; apply gameLoop_visualGauge | now left].
  - left. unfold handleDown. now destruct (isInputKey key).
  - left. unfold handleUp. now destruct (isInputKey key).
  - left. unfold elapse. now destruct (_ && _).
  - unfold fireTimer. destruct (timers (host w) !! i) as [[d []]|];
      [destruct (Qleb _ _) .. |]; auto.
  - left. destruct (Qleb 0 t0); [now rewrite initAudio_stateRef | reflexivity].
  - left. now rewrite handleStop_stateRef.
  - now left.
Qed.

(** X2.  The smoothed level handed to the renderer stays in [0,1] after every run
    of events, so the liquid's offset 300 - 300 v stays in [0,300]. *)
Theorem visual_gauge_stays_in_unit_range (es : list Event) (sel : string) :
  let v := visualGauge (stateRef (run es (mounted sel))) in
  (0 <= v /\ v <= 1)
  /\ (0 <= num 300 - v * num 300 /\ num 300 - v * num 300 <= num 300).
Proof.
  cbv zeta.
  assert (H : 0 <= visualGauge (stateRef (run es (mounted sel)))
              /\ visualGauge (stateRef (run es (mounted sel))) <= 1).
  { apply (run_invariant
             (fun w => 0 <= visualGauge (stateRef w) /\ visualGauge (stateRef w) <= 1));
      [|cbn; split; qlra].
    clear. intros e w [H0 H1].
    destruct (step_visualGauge e w) as [-> | [-> | (level & [L0 L1] & ->)]];
      [now split | split; qlra | split; qlra]. }
  split; [exact H|]. destruct H as [H0 H1]. split; qlra.
Qed.

(** ** The audio references are all there or all gone *)

Lemma gameLoop_graph w :
  let a := audioRef w in
  let a' := audioRef (gameLoop w) in
  ctx a' = ctx a /\ clockSrc a' = clockSrc a /\ gainClock a' = gainClock a
  /\ gainOther a' = gainOther a /\ gainBass a' = gainBass a
  /\ gainDrums a' = gainDrums a /\ gainVocals a' = gainVocals a
  /\ startTime a' = startTime a.
Proof. split_app w. branches; repeat split. Qed.

Lemma initAudio_graph b sb t0 w :
  audioRef (initAudio b sb t0 w) = audioRef w
  \/ connected (audioRef (initAudio b sb t0 w)).
Proof.
  split_app w. branches; auto; right; unfold connected; red_app; repeat split; eauto.
Qed.

(** ** What changes the stage and the loop latch *)

Lemma gameLoop_stage w : stage (ui (gameLoop w)) = stage (ui w).
Proof. split_app w. branches; reflexivity. Qed.

Lemma gameLoop_vocalActive w :
  vocalActive (stateRef (gameLoop w)) = vocalActive (stateRef w).
Proof. split_app w. branches; reflexivity. Qed.

Lemma initAudio_stage b sb t0 w :
  stage (ui (initAudio b sb t0 w)) = stage (ui w)
  \/ stage (ui (initAudio b sb t0 w)) = Syncing.
Proof. now destruct (initAudio_keeps b sb t0 w) as (_ & _ & H). Qed.


Lemma gameLoop_timers w :
  timers (host (gameLoop w)) = timers (host w)
  \/ exists d, timers (host (gameLoop w)) = timers (host w) ++ [mkTimer d ActivateMix].
Proof. split_app w. branches; eauto. Qed.

Lemma gameLoop_isLooping w :
  isLooping (stateRef (gameLoop w)) = isLooping (stateRef w)
  \/ (isLooping (stateRef w) = true /\ isLooping (stateRef (gameLoop w)) = false).
Proof. split_app w. branches; auto. Qed.

Lemma mixTimers_app w t ts :
  timers (host w) = ts ++ [t] ->
  mixTimers w = (length (List.filter isMixTimer ts) + (if isMixTimer t then 1 else 0))%nat.
Proof.
  intros E. unfold mixTimers. rewrite E, List.filter_app, length_app.
  cbn. now destruct (isMixTimer t).
Qed.

Lemma filter_delete_le {A} (f : A -> bool) i (l : list A) :
  (length (List.filter f (delete i l)) <= length (List.filter f l))%nat.
Proof.
  revert i. induction l as [|x l IH]; intros i; [destruct i; cbn; lia|].
  destruct i as [|i].
  - change (delete 0%nat (x :: l)) with l. cbn [List.filter].
    destruct (f x); cbn [length]; lia.
  - change (delete (S i) (x :: l)) with (x :: delete i l). cbn [List.filter].
    specialize (IH i). destruct (f x); cbn [length]; lia.
Qed.

(** Key events, the passing of time and completed loads touch neither the
    timers nor the latch. *)
Lemma passive_step e w :
  match e with EvKeyDown _ | EvKeyUp _ | EvElapse _ _ | EvLoaded _ _ => True
          | _ => False end ->
  timers (host (step e w)) = timers (host w)
  /\ isLooping (stateRef (step e w)) = isLooping (stateRef w).
Proof.
  intros P. destruct e; try destruct P; cbn [step];
    unfold handleDown, handleUp, elapse;
    repeat match goal with |- context [if ?b then _ else _] => destruct b end;
    split_app w; now split.
Qed.

(** X5.  The loop latch and the mix timer.  The latch is released only by a frame
    that saturates the gauge of a live, looping session, and re-armed only by
    a due reset timer (connecting again does not re-arm it).  An event leaves
    at most one more mix timer pending than before, and only a saturating
    frame does: once the latch is released, no later frame, however long the
    gauge stays at 100, sets a second one. *)
Theorem loop_latch_and_mix_timer (e : Event) (w : App) :
  let w' := step e w in
  (isLooping (stateRef w) = true -> isLooping (stateRef w') = false ->
   saturates e w = true)
  /\ (isLooping (stateRef w) = false -> isLooping (stateRef w') = true ->
      exists i t c, e = EvTimer i /\ timers (host w) !! i = Some t
                    /\ action t = StopReset c /\ due t <= wall (host w))
  /\ (mixTimers w' <= mixTimers w + 1)%nat
  /\ ((mixTimers w < mixTimers w')%nat -> saturates e w = true)
  /\ (isLooping (stateRef w) = false -> (mixTimers w' <= mixTimers w)%nat).
Proof.
  cbv zeta.
  assert (M : (mixTimers (step e w) <= mixTimers w + 1)%nat
              /\ ((mixTimers w < mixTimers (step e w))%nat -> saturates e w = true)).
  { destruct e;
      try (match goal with |- context [step ?e w] =>
             destruct (passive_step e w I) as (E & _) end;
           unfold mixTimers; rewrite E; split; lia);
      cbn [step].
    - destruct (rafActive (host w)) eqn:R; [|split; [lia|lia]].
      destruct (saturates EvTick w) eqn:S.
      + split; [|reflexivity].
        destruct (gameLoop_timers w) as [E | (d & E)]; unfold mixTimers at 1;
          rewrite E; [unfold mixTimers; lia|].
        rewrite List.filter_app, length_app. cbn. unfold mixTimers. lia.
      + destruct (gameLoop_no_release w S R) as (E & _).
        unfold mixTimers. rewrite E. split; lia.
    - unfold fireTimer. destruct (timers (host w) !! i) as [t|]; [|split; lia].
      destruct (Qleb _ _); [|split; lia].
      assert (T : timers (host (runTimer (action t) (removeTimer i w)))
                  = delete i (timers (host w))).
      { destruct (removeTimer_projections i w) as (_ & _ & _ & _ & _ & _ & R7 & _).
        destruct (action t) as [|c]; cbn [runTimer].
        - now destruct (activateMix_effect (removeTimer i w)) as (_ & _ & _ & _ & -> & _).
        - now destruct (stopReset_effect c (removeTimer i w)) as (_ & _ & _ & _ & ->). }
      unfold mixTimers. rewrite T.
      pose proof (filter_delete_le isMixTimer i (timers (host w))). split; lia.
    - destruct (Qleb 0 t0); [|split; lia].
      destruct (initAudio_keeps clockBuf selectedBuffers t0 w) as (E & _).
      unfold mixTimers. rewrite E. split; lia.
    - destruct (handleStop_timers value w) as [E | (c & d & E)];
        unfold mixTimers; rewrite E; [split; lia|].
      rewrite List.filter_app, length_app. cbn. split; lia. }
  destruct M as (M1 & M2).
  split; [|split; [|split; [exact M1|split; [exact M2|]]]].
  - intros L1 L2. destruct e;
      try (match type of L2 with context [step ?e w] =>
             destruct (passive_step e w I) as (_ & E) end; congruence);
      cbn [step] in L2.
    + destruct (rafActive (host w)) eqn:R; [|congruence].
      destruct (saturates EvTick w) eqn:S; [reflexivity|].
      exfalso. revert L2. clear M1 M2. split_app w. red_app. subst.
      destruct ctx0, gainClock0; red_app; try discriminate.
      rewrite S. red_app. discriminate.
    + unfold fireTimer in L2. destruct (timers (host w) !! i) as [t|]; [|congruence].
      destruct (Qleb _ _); [|congruence].
      destruct (action t) as [|c]; cbn [runTimer] in L2.
      * destruct (activateMix_effect (removeTimer i w)) as (_ & _ & _ & _ & _ & _ & E).
        rewrite E in L2. destruct (removeTimer_projections i w) as (_ & _ & E' & _).
        rewrite E' in L2. congruence.
      * destruct (stopReset_effect c (removeTimer i w)) as (_ & _ & E & _).
        rewrite E in L2. discriminate.
    + destruct (Qleb 0 t0); [rewrite initAudio_stateRef in L2|]; congruence.
    + rewrite handleStop_stateRef in L2. congruence.
  - intros L1 L2. destruct e;
      try (match type of L2 with context [step ?e w] =>
             destruct (passive_step e w I) as (_ & E) end; congruence);
      cbn [step] in L2.
    + destruct (rafActive (host w)); [|congruence].
      destruct (gameLoop_isLooping w) as [E | (E & _)]; congruence.
    + unfold fireTimer in L2. destruct (timers (host w) !! i) as [t|] eqn:T; [|congruence].
      destruct (Qleb (due t) (wall (host w))) eqn:D; [|congruence].
      apply Qleb_le in D.
      destruct (action t) as [|c] eqn:A; cbn [runTimer] in L2.
      * destruct (activateMix_effect (removeTimer i w)) as (_ & _ & _ & _ & _ & _ & E).
        rewrite E in L2. destruct (removeTimer_projections i w) as (_ & _ & E' & _).
        rewrite E' in L2. congruence.
      * exists i, t, c. now repeat split.
    + destruct (Qleb 0 t0); [rewrite initAudio_stateRef in L2|]; congruence.
    + rewrite handleStop_stateRef in L2. congruence.
  - intros L. destruct (Nat.lt_ge_cases (mixTimers w) (mixTimers (step e w))) as [Lt|Ge];
      [|exact Ge].
    specialize (M2 Lt). exfalso. revert M2. unfold saturates.
    destruct e; try discriminate.
    destruct (ctx (audioRef w)), (gainClock (audioRef w)); try discriminate.
    rewrite L, andb_false_r. discriminate.
Qed.

(** ** The clock's loop window *)

Lemma Math_floor_window (x : Qc) : Math_floor x <= x /\ x < Math_floor x + 1.
Proof.
  pose proof (Qfloor_le x) as F1. pose proof (Qlt_floor x) as F2.
  rewrite inject_Z_plus in F2. change (inject_Z 1) with 1%Q in F2.
  unfold Math_floor, Qcle, Qclt, Qcplus, Q2Qc. cbn [this].
  rewrite this_num_inject_Z, Qred_correct. change (this 1) with 1%Q.
  change (Qred 1) with 1%Q. split; lra.
Qed.

Lemma Math_floor_integer (k : Z) : Math_floor (num (inject_Z k)) = num (inject_Z k).
Proof.
  unfold Math_floor. rewrite this_num_inject_Z, Qfloor_Z. reflexivity.
Qed.

Lemma loop_window (sr : Qc) :
  0 < sr ->
  let loopEnd := Math_floor (CONFIG.loopEndTime * sr) / sr in
  (CONFIG.loopEndTime - 1 / sr < loopEnd /\ loopEnd <= CONFIG.loopEndTime)
  /\ (forall k : Z, sr = num (inject_Z k) -> loopEnd = CONFIG.loopEndTime).
Proof.
  intros P. cbv zeta.
  assert (N : sr <> 0) by (intros E; rewrite E in P; discriminate P).
  destruct (Math_floor_window (CONFIG.loopEndTime * sr)) as [F1 F2].
  set (f := Math_floor (CONFIG.loopEndTime * sr)) in *.
  assert (I : 0 < / sr).
  { unfold Qclt in *. unfold Qcinv, Q2Qc. cbn [this]. rewrite !Qred_correct.
    apply Qinv_lt_0_compat. exact P. }
  assert (E : CONFIG.loopEndTime = CONFIG.loopEndTime * sr / sr) by (field; exact N).
  split; [split|].
  - replace (CONFIG.loopEndTime - 1 / sr)
      with ((CONFIG.loopEndTime * sr - 1) / sr) by (field; exact N).
    unfold Qcdiv. apply Qcmult_lt_compat_r; [exact I|].
    clear - F2. unfold Qclt, Qcminus, Qcplus, Qcopp, Q2Qc in *. cbn [this] in *.
    rewrite !Qred_correct in *. change (this 1) with 1%Q in *. lra.
  - apply Qcle_trans with (CONFIG.loopEndTime * sr / sr);
      [|rewrite <- E; apply Qcle_refl].
    unfold Qcdiv. apply Qcmult_le_compat_r; [exact F1|].
    now apply Qclt_le_weak.
  - intros k K. subst f.
    replace (CONFIG.loopEndTime * sr) with (num (inject_Z (7 * k))).
    + rewrite Math_floor_integer.
      replace (num (inject_Z (7 * k))) with (CONFIG.loopEndTime * sr); [now rewrite <- E|].
      rewrite K. apply Qc_is_canon. unfold CONFIG.loopEndTime, Qcmult, Q2Qc. cbn [this].
      rewrite !Qred_correct, !this_num_inject_Z. unfold num, Q2Qc. cbn [this].
      rewrite !Qred_correct, inject_Z_mult. change 7.0%Q with (70 # 10)%Q.
      change (inject_Z 7) with 7%Q. lra.
    + rewrite K. apply Qc_is_canon. unfold CONFIG.loopEndTime, Qcmult, Q2Qc. cbn [this].
      rewrite !Qred_correct, !this_num_inject_Z. unfold num, Q2Qc. cbn [this].
      rewrite !Qred_correct, inject_Z_mult. change 7.0%Q with (70 # 10)%Q.
      change (inject_Z 7) with 7%Q. lra.
Qed.


(** ** The anchor and the context clock *)

Lemma gameLoop_currentTime w : currentTime (host (gameLoop w)) = currentTime (host w).
Proof. split_app w. branches; reflexivity. Qed.

Lemma step_anchor e w :
  0 <= startTime (audioRef w) /\ startTime (audioRef w) <= currentTime (host w) ->
  0 <= startTime (audioRef (step e w))
  /\ startTime (audioRef (step e w)) <= currentTime (host (step e w)).
Proof.
  intros [H0 H1]. destruct e; cbn [step].
  - destruct (rafActive (host w)); [|now split].
    destruct (gameLoop_graph w) as (_ & _ & _ & _ & _ & _ & _ & E).
    cbv zeta in E. rewrite E, gameLoop_currentTime. now split.
  - unfold handleDown. destruct (isInputKey key); [split_app w|]; now split.
  - unfold handleUp. destruct (isInputKey key); [split_app w|]; now split.
  - unfold elapse. destruct (Qleb 0 dWallMs); cbn [andb]; [|now split].
    destruct (Qleb 0 dAudio) eqn:A; [|now split]. apply Qleb_le in A.
    split_app w. cbn in *. split; [exact H0|]. clear - H1 A. qlra.
  - unfold fireTimer. destruct (timers (host w) !! i) as [[d [|c]]|]; [| |now split];
      (destruct (Qleb _ _); [|now split]); cbn [action runTimer];
      split_app w; cbn in *; split; trivial; clear - H0 H1; qlra.
  - destruct (Qleb 0 t0) eqn:T; [|now split]. apply Qleb_le in T.
    split_app w. cbn in H0, H1. branches; cbn; split; trivial; apply Qcle_refl.
  - split_app w. cbn in H0, H1. branches; cbn; now split.
  - split_app w. now split.
Qed.


(** ** The input keys *)

Lemma step_isLeaning e w :
  isLeaning (stateRef (step e w)) = lastInputKey [e] (isLeaning (stateRef w)).
Proof.
  destruct e; cbn [step lastInputKey].
  - destruct (rafActive (host w)); [apply gameLoop_isLeaning | reflexivity].
  - unfold handleDown. now destruct (isInputKey key).
  - unfold handleUp. now destruct (isInputKey key).
  - unfold elapse. now destruct (_ && _).
  - unfold fireTimer. destruct (timers (host w) !! i) as [[d [|c]]|]; [| |reflexivity];
      (destruct (Qleb _ _); [|reflexivity]); reflexivity.
  - destruct (Qleb 0 t0); [now rewrite initAudio_stateRef | reflexivity].
  - now rewrite handleStop_stateRef.
  - reflexivity.
Qed.

Lemma lastInputKey_app es1 es2 held :
  lastInputKey (es1 ++ es2) held = lastInputKey es2 (lastInputKey es1 held).
Proof.
  revert held. induction es1 as [|e es1 IH]; intros held; [reflexivity|].
  destruct e; cbn [app lastInputKey]; apply IH.
Qed.

(** X8.  Whether the gauge charges is decided by the last input-key event alone:
    a key-down of the space bar or Enter sets the leaning flag, a key-up of
    either clears it, other keys and every other event (frames, timers,
    connecting, stopping, the reset) leave it.  Keys are not counted: with
    both input keys down, releasing one stops the charge. *)
Theorem leaning_follows_last_input_key (es : list Event) (w : App) :
  isLeaning (stateRef (run es w)) = lastInputKey es (isLeaning (stateRef w))
  /\ (forall k1 k2, isInputKey k1 = true -> isInputKey k2 = true ->
        isLeaning (stateRef (run (es ++ [EvKeyDown k1; EvKeyDown k2; EvKeyUp k1]) w))
        = false).
Proof.
  assert (G : forall es w,
             isLeaning (stateRef (run es w)) = lastInputKey es (isLeaning (stateRef w))).
  { clear. induction es as [|e es IH]; intros w; [reflexivity|].
    cbn [run fold_left]. fold (run es (step e w)).
    rewrite IH, step_isLeaning. now destruct e. }
  split; [apply G|]. intros k1 k2 K1 K2.
  rewrite G, lastInputKey_app. cbn [lastInputKey]. now rewrite K1.
Qed.

(** ** The levels asked of the gains *)

Lemma releaseLoop_levels w :
  exists added, calls (host (releaseLoop w)) = calls (host w) ++ added
                /\ Forall levelInRange added.
Proof.
  split_app w. branches;
    first [ exists []; split; [now rewrite app_nil_r | constructor]
          | rewrite <- ?app_assoc; eexists; split; [reflexivity|];
            cbn [app]; repeat constructor ].
Qed.

Lemma gameLoop_levels w :
  exists added, calls (host (gameLoop w)) = calls (host w) ++ added
                /\ Forall levelInRange added.
Proof.
  pose proof (gaugeInput_bounds (stateRef w)) as [B0 B1].
  pose proof (bands_range _ B0 B1) as R. rewrite <- (gameLoop_gauge w) in *.
  destruct (ctx (audioRef w)) as [c|] eqn:C; cycle 1.
  { exists []. split; [|constructor]. rewrite app_nil_r.
    clear - C. split_app w. cbn in C. subst. reflexivity. }
  destruct (gainClock (audioRef w)) as [gc|] eqn:G; cycle 1.
  { exists []. split; [|constructor]. rewrite app_nil_r.
    clear - G. split_app w. cbn in G. subst. branches; reflexivity. }
  rewrite gameLoop_gauge in *.
  destruct (isLooping (stateRef w)) eqn:L.
  - destruct (Qleb (num 100) (gaugeInput (stateRef w))) eqn:S.
    + apply Qleb_le in S. rewrite (gameLoop_saturating w c gc C G L S). cbv zeta.
      match goal with |- context [requestAnimationFrame (upd_stateRef ?f (emits ?cs ?r))] =>
        pose proof (frame_tail_projections f cs r) as (_ & Fc & _);
        cbv zeta in Fc; rewrite Fc;
        destruct (releaseLoop_levels (upd_stateRef (set_gauge (gaugeInput (stateRef w))) w))
          as (added & -> & F)
      end.
      eexists. split; [rewrite <- app_assoc; split_app w; reflexivity|].
      apply Forall_app. split; [exact F|].
      repeat constructor; clear - B0 B1; qlra.
    + exists [SetTargetAtTime gc (gaugeInput (stateRef w) / num 100)
                (currentTime (host w)) (num 0.05)].
      split; [|repeat constructor; clear - B0 B1; qlra].
      clear - C G L S. split_app w. red_app. subst. rewrite S. reflexivity.
  - destruct (vocalActive (stateRef w)) eqn:V.
    + rewrite (gameLoop_mix_calls w c gc C G L V). cbv zeta.
      eexists. split; [reflexivity|].
      destruct R as ((R1 & R2) & (R3 & R4) & (R5 & R6)).
      repeat (apply Forall_app; split);
        try (destruct (gainBass (audioRef w))); try (destruct (gainDrums (audioRef w)));
        try (destruct (gainVocals (audioRef w)));
        cbn [setTarget]; repeat constructor; trivial; qlra.
    + exists [SetTargetAtTime gc (num 1.0) (currentTime (host w)) (num 0.05)].
      split; [|repeat constructor; qlra].
      clear - C G L V. split_app w. red_app. subst. reflexivity.
Qed.

Lemma step_levels e w :
  exists added, calls (host (step e w)) = calls (host w) ++ added
                /\ Forall levelInRange added.
Proof.
  assert (N : forall w', calls (host w') = calls (host w) ->
            exists added, calls (host w') = calls (host w) ++ added
                          /\ Forall levelInRange added).
  { intros w' E. exists []. split; [now rewrite app_nil_r | constructor]. }
  destruct e; cbn [step].
  - destruct (rafActive (host w)); [apply gameLoop_levels | now apply N].
  - apply N. unfold handleDown. now destruct (isInputKey key).
  - apply N. unfold handleUp. now destruct (isInputKey key).
  - apply N. unfold elapse. now destruct (_ && _).
  - unfold fireTimer. destruct (timers (host w) !! i) as [[d [|c]]|]; [| |now apply N];
      (destruct (Qleb _ _); [|now apply N]); cbn [action runTimer].
    + apply N. now destruct (activateMix_effect (removeTimer i w)) as (_ & _ & _ & _ & -> & _).
    + destruct (stopReset_effect c (removeTimer i w)) as (-> & _). cbv zeta.
      eexists. split; [reflexivity|]. clear.
      apply List.Forall_forall. intros x [H|H]%in_app_or.
      * apply in_flat_map in H as ([n|] & _ & H); [|destruct H].
        destruct H as [<-|[]]. exact I.
      * destruct H as [<-|[]]. exact I.
  - destruct (Qleb 0 t0); [|now apply N]. clear N.
    split_app w. branches;
      first [ exists []; split; [now rewrite app_nil_r | constructor]
            | rewrite <- ?app_assoc; eexists; split; [reflexivity|];
              cbn [app map]; repeat constructor ].
  - destruct (ctx (audioRef w)) as [c|] eqn:C; cycle 1.
    { apply N. unfold handleStop. now rewrite C. }
    destruct (gainClock (audioRef w)) as [gc|] eqn:G; cycle 1.
    { apply N. unfold handleStop. now rewrite C, G. }
    destruct (handleStop_effect value w c gc C G) as (-> & _).
    eexists. split; [reflexivity|]. apply List.Forall_forall. intros x H.
    apply fadeOutGain_only in H as (g & _ & [-> | [-> | ->]]); exact I || reflexivity.
  - now apply N.
Qed.

(** X9.  Every level the component ever asks of a gain is in range: after every
    run of events, each smoothing target it has sent is in [0,1] with time
    constant 0.05, and each initial gain value and each ramp end is 0. *)
Theorem gain_levels_stay_in_range (es : list Event) (sel : string) :
  Forall levelInRange (calls (host (run es (mounted sel)))).
Proof.
  apply (run_invariant (fun w => Forall levelInRange (calls (host w))));
    [|constructor].
  intros e w F. destruct (step_levels e w) as (added & -> & A).
  apply Forall_app. now split.
Qed.

(** ** Before the first connection, and after a reset *)

Lemma step_before_connect e w l :
  isConnect e = false ->
  calls (host w) = [] /\ timers (host w) = [] /\ audioRef w = nullAudioRef
  /\ stateRef w = mkStateRef 0 0 true false l /\ rafActive (host w) = false ->
  exists l',
    calls (host (step e w)) = [] /\ timers (host (step e w)) = []
    /\ audioRef (step e w) = nullAudioRef
    /\ stateRef (step e w) = mkStateRef 0 0 true false l'
    /\ rafActive (host (step e w)) = false
    /\ ui (step e w) = ui w.
Proof.
  intros N (C & T & A & S & R). destruct e; try discriminate N; cbn [step].
  - rewrite R. exists l. now repeat split.
  - unfold handleDown. destruct (isInputKey key); [|exists l; now repeat split].
    exists true. split_app w. cbn in *. inversion S. now repeat split.
  - unfold handleUp. destruct (isInputKey key); [|exists l; now repeat split].
    exists false. split_app w. cbn in *. inversion S. now repeat split.
  - unfold elapse. destruct (_ && _); [|exists l; now repeat split].
    exists l. split_app w. cbn in *. now repeat split.
  - unfold fireTimer. rewrite T. exists l. now repeat split.
  - unfold handleStop. rewrite A. exists l. now repeat split.
  - exists l. split_app w. now repeat split.
Qed.

(** X10.  Until the listener connects, nothing happens: whatever keys are pressed,
    frames requested, timers fired or stops asked, the component makes no
    call on the audio API, sets no timer, holds no audio reference, keeps the
    gauge at 0 (the frame loop is not running yet) and shows what it showed
    when mounted. *)
Theorem nothing_happens_before_connecting (es : list Event) (sel : string) :
  forallb (fun e => negb (isConnect e)) es = true ->
  let w := run es (mounted sel) in
  calls (host w) = [] /\ timers (host w) = [] /\ audioRef w = nullAudioRef
  /\ gauge (stateRef w) = 0 /\ visualGauge (stateRef w) = 0
  /\ rafActive (host w) = false /\ ui w = ui (mounted sel).
Proof.
  intros N. cbv zeta.
  assert (G : forall es w l,
             forallb (fun e => negb (isConnect e)) es = true ->
             calls (host w) = [] /\ timers (host w) = [] /\ audioRef w = nullAudioRef
             /\ stateRef w = mkStateRef 0 0 true false l /\ rafActive (host w) = false ->
             exists l',
               calls (host (run es w)) = [] /\ timers (host (run es w)) = []
               /\ audioRef (run es w) = nullAudioRef
               /\ stateRef (run es w) = mkStateRef 0 0 true false l'
               /\ rafActive (host (run es w)) = false
               /\ ui (run es w) = ui w).
  { clear. induction es as [|e es IH]; intros w l N H.
    - exists l. destruct H as (C & T & A & S & R). now repeat split.
    - cbn [forallb] in N. apply andb_prop in N as [Ne Ns].
      apply negb_true_iff in Ne.
      destruct (step_before_connect e w l Ne H) as (l1 & C & T & A & S & R & U).
      destruct (IH (step e w) l1 Ns) as (l2 & H2); [now repeat split|].
      exists l2. cbn [run fold_left]. fold (run es (step e w)).
      rewrite <- U. exact H2. }
  destruct (G es (mounted sel) false N) as (l & C & T & A & S & R & U);
    [now repeat split|].
  rewrite S. now repeat split.
Qed.

Lemma nothing_happens_before_connecting_witness :
  let es := [EvKeyDown " "; EvTick; EvElapse (num 1000) (num 1);
             EvStop (fun _ => 1); EvTimer 0; EvTick] in
  forallb (fun e => negb (isConnect e)) es = true
  /\ calls (host (run es (mounted "Misty"))) = []
  /\ gauge (stateRef (run es (mounted "Misty"))) = 0.
Proof.
  cbv zeta. split; [reflexivity|].
  match goal with |- context [run ?es _] =>
    destruct (nothing_happens_before_connecting es "Misty" eq_refl)
      as (C & _ & _ & G & _)
  end.
  split; [exact C | exact G].
Defined.

Lemma step_rafActive e w :
  rafActive (host w) = true -> rafActive (host (step e w)) = true.
Proof.
  intros R. destruct e; cbn [step].
  - rewrite R. apply gameLoop_rafActive.
  - unfold handleDown. now destruct (isInputKey key).
  - unfold handleUp. now destruct (isInputKey key).
  - unfold elapse. now destruct (_ && _).
  - unfold fireTimer. destruct (timers (host w) !! i) as [[d [|c]]|]; [| |exact R];
      (destruct (Qleb _ _); [|exact R]); exact R.
  - destruct (Qleb 0 t0); [|exact R]. revert R. split_app w. branches; trivial.
  - revert R. split_app w. branches; trivial.
  - exact R.
Qed.

(** X11.  Once started, the frame loop never stops: no event cancels the pending
    animation frame, not even the reset that ends a session.  After the
    reset the frames make no call and set no timer, but they still run the
    gauge: with an input key held it charges from 0 while disconnected.
    Connecting does not touch the gauge, the loop latch or the mix flag, so
    what was charged while disconnected is carried into the next session. *)
Theorem frame_loop_outlives_the_session (e : Event) (w : App) (c : nat) :
  (rafActive (host w) = true -> rafActive (host (step e w)) = true)
  /\ (let w1 := stopReset c w in
      let w2 := gameLoop w1 in
      rafActive (host w1) = rafActive (host w)
      /\ calls (host w2) = calls (host w1) /\ timers (host w2) = timers (host w1)
      /\ audioRef w2 = nullAudioRef
      /\ gauge (stateRef w2)
         = (if isLeaning (stateRef w) then CONFIG.gaugeSpeed else 0))
  /\ (forall clockBuf selectedBuffers t0,
        stateRef (step (EvConnect clockBuf selectedBuffers t0) w) = stateRef w).
Proof.
  split; [apply step_rafActive|]. split.
  - cbv zeta. split_app w. red_app. repeat split.
    match goal with |- context [if ?b then _ else _] => destruct b end;
      unfold gaugeInput; red_app; apply Qc_is_canon; reflexivity.
  - intros. cbn [step]. destruct (Qleb 0 t0); [apply initAudio_stateRef | reflexivity].
Qed.

(** ** The asset loader *)

Lemma tryLoad_cases loadFile folder file :
  tryLoad loadFile folder file
  = match loadFile (assetUrl folder file ".wav") with
    | Some b => Some b
    | None =>
        match loadFile (assetUrl folder file ".flac") with
        | Some b => Some b
        | None => loadFile (assetUrl folder file ".mp3")
        end
    end.
Proof.
  unfold tryLoad, extensions. cbn [map List.find].
  destruct (loadFile (assetUrl folder file ".wav")); [reflexivity|].
  destruct (loadFile (assetUrl folder file ".flac")); [reflexivity|].
  now destruct (loadFile (assetUrl folder file ".mp3")).
Qed.

Lemma gameLoop_library w :
  musicBuffersRef (gameLoop w) = musicBuffersRef w
  /\ currentSelected (gameLoop w) = currentSelected w.
Proof. split_app w. branches; now split. Qed.

Lemma gameLoop_unloaded w :
  songLoaded w = false ->
  timers (host (gameLoop w)) = timers (host w)
  /\ startTimes (calls (host (gameLoop w))) = startTimes (calls (host w))
  /\ stage (ui (gameLoop w)) = stage (ui w).
Proof.
  unfold songLoaded. split_app w. red_app. branches; intros; try discriminate;
    repeat split;
    rewrite ?startTimes_app; cbn [startTimes flat_map app];
    now rewrite ?app_nil_r.
Qed.

Lemma step_unloaded e w :
  frameOrInput e = true -> songLoaded w = false ->
  songLoaded (step e w) = false
  /\ timers (host (step e w)) = timers (host w)
  /\ startTimes (calls (host (step e w))) = startTimes (calls (host w))
  /\ stage (ui (step e w)) = stage (ui w).
Proof.
  intros Q L. destruct e; try discriminate Q; cbn [step].
  - destruct (rafActive (host w)); [|now repeat split].
    destruct (gameLoop_library w) as (M & S).
    destruct (gameLoop_unloaded w L) as (T & St & G).
    split; [|now repeat split]. unfold songLoaded in *. now rewrite M, S.
  - unfold handleDown. destruct (isInputKey key); [split_app w|]; now repeat split.
  - unfold handleUp. destruct (isInputKey key); [split_app w|]; now repeat split.
  - unfold elapse. destruct (_ && _); [split_app w|]; now repeat split.
Qed.


Ltac red_switch :=
  cbv beta iota zeta delta
    [handlePause switchTrack selectMusic restartStems restartClock runSwitch
     switchDue switchAction] in *;
  red_app.

(** ** Pause and resume *)

(** X13.  Pausing suspends the audio context and nothing else: the gauge, the loop
    latch, the pending timers and the frame loop are untouched, so a frame
    during a pause moves the gauge, and a timer that comes due during a pause
    changes the stage, as they would have without it.  Without a context the
    click does nothing; on a closed context it does nothing.  Pausing a
    running context and resuming it leaves the context running and the pause
    flag down, with the status line of the phase the session is in: mix
    active, loop released, or still syncing. *)
Theorem pause_suspends_only_the_context (state : ContextState) (w : App) :
  let '(state1, w1) := handlePause state w in
  (stateRef w1 = stateRef w /\ audioRef w1 = audioRef w /\ host w1 = host w
   /\ stage (ui w1) = stage (ui w)
   /\ gauge (stateRef (gameLoop w1)) = gauge (stateRef (gameLoop w))
   /\ (forall i, stage (ui (step (EvTimer i) w1)) = stage (ui (step (EvTimer i) w))
                 /\ stateRef (step (EvTimer i) w1) = stateRef (step (EvTimer i) w)))
  /\ (ctx (audioRef w) = None \/ state = Closed -> state1 = state /\ w1 = w)
  /\ (is_Some (ctx (audioRef w)) ->
      let '(state2, w2) := handlePause Running w in
      let '(state3, w3) := handlePause state2 w2 in
      state2 = Suspended /\ isPaused (ui w2) = true
      /\ statusText (ui w2) = "PAUSED"%string
      /\ state3 = Running /\ isPaused (ui w3) = false
      /\ statusText (ui w3)
         = (if vocalActive (stateRef w) then "MUSIC ACTIVE"
            else if isLooping (stateRef w) then "SYNC TIME (HOLD SPACE)"
            else "SYNC COMPLETE...")%string
      /\ stateRef w3 = stateRef w /\ audioRef w3 = audioRef w /\ host w3 = host w).
Proof.
  destruct (handlePause state w) as [state1 w1] eqn:E.
  assert (F : stateRef w1 = stateRef w /\ audioRef w1 = audioRef w /\ host w1 = host w
              /\ stage (ui w1) = stage (ui w)).
  { revert E. unfold handlePause.
    destruct (ctx (audioRef w)); [|intros [= <- <-]; now repeat split].
    destruct state; intros [= <- <-]; split_app w; red_app;
      repeat match goal with
             | |- context [if ?b then _ else _] => is_var b; destruct b
             end;
      now repeat split. }
  split; [|split].
  - destruct F as (F1 & F2 & F3 & F4). repeat split; trivial.
    + rewrite !gameLoop_gauge. now rewrite F1.
    + cbn [step]. unfold fireTimer. rewrite F3.
      destruct (timers (host w) !! i) as [[d [|c]]|]; [| |exact F4];
        (destruct (Qleb _ _); [|exact F4]); cbn [action runTimer].
      * destruct (activateMix_effect (removeTimer i w1)) as (_ & _ & -> & _).
        now destruct (activateMix_effect (removeTimer i w)) as (_ & _ & -> & _).
      * destruct (stopReset_effect c (removeTimer i w1)) as (_ & _ & _ & -> & _).
        now destruct (stopReset_effect c (removeTimer i w)) as (_ & _ & _ & -> & _).
    + cbn [step]. unfold fireTimer. rewrite F3.
      destruct (timers (host w) !! i) as [[d [|c]]|]; [| |exact F1];
        (destruct (Qleb _ _); [|exact F1]); cbn [action runTimer].
      * assert (A : forall y, stateRef (activateMix y)
                                = mkStateRef 0 (visualGauge (stateRef y))
                                             (isLooping (stateRef y)) true
                                             (isLeaning (stateRef y)))
          by (intros y; now split_app y).
        rewrite !A.
        destruct (removeTimer_projections i w) as (_ & _ & -> & _).
        destruct (removeTimer_projections i w1) as (_ & _ & -> & _).
        now rewrite F1.
      * destruct (stopReset_effect c (removeTimer i w1)) as (_ & _ & -> & _).
        destruct (stopReset_effect c (removeTimer i w)) as (_ & _ & -> & _).
        destruct (removeTimer_projections i w) as (_ & _ & -> & _).
        destruct (removeTimer_projections i w1) as (_ & _ & -> & _).
        now rewrite F1.
  - revert E. unfold handlePause. intros E [C | ->].
    + rewrite C in E. now injection E as <- <-.
    + destruct (ctx (audioRef w)); now injection E as <- <-.
  - intros [c C]. unfold handlePause. rewrite C.
    clear E F. split_app w. red_app. cbn in C. subst.
    repeat match goal with
           | |- context [if ?b then _ else _] => is_var b; destruct b
           end;
      now repeat split.
Qed.

(** ** Switching track *)

Lemma restartStems_effect c gO gB gD gV shown x :
  let a := audioRef x in
  let sel := if String.eqb (selectedMusicRef x) "" then shown else selectedMusicRef x in
  let now := currentTime (host x) in
  let x' := restartStems c gO gB gD gV shown x in
  stateRef x' = stateRef x /\ ui x' = ui x /\ timers (host x') = timers (host x)
  /\ clockSrc (audioRef x') = clockSrc a /\ startTime (audioRef x') = startTime a
  /\ exists added,
       calls (host x')
       = calls (host x)
         ++ flat_map stopSource [otherSrc a; bassSrc a; drumsSrc a; vocalsSrc a]
         ++ added
       /\ match musicBuffersRef x !! sel with
          | Some currentMusic =>
              match other currentMusic with
              | Some _ =>
                  stemStarted (otherSrc (audioRef x')) (other currentMusic) now added
                  /\ stemStarted (bassSrc (audioRef x')) (bass currentMusic) now added
                  /\ stemStarted (drumsSrc (audioRef x')) (drums currentMusic) now added
                  /\ stemStarted (vocalsSrc (audioRef x')) (vocals currentMusic) now added
                  /\ (forall n t, In (Start n t) added -> t = now)
                  /\ In (SetValueAtTime gO (num 1.0) now) added
              | None => added = [] /\ audioRef x' = a
              end
          | None => added = [] /\ audioRef x' = a
          end.
Proof.
  cbv zeta. unfold restartStems.
  set (sel := if String.eqb (selectedMusicRef x) "" then shown else selectedMusicRef x).
  assert (S : (if String.eqb
                    (selectedMusicRef
                       (emits (flat_map stopSource
                                 [otherSrc (audioRef x); bassSrc (audioRef x);
                                  drumsSrc (audioRef x); vocalsSrc (audioRef x)]) x)) ""
               then shown
               else selectedMusicRef
                      (emits (flat_map stopSource
                                [otherSrc (audioRef x); bassSrc (audioRef x);
                                 drumsSrc (audioRef x); vocalsSrc (audioRef x)]) x))
              = sel) by (subst sel; now split_app x).
  cbv zeta. rewrite S. clearbody sel. clear S.
  replace (musicBuffersRef
             (emits (flat_map stopSource
                       [otherSrc (audioRef x); bassSrc (audioRef x);
                        drumsSrc (audioRef x); vocalsSrc (audioRef x)]) x))
    with (musicBuffersRef x) by now split_app x.
  destruct (musicBuffersRef x !! sel) as [[o b d v]|].
  2: { split_app x. red_app. repeat split. exists []. now rewrite app_nil_r. }
  destruct o as [ob|]; cbn [other].
  2: { split_app x. red_app. repeat split. exists []. now rewrite app_nil_r. }
  split_app x. destruct b, d, v; red_app; repeat split;
    (eexists; split; [rewrite <- !app_assoc; reflexivity|]);
    cbn [app In stemStarted];
    repeat split; auto 20;
    try (intros; intuition congruence).
Qed.

(** ** The track list and the pause button do not touch the timeline *)

Ltac red_session :=
  cbv beta iota zeta delta
    [startMusicAcross sameContext act component switchTimers] in *;
  red_switch.

Ltac branches_session :=
  repeat (red_session;
          match goal with
          | |- context [match ?x with _ => _ end] =>
              lazymatch x with
              | context [match _ with _ => _ end] => fail
              | _ => destruct x eqn:?
              end
          end);
  red_session.

Lemma switchTrack_keeps loaded value m w :
  let w1 := fst (switchTrack loaded value m w) in
  audioRef w1 = audioRef w /\ stateRef w1 = stateRef w
  /\ stage (ui w1) = stage (ui w)
  /\ timers (host w1) = timers (host w) /\ wall (host w1) = wall (host w)
  /\ currentTime (host w1) = currentTime (host w)
  /\ rafActive (host w1) = rafActive (host w).
Proof. split_app w. branches_session; now repeat split. Qed.

Lemma restartStems_keeps c gO gB gD gV shown w :
  let a := audioRef w in
  let a' := audioRef (restartStems c gO gB gD gV shown w) in
  let w' := restartStems c gO gB gD gV shown w in
  stateRef w' = stateRef w /\ ui w' = ui w
  /\ timers (host w') = timers (host w) /\ wall (host w') = wall (host w)
  /\ currentTime (host w') = currentTime (host w)
  /\ ctx a' = ctx a /\ clockSrc a' = clockSrc a /\ gainClock a' = gainClock a
  /\ gainOther a' = gainOther a /\ gainBass a' = gainBass a
  /\ gainDrums a' = gainDrums a /\ gainVocals a' = gainVocals a
  /\ startTime a' = startTime a.
Proof. split_app w. branches_session; now repeat split. Qed.

Lemma restartClock_keeps c w :
  let a := audioRef w in
  let w' := restartClock c w in
  let a' := audioRef w' in
  stateRef w' = stateRef w
  /\ timers (host w') = timers (host w) /\ wall (host w') = wall (host w)
  /\ currentTime (host w') = currentTime (host w)
  /\ ctx a' = ctx a /\ gainClock a' = gainClock a
  /\ gainOther a' = gainOther a /\ gainBass a' = gainBass a
  /\ gainDrums a' = gainDrums a /\ gainVocals a' = gainVocals a
  /\ ((clockSrc a' = clockSrc a /\ startTime a' = startTime a /\ ui w' = ui w)
      \/ (ctx a = Some c /\ is_Some (gainClock a) /\ is_Some (buffersRef w)
          /\ clockSrc a' = Some (nextId (host w))
          /\ startTime a' = currentTime (host w)
          /\ stage (ui w') = Syncing)).
Proof.
  split_app w. branches_session; repeat split; auto;
    right; repeat split; eauto;
    match goal with H : Nat.eqb _ _ = true |- _ => apply Nat.eqb_eq in H; now subst end.
Qed.

Lemma handlePause_keeps state w :
  let w1 := snd (handlePause state w) in
  stateRef w1 = stateRef w /\ audioRef w1 = audioRef w /\ host w1 = host w
  /\ stage (ui w1) = stage (ui w).
Proof. split_app w. branches_session; now repeat split. Qed.

(** ** The audio references over whole sessions *)

Lemma step_core e w :
  disconnected (audioRef w) \/ connected (audioRef w) ->
  disconnected (audioRef (step e w)) \/ connected (audioRef (step e w)).
Proof.
  assert (N : disconnected nullAudioRef) by now repeat split.
  intros H. destruct e; cbn [step].
  - destruct (rafActive (host w)); [|exact H].
    destruct (gameLoop_graph w) as (E1 & E2 & E3 & E4 & E5 & E6 & E7 & E8).
    cbv zeta in *. unfold disconnected, connected in *.
    now rewrite E1, E2, E3, E4, E5, E6, E7.
  - unfold handleDown. destruct (isInputKey key); [split_app w|]; exact H.
  - unfold handleUp. destruct (isInputKey key); [split_app w|]; exact H.
  - unfold elapse. destruct (_ && _); [split_app w|]; exact H.
  - unfold fireTimer. destruct (timers (host w) !! i) as [[d [|c]]|]; [| |exact H];
      (destruct (Qleb _ _); [|exact H]); cbn [action runTimer].
    + destruct (activateMix_effect (removeTimer i w)) as (_ & _ & _ & _ & _ & -> & _).
      now destruct (removeTimer_projections i w) as (_ & -> & _).
    + left. now destruct (stopReset_effect c (removeTimer i w)) as (_ & -> & _).
  - destruct (Qleb 0 t0); [|exact H].
    destruct (initAudio_graph clockBuf selectedBuffers t0 w) as [-> | C]; auto.
  - destruct (ctx (audioRef w)) as [c|] eqn:C, (gainClock (audioRef w)) as [gc|] eqn:G;
      unfold handleStop; rewrite C, ?G; exact H.
  - split_app w. exact H.
Qed.

Lemma act_core a s :
  disconnected (audioRef (component s)) \/ connected (audioRef (component s)) ->
  disconnected (audioRef (component (act a s)))
  \/ connected (audioRef (component (act a s))).
Proof.
  intros H. destruct a; cbn [act].
  - cbn [component]. now apply step_core.
  - destruct (switchTrack_keeps loaded value newMusic (component s)) as (E & _).
    cbv zeta in E. destruct (switchTrack _ _ _ _) as [w1 t]. cbn [component fst] in *.
    now rewrite E.
  - destruct (switchTimers s !! i) as [[d t]|]; [|exact H]. cbn [switchDue switchAction].
    destruct (Qleb _ _); [|exact H]. cbn [component].
    destruct t as [c gO gB gD gV shown | c]; cbn [runSwitch].
    + destruct (restartStems_keeps c gO gB gD gV shown (component s))
        as (_ & _ & _ & _ & _ & E1 & E2 & E3 & E4 & E5 & E6 & E7 & _).
      cbv zeta in *. unfold disconnected, connected in *.
      now rewrite E1, E2, E3, E4, E5, E6, E7.
    + destruct (restartClock_keeps c (component s))
        as (_ & _ & _ & _ & E1 & E3 & E4 & E5 & E6 & E7 & K).
      cbv zeta in *. unfold disconnected, connected in *.
      rewrite E1, E3, E4, E5, E6, E7.
      destruct K as [(K & _) | (C & _ & _ & K & _)]; rewrite K; [exact H|].
      right. destruct H as [(H & _) | H]; [congruence|].
      destruct H as (H1 & _ & H3 & H4 & H5 & H6 & H7). repeat split; eauto.
  - cbn [component].
    destruct (handlePause_keeps state (component s)) as (_ & E & _).
    cbv zeta in E. now rewrite E.
Qed.

Lemma session_invariant (P : Session -> Prop) :
  (forall a s, P s -> P (act a s)) ->
  forall acts s, P s -> P (session acts s).
Proof.
  intros Hact acts. induction acts as [|a acts IH]; intros s Hs; [exact Hs|].
  cbn. apply IH, Hact, Hs.
Qed.

(** A stems callback of the track list that runs on a reset component
    writes its new sources beside the cleared references. *)
Lemma stale_stems_callback c gO gB gD gV shown currentMusic n w :
  let x := stopReset c w in
  musicBuffersRef x !! (if String.eqb (selectedMusicRef x) "" then shown
                        else selectedMusicRef x) = Some currentMusic ->
  other currentMusic = Some n ->
  let x' := runSwitch (RestartStems c gO gB gD gV shown) x in
  disconnected (audioRef x') /\ is_Some (otherSrc (audioRef x')).
Proof.
  cbv zeta. intros M O. cbn [runSwitch].
  destruct (stopReset_effect c w) as (_ & A & _). cbv zeta in A.
  revert M A. generalize (stopReset c w). intros x M A.
  destruct (restartStems_effect c gO gB gD gV shown x)
    as (_ & _ & _ & _ & _ & added & _ & S).
  destruct (restartStems_keeps c gO gB gD gV shown x)
    as (_ & _ & _ & _ & _ & E1 & E2 & E3 & E4 & E5 & E6 & E7 & _).
  cbv zeta in *. rewrite M, O in S. destruct S as (S & _).
  split.
  + unfold disconnected. rewrite E1, E2, E3, E4, E5, E6, E7, A. now repeat split.
  + unfold stemStarted in S.
    destruct (otherSrc _); [eauto | destruct S].
Qed.

(** X3.  Through every session with the component -- frames, keys, timers,
    connecting, stopping, clicks on the track list with their timers, and
    the pause button -- the context, the clock source and the five gains are
    held all together or not at all.  (The stem sources are not part of
    this: a stems callback of the track list that comes due after a reset
    writes new stem sources beside the cleared references.)  So a stop
    request is ignored exactly when no context is held, and when one is held
    it sets one reset timer, due 10 000 ms later. *)
Theorem audio_references_all_or_none (acts : list Action) (sel : string) :
  let w := component (session acts (opened sel)) in
  (disconnected (audioRef w) \/ connected (audioRef w))
  /\ (forall value, ctx (audioRef w) = None -> handleStop value w = w)
  /\ (forall value c, ctx (audioRef w) = Some c ->
        timers (host (handleStop value w))
        = timers (host w) ++ [mkTimer (wall (host w) + num 10000) (StopReset c)])
  /\ (forall c gO gB gD gV shown currentMusic n,
        let x := stopReset c w in
        musicBuffersRef x !! (if String.eqb (selectedMusicRef x) "" then shown
                              else selectedMusicRef x) = Some currentMusic ->
        other currentMusic = Some n ->
        let x' := runSwitch (RestartStems c gO gB gD gV shown) x in
        disconnected (audioRef x') /\ is_Some (otherSrc (audioRef x'))).
Proof.
  cbv zeta.
  assert (I : disconnected (audioRef (component (session acts (opened sel))))
              \/ connected (audioRef (component (session acts (opened sel))))).
  { apply (session_invariant
             (fun s => disconnected (audioRef (component s))
                       \/ connected (audioRef (component s))));
      [intros; now apply act_core | left; now repeat split]. }
  split; [exact I|]. split; [|split].
  - intros value E. unfold handleStop. now rewrite E.
  - intros value c C. destruct I as [(D & _) | ( _ & _ & [gc G] & _)]; [congruence|].
    destruct (handleStop_effect value _ c gc C G) as (_ & T & _).
    rewrite T.
    replace (CONFIG.fadeOutTime * num 1000) with (num 10000)
      by (apply Qc_is_canon; reflexivity).
    reflexivity.
  - intros c gO gB gD gV shown currentMusic n M O.
    now apply (stale_stems_callback c gO gB gD gV shown currentMusic n).
Qed.

(** ** What changes the stage *)

(** X4.  One action of a session changes the stage only in these cases:
    connecting sets it to Syncing; a due mix timer sets it to MixActive and
    the mix flag on; a due reset timer sets it to Idle and the mix flag off;
    and a due clock-restart timer of the track list, run in the context it
    captured, sets it to Syncing through startMusic -- without touching the
    mix flag, so that after a mix timer fired during the fade of such a
    switch the stage is back at Syncing while the mix flag stays on.  Frames,
    key events, the passing of time, completed loads, the stop request
    itself, a click on the track list, a stems-restart timer and the pause
    button never change the stage or the mix flag. *)
Theorem stage_changes_only_by_connect_and_timers (a : Action) (s : Session) :
  let w := component s in
  let w' := component (act a s) in
  (stage (ui w') = stage (ui w)
   /\ vocalActive (stateRef w') = vocalActive (stateRef w))
  \/ (exists b sb t0, a = Plain (EvConnect b sb t0) /\ stage (ui w') = Syncing
                      /\ vocalActive (stateRef w') = vocalActive (stateRef w))
  \/ (exists i t,
        a = Plain (EvTimer i) /\ timers (host w) !! i = Some t
        /\ due t <= wall (host w)
        /\ ((action t = ActivateMix /\ stage (ui w') = MixActive
             /\ vocalActive (stateRef w') = true)
            \/ (exists c, action t = StopReset c /\ stage (ui w') = Idle
                          /\ vocalActive (stateRef w') = false)))
  \/ (exists i t c,
        a = FireSwitch i /\ switchTimers s !! i = Some t
        /\ switchDue t <= wall (host w) /\ switchAction t = RestartClock c
        /\ ctx (audioRef w) = Some c
        /\ stage (ui w') = Syncing
        /\ vocalActive (stateRef w') = vocalActive (stateRef w)).
Proof.
  cbv zeta. destruct a as [e | loaded value newMusic | i | state]; cbn [act].
  - cbn [component]. set (w := component s). clearbody w.
    destruct e; cbn [step].
    + left. destruct (rafActive (host w)); [|now split].
      now rewrite gameLoop_stage, gameLoop_vocalActive.
    + left. unfold handleDown. destruct (isInputKey key); [split_app w|]; now split.
    + left. unfold handleUp. destruct (isInputKey key); [split_app w|]; now split.
    + left. unfold elapse. destruct (_ && _); [split_app w|]; now split.
    + unfold fireTimer. destruct (timers (host w) !! i) as [t|] eqn:T; [|now left].
      destruct (Qleb (due t) (wall (host w))) eqn:D; [|now left].
      apply Qleb_le in D. right; right; left. exists i, t. repeat split; trivial.
      destruct (action t) as [|c] eqn:A; cbn [runTimer].
      * left. destruct (activateMix_effect (removeTimer i w)) as (_ & V & S & _).
        now repeat split.
      * right. exists c.
        destruct (stopReset_effect c (removeTimer i w)) as (_ & _ & S & U & _).
        cbv zeta in *. rewrite S, U. now repeat split.
    + destruct (Qleb 0 t0); [|now left].
      destruct (initAudio_keeps clockBuf selectedBuffers t0 w) as (_ & V & [S | S]);
        [left; now split|].
      right; left. exists clockBuf, selectedBuffers, t0. now repeat split.
    + left. rewrite handleStop_stateRef. split; [|reflexivity].
      destruct (ctx (audioRef w)) as [c|] eqn:C, (gainClock (audioRef w)) as [gc|] eqn:G;
        unfold handleStop; rewrite C, ?G; reflexivity.
    + left. split_app w. now split.
  - left. destruct (switchTrack_keeps loaded value newMusic (component s))
      as (_ & E2 & E3 & _).
    cbv zeta in *. destruct (switchTrack _ _ _ _) as [w1 t]. cbn [component fst] in *.
    now rewrite E2, E3.
  - destruct (switchTimers s !! i) as [[d t]|] eqn:T; [|now left].
    cbn [switchDue switchAction].
    destruct (Qleb d (wall (host (component s)))) eqn:D; [|now left].
    apply Qleb_le in D. cbn [component].
    destruct t as [c gO gB gD gV shown | c]; cbn [runSwitch].
    + left. destruct (restartStems_keeps c gO gB gD gV shown (component s))
        as (E1 & E2 & _).
      cbv zeta in *. now rewrite E1, E2.
    + destruct (restartClock_keeps c (component s))
        as (E1 & _ & _ & _ & _ & _ & _ & _ & _ & _ & K).
      cbv zeta in *. rewrite E1.
      destruct K as [(_ & _ & U) | (C & _ & _ & _ & _ & S)];
        [left; now rewrite U|].
      right; right; right. exists i, (mkSwitchTimer d (RestartClock c)), c.
      now repeat split.
  - left. cbn [component].
    destruct (handlePause_keeps state (component s)) as (E1 & _ & _ & E4).
    cbv zeta in *. now rewrite E1, E4.
Qed.

(** ** The anchor and the context clock over whole sessions *)

Lemma act_anchor a s :
  0 <= startTime (audioRef (component s))
  /\ startTime (audioRef (component s)) <= currentTime (host (component s)) ->
  0 <= startTime (audioRef (component (act a s)))
  /\ startTime (audioRef (component (act a s)))
     <= currentTime (host (component (act a s))).
Proof.
  intros H. destruct a; cbn [act].
  - cbn [component]. now apply step_anchor.
  - destruct (switchTrack_keeps loaded value newMusic (component s))
      as (E & _ & _ & _ & _ & T & _).
    cbv zeta in *. destruct (switchTrack _ _ _ _) as [w1 t]. cbn [component fst] in *.
    now rewrite E, T.
  - destruct (switchTimers s !! i) as [[d t]|]; [|exact H]. cbn [switchDue switchAction].
    destruct (Qleb _ _); [|exact H]. cbn [component].
    destruct t as [c gO gB gD gV shown | c]; cbn [runSwitch].
    + destruct (restartStems_keeps c gO gB gD gV shown (component s))
        as (_ & _ & _ & _ & T & _ & _ & _ & _ & _ & _ & _ & E).
      cbv zeta in *. now rewrite E, T.
    + destruct (restartClock_keeps c (component s))
        as (_ & _ & _ & T & _ & _ & _ & _ & _ & _ & K).
      cbv zeta in *. rewrite T.
      destruct K as [(_ & E & _) | (_ & _ & _ & _ & E & _)]; rewrite E; [exact H|].
      destruct H as [H0 H1]. split; [|apply Qcle_refl].
      clear - H0 H1. qlra.
  - cbn [component].
    destruct (handlePause_keeps state (component s)) as (_ & E & F & _).
    cbv zeta in *. now rewrite E, F.
Qed.

(** X7.  Through every session with the component the anchor of the clock
    loop is a non-negative instant that the context's clock has reached.  So
    wherever the loop is released, the release instant is a positive whole
    number of loop lengths after the anchor and is not before the current
    time, and the delay of the mix timer, max(0, L + 17 - now), is never cut
    off at 0.  (Strict or tighter bounds do not survive double precision: for
    a clock started at 1.008 and released at 8.008 the release instant is
    8.008 itself and the delay exactly 17 s, and for one started at 32.17 and
    released at 221.17 the release instant lies above 228.17.) *)
Theorem anchor_never_ahead_of_clock (acts : list Action) (sel : string) :
  let w := component (session acts (opened sel)) in
  let s := startTime (audioRef w) in
  let now := currentTime (host w) in
  let L := currentLoopEnd s now in
  (0 <= s /\ s <= now)
  /\ now <= L
  /\ (exists k : Z, (1 <= k)%Z /\ L = s + num (inject_Z k) * CONFIG.loopEndTime)
  /\ Math_max 0 (L + CONFIG.vocalStartTime - now) = L + CONFIG.vocalStartTime - now
  /\ (Binary64.currentLoopEnd 1.008 8.008 = 8.008%float
      /\ Binary64.mixDelay 1.008 8.008 = 17%float
      /\ PrimFloat.ltb (221.17 + 7.0) (Binary64.currentLoopEnd 32.17 221.17) = true).
Proof.
  cbv zeta.
  assert (H : 0 <= startTime (audioRef (component (session acts (opened sel))))
              /\ startTime (audioRef (component (session acts (opened sel))))
                 <= currentTime (host (component (session acts (opened sel))))).
  { apply (session_invariant
             (fun s => 0 <= startTime (audioRef (component s))
                       /\ startTime (audioRef (component s))
                          <= currentTime (host (component s))));
      [intros; now apply act_anchor | cbn; split; apply Qcle_refl]. }
  set (w := component (session acts (opened sel))) in *. clearbody w.
  pose proof (currentLoopEnd_not_before (startTime (audioRef w)) (currentTime (host w)))
    as A1.
  split; [exact H|]. split; [exact A1|]. split; [|split].
  - apply currentLoopEnd_aligned. apply H.
  - apply delay_positive. clear - A1. qlra.
  - repeat split; vm_compute; reflexivity.
Qed.

(** ** Switching track: the calls *)

(** X14.  A switch of track while the mix is active.  The click selects the
    new song and makes exactly these calls: on each of the four stem gains,
    in the order accompaniment, bass, drums, vocals, it cancels the scheduled
    values, pins the value it reads at [now] and ramps linearly to 0 at
    [now + 1]; the clock gain is not faded.  It sets a timer of 1000 ms and
    leaves the gauge, the stage and the pending timers alone.  If the song
    had to be loaded first, the status line is left at "LOADING <song>...".
    The timer's callback stops each stem source that exists, in the same
    order, and then, if the accompaniment of the selected song is buffered,
    starts every stem that has a buffer and sets the accompaniment gain to 1
    -- at the current time of the context held, as long as that is still the
    one the click captured; otherwise it makes no further call.  Either way
    the gauge, the stage and the clock are left as they are. *)
Theorem switch_in_mix_restarts_stems (loaded : MusicBuffers) (value : nat -> Qc)
    (m : string) (w : App) (c gO gB gD gV : nat) :
  isLoading (ui w) = false -> m <> selectedMusic (ui w) ->
  stage (ui w) = MixActive ->
  ctx (audioRef w) = Some c ->
  gainOther (audioRef w) = Some gO -> gainBass (audioRef w) = Some gB ->
  gainDrums (audioRef w) = Some gD -> gainVocals (audioRef w) = Some gV ->
  let shown := selectedMusic (ui w) in
  let now := currentTime (host w) in
  let buffered := match musicBuffersRef w !! m with
                  | Some cm => match other cm with Some _ => true | None => false end
                  | None => false
                  end in
  let ramp := fun n : nat =>
    [CancelScheduledValues n now; SetValueAtTime n (value n) now;
     LinearRampToValueAtTime n 0 (now + num 1.0)] in
  let stop := fun src : option nat =>
    match src with Some n => [Stop n] | None => [] end in
  let '(w1, t) := switchTrack loaded value m w in
  (t = Some (mkSwitchTimer (wall (host w) + num 1000)
                           (RestartStems c gO gB gD gV shown))
   /\ selectedMusic (ui w1) = m /\ selectedMusicRef w1 = m
   /\ stateRef w1 = stateRef w /\ stage (ui w1) = MixActive
   /\ timers (host w1) = timers (host w) /\ audioRef w1 = audioRef w
   /\ calls (host w1) = calls (host w) ++ ramp gO ++ ramp gB ++ ramp gD ++ ramp gV
   /\ statusText (ui w1)
      = (if buffered then statusText (ui w) else "LOADING " +:+ m +:+ "...")
   /\ musicBuffersRef w1
      = (if buffered then musicBuffersRef w else <[m := loaded]> (musicBuffersRef w)))
  /\ (forall x,
        let a := audioRef x in
        let sel := if String.eqb (selectedMusicRef x) "" then shown
                   else selectedMusicRef x in
        let x' := runSwitch (RestartStems c gO gB gD gV shown) x in
        stateRef x' = stateRef x /\ ui x' = ui x /\ timers (host x') = timers (host x)
        /\ clockSrc (audioRef x') = clockSrc a /\ startTime (audioRef x') = startTime a
        /\ exists added,
             calls (host x')
             = calls (host x) ++ stop (otherSrc a) ++ stop (bassSrc a)
               ++ stop (drumsSrc a) ++ stop (vocalsSrc a) ++ added
             /\ match musicBuffersRef x !! sel with
                | Some currentMusic =>
                    match other currentMusic with
                    | Some _ =>
                        ctx a = Some c ->
                        let now := currentTime (host x) in
                        stemStarted (otherSrc (audioRef x')) (other currentMusic) now added
                        /\ stemStarted (bassSrc (audioRef x')) (bass currentMusic) now added
                        /\ stemStarted (drumsSrc (audioRef x')) (drums currentMusic) now added
                        /\ stemStarted (vocalsSrc (audioRef x')) (vocals currentMusic) now added
                        /\ (forall n t, In (Start n t) added -> t = now)
                        /\ In (SetValueAtTime gO (num 1.0) now) added
                    | None => added = [] /\ audioRef x' = a
                    end
                | None => added = [] /\ audioRef x' = a
                end).
Proof.
  intros L N S C GO GB GD GV. cbv zeta.
  apply String.eqb_neq in N.
  destruct (switchTrack loaded value m w) as [w1 t] eqn:E.
  split.
  2: { intros x. cbn [runSwitch].
       destruct (restartStems_effect c gO gB gD gV (selectedMusic (ui w)) x)
         as (R1 & R2 & R3 & R4 & R5 & added & Ca & R6).
       cbv zeta in *. repeat split; trivial.
       exists added. split.
       - rewrite Ca. cbn [flat_map]. rewrite app_nil_r, <- !app_assoc. reflexivity.
       - revert R6.
         destruct (musicBuffersRef x !! _) as [currentMusic|]; [|trivial].
         destruct (other currentMusic); trivial. }
  revert E. unfold switchTrack. rewrite L, N, S. cbv zeta.
  destruct (musicBuffersRef w !! m) as [[[ob|] ? ? ?]|]; cbn [other].
  - split_app w. cbn in C, GO, GB, GD, GV. subst. red_switch.
    intros [= <- <-]. cbn.
    replace (num 1.0 * num 1000) with (num 1000) by (apply Qc_is_canon; reflexivity).
    now repeat split.
  - rewrite C. split_app w. cbn in C, GO, GB, GD, GV. subst. red_switch.
    intros [= <- <-]. cbn.
    replace (num 1.0 * num 1000) with (num 1000) by (apply Qc_is_canon; reflexivity).
    now repeat split.
  - rewrite C. split_app w. cbn in C, GO, GB, GD, GV. subst. red_switch.
    intros [= <- <-]. cbn.
    replace (num 1.0 * num 1000) with (num 1000) by (apply Qc_is_canon; reflexivity).
    now repeat split.
Qed.

Lemma switch_in_mix_restarts_stems_witness :
  let w := activateMix (step (EvConnect clock48k fullSong 0) (mounted "Misty")) in
  (isLoading (ui w) = false /\ "Blue"%string <> selectedMusic (ui w)
   /\ stage (ui w) = MixActive /\ ctx (audioRef w) = Some 0%nat
   /\ gainOther (audioRef w) = Some 2%nat /\ gainBass (audioRef w) = Some 3%nat
   /\ gainDrums (audioRef w) = Some 4%nat /\ gainVocals (audioRef w) = Some 5%nat)
  /\ snd (switchTrack fullSong (fun _ => 1) "Blue" w)
     = Some (mkSwitchTimer (wall (host w) + num 1000)
                           (RestartStems 0 2 3 4 5 (selectedMusic (ui w))))
  /\ In (LinearRampToValueAtTime 5 0 (currentTime (host w) + num 1.0))
        (calls (host (fst (switchTrack fullSong (fun _ => 1) "Blue" w)))).
Proof.
  cbv zeta.
  set (w := activateMix (step (EvConnect clock48k fullSong 0) (mounted "Misty"))).
  assert (L : isLoading (ui w) = false) by (vm_compute; reflexivity).
  assert (N : "Blue"%string <> selectedMusic (ui w)) by (vm_compute; discriminate).
  assert (S : stage (ui w) = MixActive) by (vm_compute; reflexivity).
  assert (C : ctx (audioRef w) = Some 0%nat) by (vm_compute; reflexivity).
  assert (GO : gainOther (audioRef w) = Some 2%nat) by (vm_compute; reflexivity).
  assert (GB : gainBass (audioRef w) = Some 3%nat) by (vm_compute; reflexivity).
  assert (GD : gainDrums (audioRef w) = Some 4%nat) by (vm_compute; reflexivity).
  assert (GV : gainVocals (audioRef w) = Some 5%nat) by (vm_compute; reflexivity).
  split; [now repeat split|]. clearbody w.
  pose proof (switch_in_mix_restarts_stems fullSong (fun _ => 1) "Blue" w
                _ _ _ _ _ L N S C GO GB GD GV) as H.
  cbv zeta in H. destruct (switchTrack fullSong (fun _ => 1) "Blue" w) as [w1 t].
  destruct H as ((T & _ & _ & _ & _ & _ & _ & Ca & _) & _).
  split; [exact T|]. cbn [fst]. rewrite Ca.
  apply in_or_app; right. apply in_or_app; right. apply in_or_app; right.
  apply in_or_app; right. right; right; left. reflexivity.
Defined.

Lemma restartClock_same c x clock gc :
  buffersRef x = Some clock -> gainClock (audioRef x) = Some gc ->
  ctx (audioRef x) = Some c ->
  let a := audioRef x in
  let src := nextId (host x) in
  let sr := sampleRate clock in
  let x' := restartClock c x in
  calls (host x')
  = calls (host x)
    ++ flat_map stopSource [clockSrc a; otherSrc a; bassSrc a; drumsSrc a; vocalsSrc a]
    ++ stopSource (clockSrc a)
    ++ [CreateBufferSource c src; SetBuffer src clock; SetLoop src true;
        SetLoopStart src 0;
        SetLoopEnd src (Math_floor (CONFIG.loopEndTime * sr) / sr);
        Connect src (ToNode gc); Start src (currentTime (host x))]
  /\ stateRef x' = stateRef x /\ timers (host x') = timers (host x)
  /\ stage (ui x') = Syncing
  /\ startTime (audioRef x') = currentTime (host x)
  /\ clockSrc (audioRef x') = Some src.
Proof.
  intros B G C. cbv zeta. unfold restartClock.
  replace (buffersRef (emits (flat_map stopSource
             [clockSrc (audioRef x); otherSrc (audioRef x); bassSrc (audioRef x);
              drumsSrc (audioRef x); vocalsSrc (audioRef x)]) x))
    with (buffersRef x) by now split_app x.
  rewrite B. split_app x. cbn in B, G, C. subst. red_session.
  rewrite Nat.eqb_refl. red_session.
  replace (0 / sampleRate clock) with 0 by (unfold Qcdiv; now rewrite Qcmult_0_l).
  rewrite <- !app_assoc. now repeat split.
Qed.

Lemma restartClock_across c x clock gc :
  buffersRef x = Some clock -> gainClock (audioRef x) = Some gc ->
  ctx (audioRef x) <> Some c ->
  let a := audioRef x in
  let src := nextId (host x) in
  let sr := sampleRate clock in
  let x' := restartClock c x in
  calls (host x')
  = calls (host x)
    ++ flat_map stopSource [clockSrc a; otherSrc a; bassSrc a; drumsSrc a; vocalsSrc a]
    ++ stopSource (clockSrc a)
    ++ [CreateBufferSource c src; SetBuffer src clock; SetLoop src true;
        SetLoopStart src 0;
        SetLoopEnd src (Math_floor (CONFIG.loopEndTime * sr) / sr);
        Connect src (ToNode gc)]
  /\ stateRef x' = stateRef x /\ timers (host x') = timers (host x)
  /\ ui x' = ui x /\ audioRef x' = audioRef x.
Proof.
  intros B G C. cbv zeta. unfold restartClock.
  replace (buffersRef (emits (flat_map stopSource
             [clockSrc (audioRef x); otherSrc (audioRef x); bassSrc (audioRef x);
              drumsSrc (audioRef x); vocalsSrc (audioRef x)]) x))
    with (buffersRef x) by now split_app x.
  rewrite B.
  assert (S : sameContext c (audioRef x) = false).
  { unfold sameContext. destruct (ctx (audioRef x)) as [k|]; [|reflexivity].
    apply Nat.eqb_neq. congruence. }
  replace (sameContext c (audioRef (emits (flat_map stopSource
             [clockSrc (audioRef x); otherSrc (audioRef x); bassSrc (audioRef x);
              drumsSrc (audioRef x); vocalsSrc (audioRef x)]) x)))
    with (sameContext c (audioRef x)) by now split_app x.
  rewrite S. clear S C. split_app x. cbn in B, G. subst. red_session.
  replace (0 / sampleRate clock) with 0 by (unfold Qcdiv; now rewrite Qcmult_0_l).
  rewrite <- !app_assoc. now repeat split.
Qed.

(** X15.  A switch of track before the mix is active.  The click selects the
    new song and makes exactly these calls: on each gain that exists, in the
    order clock, accompaniment, bass, drums, vocals, it cancels the scheduled
    values, pins the value it reads at [now] and ramps linearly to 0 at
    [now + 10].  It sets a timer of 10 000 ms and leaves the gauge, the loop
    latch, the stage and the pending timers alone.  The timer's callback
    stops every source that exists and runs startMusic with the context it
    captured.  While that context is still the one held, this stops the old
    clock source once more and starts a new looping source at the current
    time, which becomes the anchor, with the stage at Syncing; neither the
    gauge nor the latch is reset and no timer is cancelled, so if the loop
    had been released before, the latch stays released under the new,
    looping clock: however long the session goes on quietly no timer is set
    and no source is started.  When another context is held by then (the
    session was reset and connected again), connecting the new source to the
    clock gain fails: the callback has stopped the sources and starts
    nothing, and the references, the anchor and the stage stay as they
    were. *)
Theorem switch_before_mix_restarts_clock (loaded : MusicBuffers) (value : nat -> Qc)
    (m : string) (w : App) (c gc : nat) :
  isLoading (ui w) = false -> m <> selectedMusic (ui w) ->
  stage (ui w) <> MixActive ->
  ctx (audioRef w) = Some c -> gainClock (audioRef w) = Some gc ->
  let a := audioRef w in
  let now := currentTime (host w) in
  let ramp := fun g : option nat =>
    match g with
    | Some n => [CancelScheduledValues n now; SetValueAtTime n (value n) now;
                 LinearRampToValueAtTime n 0 (now + num 10.0)]
    | None => []
    end in
  let stop := fun src : option nat =>
    match src with Some n => [Stop n] | None => [] end in
  let '(w1, t) := switchTrack loaded value m w in
  (t = Some (mkSwitchTimer (wall (host w) + num 10000) (RestartClock c))
   /\ selectedMusic (ui w1) = m /\ selectedMusicRef w1 = m
   /\ stateRef w1 = stateRef w /\ stage (ui w1) = stage (ui w)
   /\ timers (host w1) = timers (host w) /\ audioRef w1 = a
   /\ calls (host w1)
      = calls (host w) ++ ramp (Some gc) ++ ramp (gainOther a) ++ ramp (gainBass a)
        ++ ramp (gainDrums a) ++ ramp (gainVocals a))
  /\ (forall x clock gc',
        buffersRef x = Some clock -> gainClock (audioRef x) = Some gc' ->
        let ax := audioRef x in
        let src := nextId (host x) in
        let sr := sampleRate clock in
        let x' := runSwitch (RestartClock c) x in
        let stops := stop (clockSrc ax) ++ stop (otherSrc ax) ++ stop (bassSrc ax)
                     ++ stop (drumsSrc ax) ++ stop (vocalsSrc ax)
                     ++ stop (clockSrc ax) in
        let created :=
          [CreateBufferSource c src; SetBuffer src clock; SetLoop src true;
           SetLoopStart src 0;
           SetLoopEnd src (Math_floor (CONFIG.loopEndTime * sr) / sr);
           Connect src (ToNode gc')] in
        stateRef x' = stateRef x /\ timers (host x') = timers (host x)
        /\ (ctx ax = Some c ->
            calls (host x')
            = calls (host x) ++ stops ++ created ++ [Start src (currentTime (host x))]
            /\ stage (ui x') = Syncing
            /\ startTime (audioRef x') = currentTime (host x)
            /\ clockSrc (audioRef x') = Some src
            /\ (isLooping (stateRef x) = false -> mixNeverStarts x'))
        /\ (ctx ax <> Some c ->
            calls (host x') = calls (host x) ++ stops ++ created
            /\ ui x' = ui x /\ audioRef x' = ax)).
Proof.
  intros L N S C G. cbv zeta.
  apply String.eqb_neq in N.
  destruct (switchTrack loaded value m w) as [w1 t] eqn:E.
  split.
  - revert E. unfold switchTrack. rewrite L, N. cbv zeta.
    assert (F : CONFIG.fadeOutTime * num 1000 = num 10000)
      by (apply Qc_is_canon; reflexivity).
    destruct (musicBuffersRef w !! m) as [[[ob|] ? ? ?]|]; cbn [other];
      rewrite ?C; split_app w; cbn in C, G, S; subst; red_switch;
      match goal with |- context [match ?s with Idle => _ | _ => _ end] =>
        destruct s; try congruence end;
      intros [= <- <-]; cbn [fst snd]; rewrite F;
      cbn [flat_map fadeOutGain]; rewrite app_nil_r;
      change CONFIG.fadeOutTime with (num 10.0); now repeat split.
  - intros x clock gc' B G'. cbn [runSwitch].
    destruct (restartClock_keeps c x) as (K1 & K2 & _). cbv zeta in K1, K2.
    split; [exact K1|]. split; [exact K2|]. split.
    + intros Cx.
      destruct (restartClock_same c x clock gc' B G' Cx) as (R0 & R1 & R2 & R3 & R5 & R6).
      cbv zeta in *. split; [|split; [exact R3|split; [exact R5|split; [exact R6|]]]].
      * rewrite R0. cbn [flat_map]. rewrite app_nil_r, <- !app_assoc. reflexivity.
      * intros Lp. apply released_mixNeverStarts. now rewrite R1.
    + intros Cx.
      destruct (restartClock_across c x clock gc' B G' Cx) as (R0 & _ & _ & R3 & R4).
      cbv zeta in *. split; [|split; [exact R3|exact R4]].
      rewrite R0. cbn [flat_map]. rewrite app_nil_r, <- !app_assoc. reflexivity.
Qed.

Lemma switch_before_mix_restarts_clock_witness :
  let w := step (EvConnect clock48k fullSong 0) (mounted "Misty") in
  (isLoading (ui w) = false /\ "Blue"%string <> selectedMusic (ui w)
   /\ stage (ui w) <> MixActive /\ ctx (audioRef w) = Some 0%nat
   /\ gainClock (audioRef w) = Some 1%nat)
  /\ snd (switchTrack fullSong (fun _ => 1) "Blue" w)
     = Some (mkSwitchTimer (wall (host w) + num 10000) (RestartClock 0))
  /\ In (LinearRampToValueAtTime 1 0 (currentTime (host w) + num 10.0))
        (calls (host (fst (switchTrack fullSong (fun _ => 1) "Blue" w)))).
Proof.
  cbv zeta.
  set (w := step (EvConnect clock48k fullSong 0) (mounted "Misty")).
  assert (L : isLoading (ui w) = false) by (vm_compute; reflexivity).
  assert (N : "Blue"%string <> selectedMusic (ui w)) by (vm_compute; discriminate).
  assert (S : stage (ui w) <> MixActive) by (vm_compute; discriminate).
  assert (C : ctx (audioRef w) = Some 0%nat) by (vm_compute; reflexivity).
  assert (G : gainClock (audioRef w) = Some 1%nat) by (vm_compute; reflexivity).
  split; [now repeat split|]. clearbody w.
  pose proof (switch_before_mix_restarts_clock fullSong (fun _ => 1) "Blue" w
                _ _ L N S C G) as H.
  cbv zeta in H. destruct (switchTrack fullSong (fun _ => 1) "Blue" w) as [w1 t].
  destruct H as ((T & _ & _ & _ & _ & _ & _ & Ca) & _).
  split; [exact T|]. cbn [fst]. rewrite Ca.
  apply in_or_app; right. apply in_or_app; left. right; right; left. reflexivity.
Defined.

(** ** The calls of startMusic *)

(** X6.  startMusic makes exactly these calls: it stops the clock source it
    replaces, if there is one, then creates a source on the clock buffer,
    sets it looping with a loop window from 0 to floor(7 sr) / sr, connects
    it to the clock gain and starts it at the context's current time, which
    becomes the anchor.  For a positive sample rate [sr] the window's end is at
    most 7 s and less than one sample short of it, and exactly 7 s when [sr]
    is a whole number. *)
Theorem clock_loop_window c clockBuf w gc :
  gainClock (audioRef w) = Some gc -> 0 < sampleRate clockBuf ->
  let sr := sampleRate clockBuf in
  let src := nextId (host w) in
  let now := currentTime (host w) in
  let loopEnd := Math_floor (CONFIG.loopEndTime * sr) / sr in
  let w' := startMusic c clockBuf w in
  calls (host w')
  = calls (host w)
    ++ match clockSrc (audioRef w) with Some old => [Stop old] | None => [] end
    ++ [CreateBufferSource c src; SetBuffer src clockBuf; SetLoop src true;
        SetLoopStart src 0; SetLoopEnd src loopEnd; Connect src (ToNode gc);
        Start src now]
  /\ clockSrc (audioRef w') = Some src /\ startTime (audioRef w') = now
  /\ (CONFIG.loopEndTime - 1 / sr < loopEnd /\ loopEnd <= CONFIG.loopEndTime)
  /\ (forall k : Z, sr = num (inject_Z k) -> loopEnd = CONFIG.loopEndTime).
Proof.
  intros G P. cbv zeta.
  split; [|split; [|split; [|exact (loop_window _ P)]]].
  - unfold startMusic. rewrite G. split_app w. red_app.
    unfold stopSource. rewrite <- app_assoc. do 5 f_equal.
    replace (0 / sampleRate clockBuf) with 0 by (unfold Qcdiv; now rewrite Qcmult_0_l).
    reflexivity.
  - unfold startMusic. rewrite G. split_app w. reflexivity.
  - unfold startMusic. rewrite G. split_app w. reflexivity.
Qed.

Lemma clock_loop_window_witness :
  let w := run [EvConnect clock48k fullSong 0; EvStop (fun _ => 1)] (mounted "Misty") in
  (gainClock (audioRef w) = Some 1%nat /\ 0 < sampleRate clock48k)
  /\ In (SetLoopEnd (nextId (host w)) (num 7))
        (calls (host (startMusic 0 clock48k w)))
  /\ clockSrc (audioRef w) = Some 6%nat
  /\ In (Stop 6) (calls (host (startMusic 0 clock48k w))).
Proof.
  cbv zeta.
  set (w := run [EvConnect clock48k fullSong 0; EvStop (fun _ => 1)] (mounted "Misty")).
  assert (G : gainClock (audioRef w) = Some 1%nat) by (vm_compute; reflexivity).
  assert (P : 0 < sampleRate clock48k) by (vm_compute; reflexivity).
  assert (O : clockSrc (audioRef w) = Some 6%nat) by (vm_compute; reflexivity).
  split; [now split|]. clearbody w.
  destruct (clock_loop_window 0%nat clock48k w 1%nat G P) as (C & _ & _ & _ & K).
  rewrite C, O, (K 48000%Z) by (apply Qc_is_canon; reflexivity).
  split; [|split; [reflexivity|]].
  - apply in_or_app; right. apply in_or_app; right.
    do 4 right; left. f_equal. apply Qc_is_canon. reflexivity.
  - apply in_or_app; right. apply in_or_app; left. now left.
Defined.

(** ** Loading the stems *)

(** X12.  A stem is loaded from "/<folder>/<stem>.wav" if that loads, else
    from ".flac" if that loads, else from ".mp3": the first of the three, in
    that order, whatever else loads, and it is missing exactly when none of
    the three loads.  loadMusicFolder loads the four stems other, bass, drums
    and vocals this way.  A song whose accompaniment ("other") loads in none of the
    three formats still connects without an error: the clock starts and the
    stage is Syncing.  But from there, however the listener holds the keys
    and however many frames run, no timer is set, no stem is started and the
    stage stays Syncing. *)
Theorem song_without_accompaniment_cannot_mix
    (loadFile : string -> option AudioBuffer) (clockBuf : AudioBuffer)
    (t0 : Qc) (sel : string) :
  sel <> ""%string -> 0 <= t0 ->
  (forall ext, In ext extensions -> loadFile (assetUrl sel "other" ext) = None) ->
  let w := step (EvConnect clockBuf (loadMusicFolder loadFile sel) t0) (mounted sel) in
  (forall folder file,
     tryLoad loadFile folder file
     = match loadFile ("/" +:+ folder +:+ "/" +:+ file +:+ ".wav") with
       | Some b => Some b
       | None =>
           match loadFile ("/" +:+ folder +:+ "/" +:+ file +:+ ".flac") with
           | Some b => Some b
           | None => loadFile ("/" +:+ folder +:+ "/" +:+ file +:+ ".mp3")
           end
       end)
  /\ (forall folder,
        loadMusicFolder loadFile folder
        = mkMusicBuffers (tryLoad loadFile folder "other")
                         (tryLoad loadFile folder "bass")
                         (tryLoad loadFile folder "drums")
                         (tryLoad loadFile folder "vocals"))
  /\ assetUrl "Misty" "vocals" ".flac" = "/Misty/vocals.flac"%string
  /\ (stage (ui w) = Syncing /\ errorMessage (ui w) = ""%string
      /\ songLoaded w = false /\ timers (host w) = []
      /\ startTimes (calls (host w)) = [(6%nat, this t0)])
  /\ (forall es, forallb frameOrInput es = true ->
        let w' := run es w in
        timers (host w') = [] /\ stage (ui w') = Syncing
        /\ startTimes (calls (host w')) = [(6%nat, this t0)]).
Proof.
  intros N T0 O. cbv zeta. apply Qleb_le in T0.
  assert (E : String.eqb sel "" = false) by now apply String.eqb_neq.
  assert (TO : tryLoad loadFile sel "other" = None).
  { rewrite tryLoad_cases, !O; cbn; auto. }
  assert (W : let w := step (EvConnect clockBuf (loadMusicFolder loadFile sel) t0)
                            (mounted sel) in
              stage (ui w) = Syncing /\ errorMessage (ui w) = ""%string
              /\ songLoaded w = false /\ timers (host w) = []
              /\ startTimes (calls (host w)) = [(6%nat, this t0)]).
  { cbv zeta. cbn [step]. rewrite T0. unfold initAudio, mounted, songLoaded.
    red_app. rewrite E. red_app. rewrite ?E. red_app. rewrite lookup_insert_eq.
    unfold loadMusicFolder. red_app. rewrite TO. now repeat split. }
  split; [|split; [|split; [|split; [exact W|]]]].
  - intros folder file. exact (tryLoad_cases loadFile folder file).
  - reflexivity.
  - reflexivity.
  - cbv zeta in W. destruct W as (S & _ & L & T & St).
    set (w := step _ (mounted sel)) in *. clearbody w.
    intros es. revert w S L T St.
    induction es as [|e es IH]; intros w S L T St Q; [now repeat split|].
    cbn [forallb] in Q. apply andb_prop in Q as [Qe Qs].
    destruct (step_unloaded e w Qe L) as (L1 & T1 & St1 & S1).
    cbn [run fold_left]. fold (run es (step e w)).
    apply IH; congruence.
Qed.

Lemma song_without_accompaniment_cannot_mix_witness :
  let loadFile := fun url : string =>
    if String.eqb url "/Misty/bass.flac" then Some (mkAudioBuffer 2 (num 44100))
    else None in
  let w := step (EvConnect clock48k (loadMusicFolder loadFile "Misty") 0)
                (mounted "Misty") in
  ("Misty"%string <> ""%string /\ 0 <= 0
   /\ forall ext, In ext extensions -> loadFile (assetUrl "Misty" "other" ext) = None)
  /\ stage (ui (run [EvKeyDown " "; EvTick; EvTick] w)) = Syncing.
Proof.
  cbv zeta.
  set (lf := fun url : string =>
               if String.eqb url "/Misty/bass.flac"
               then Some (mkAudioBuffer 2 (num 44100)) else None).
  assert (H1 : "Misty"%string <> ""%string) by discriminate.
  assert (H2 : 0 <= 0) by apply Qcle_refl.
  assert (H3 : forall ext, In ext extensions -> lf (assetUrl "Misty" "other" ext) = None)
    by (intros ext [<-|[<-|[<-|[]]]]; reflexivity).
  split; [now repeat split|].
  destruct (song_without_accompaniment_cannot_mix lf clock48k 0 "Misty" H1 H2 H3)
    as (_ & _ & _ & _ & R).
  destruct (R [EvKeyDown " "; EvTick; EvTick] eq_refl) as (_ & S & _). exact S.
Defined.

(** ** The gauge over many frames *)



